(** * btsniffer: the discovery / dedup / rollover / upload pipeline

    A shallow embedding of [src/btsniffer.py] (class [btsniffer]) and the
    properties of its ledger, its active CSV file, its rollover and its
    uploader.

    Conventions of the embedding

    - A Python [str] and the bytes of a file are both a [string]: text is
      ASCII, so the size in bytes of a file is the length of its content and
      [str.upper], [str.strip] and [str.splitlines] act on ASCII characters.
    - [self.data] is a [gmap string string]: address to its ['first_seen'].
    - The file system is a finite map from path strings to nodes; paths are
      compared as strings.
    - Whatever the outside world decides (the clock, the output of
      [bluetoothctl], the answers of gpsd and of the WiGLE endpoint, and
      which system calls raise) is an explicit [*_env] argument of the
      operation that observes it.
    - A call that may raise returns a [res]: [Ok] with its value, or
      [Raised]; a [try/except Exception] is a match on that result.
    - A Python [float] is the rational it denotes. *)

From Stdlib Require Import ZArith QArith Qabs Ascii String List Lia.
From stdpp Require Import gmap strings list fin_maps sorting pretty.

Set Warnings "-register-all".

Arguments String.append !_ _ / : simpl nomatch.

Open Scope string_scope.
Open Scope list_scope.
Open Scope stdpp_scope.
Open Scope Z_scope.

(** ** Results that may raise *)

Inductive res (A : Type) : Type :=
| Ok (a : A)
| Raised.
Arguments Ok {A} a.
Arguments Raised {A}.

(** ** Python string methods on ASCII text *)

Module PyStr.

Definition LF : ascii := ascii_of_nat 10.
Definition CR : ascii := ascii_of_nat 13.

Definition upper_char (c : ascii) : ascii :=
  let n := nat_of_ascii c in
  if ((97 <=? n) && (n <=? 122))%nat then ascii_of_nat (n - 32) else c.

Definition lower_char (c : ascii) : ascii :=
  let n := nat_of_ascii c in
  if ((65 <=? n) && (n <=? 90))%nat then ascii_of_nat (n + 32) else c.

Fixpoint smap (f : ascii -> ascii) (s : string) : string :=
  match s with
  | EmptyString => EmptyString
  | String c s' => String (f c) (smap f s')
  end.

(** [s.upper()] and [s.lower()] *)
Definition upper : string -> string := smap upper_char.
Definition lower : string -> string := smap lower_char.

(** [c.isspace()] on ASCII: tab, LF, VT, FF, CR, FS, GS, RS, US and space *)
Definition isspace (c : ascii) : bool :=
  let n := nat_of_ascii c in
  (((9 <=? n) && (n <=? 13)) || ((28 <=? n) && (n <=? 32)))%nat.

Fixpoint lstrip (s : string) : string :=
  match s with
  | EmptyString => EmptyString
  | String c s' => if isspace c then lstrip s' else s
  end.

Fixpoint rstrip (s : string) : string :=
  match s with
  | EmptyString => EmptyString
  | String c s' =>
      match rstrip s' with
      | EmptyString => if isspace c then EmptyString else String c EmptyString
      | r => String c r
      end
  end.

(** [s.strip()] *)
Definition strip (s : string) : string := rstrip (lstrip s).

(** [s.startswith(p)] *)
Fixpoint startswith (p s : string) : bool :=
  match p with
  | EmptyString => true
  | String a p' =>
      match s with
      | String b s' => Ascii.eqb a b && startswith p' s'
      | EmptyString => false
      end
  end.

(** [s.endswith(p)] *)
Fixpoint endswith (p s : string) : bool :=
  String.eqb p s ||
  match s with
  | EmptyString => false
  | String _ s' => endswith p s'
  end.

(** [p in s] *)
Fixpoint contains (p s : string) : bool :=
  startswith p s ||
  match s with
  | EmptyString => false
  | String _ s' => contains p s'
  end.

(** [s.split(sep, n)] for a one-character separator: at most [n] splits,
    the remainder is the last part, unsplit. *)
Fixpoint split_max (sep : ascii) (n : nat) (s : string) : list string :=
  match s with
  | EmptyString => [EmptyString]
  | String c s' =>
      match n with
      | O => [s]
      | S n' =>
          if Ascii.eqb c sep then EmptyString :: split_max sep n' s'
          else match split_max sep n s' with
               | p :: ps => String c p :: ps
               | [] => [String c EmptyString]
               end
      end
  end.

(** line boundaries of [str.splitlines] on ASCII: LF, VT, FF, CR, FS, GS, RS *)
Definition is_linebreak (c : ascii) : bool :=
  let n := nat_of_ascii c in
  (((10 <=? n) && (n <=? 13)) || ((28 <=? n) && (n <=? 30)))%nat.

Fixpoint splitlines_go (after_cr : bool) (cur : option string) (s : string)
  : list string :=
  match s with
  | EmptyString => match cur with Some l => [l] | None => [] end
  | String c s' =>
      if after_cr && Ascii.eqb c LF then splitlines_go false cur s'
      else if is_linebreak c then
        default EmptyString cur :: splitlines_go (Ascii.eqb c CR) None s'
      else
        splitlines_go false
          (Some (default EmptyString cur +:+ String c EmptyString)) s'
  end.

(** [s.splitlines()] *)
Definition splitlines (s : string) : list string := splitlines_go false None s.

(** [s.replace(old, new)] for a non-empty [old]: occurrences are found left
    to right and do not overlap.  [skip] counts the characters of a matched
    occurrence that are still to be passed over. *)
Fixpoint replace_go (old new : string) (skip : nat) (s : string) : string :=
  match s with
  | EmptyString => EmptyString
  | String c s' =>
      match skip with
      | S k => replace_go old new k s'
      | O =>
          if startswith old s
          then new +:+ replace_go old new (String.length old - 1) s'
          else String c (replace_go old new 0 s')
      end
  end.

Definition replace (old new s : string) : string := replace_go old new 0 s.

(** [os.path.basename(p)]: what follows the last slash *)
Fixpoint basename (p : string) : string :=
  match p with
  | EmptyString => EmptyString
  | String c p' =>
      if contains "/" p' then basename p'
      else if Ascii.eqb c "/" then p' else p
  end.

Fixpoint rstrip_slash (s : string) : string :=
  match s with
  | EmptyString => EmptyString
  | String c s' =>
      match rstrip_slash s' with
      | EmptyString =>
          if Ascii.eqb c "/" then EmptyString else String c EmptyString
      | r => String c r
      end
  end.

(** the part of [p] up to its last slash, the slash included *)
Fixpoint head_of (p : string) : string :=
  match p with
  | EmptyString => EmptyString
  | String c p' =>
      if contains "/" p' then String c (head_of p')
      else if Ascii.eqb c "/" then String c EmptyString else EmptyString
  end.

(** [os.path.dirname(p)]: the head without its trailing slashes, unless
    it is made of slashes only *)
Definition dirname (p : string) : string :=
  let h := head_of p in
  match rstrip_slash h with
  | EmptyString => h
  | r => r
  end.

(** [os.path.join(d, f)] *)
Definition path_join (d f : string) : string :=
  if startswith "/" f then f
  else if String.eqb d EmptyString || endswith "/" d then d +:+ f
  else d +:+ "/" +:+ f.

End PyStr.


(** ** The [csv] module, dialect [excel]

    [csv.writer(f).writerow] and [csv.reader(f)] for the default dialect:
    delimiter [,], quote character, doubled quotes, [QUOTE_MINIMAL],
    line terminator CR LF, no escape character, not strict.  The file is
    opened with [newline=''], so its lines end at LF, CR or CR LF and keep
    their ending. *)

Module Csv.
Import PyStr.

Definition DQ : ascii := ascii_of_nat 34.
Definition COMMA : ascii := ascii_of_nat 44.

Definition CRLF : string := String CR (String LF EmptyString).

(** *** Writer *)

Definition special (c : ascii) : bool :=
  Ascii.eqb c COMMA || Ascii.eqb c DQ || Ascii.eqb c CR || Ascii.eqb c LF.

Fixpoint has_special (s : string) : bool :=
  match s with
  | EmptyString => false
  | String c s' => special c || has_special s'
  end.

Fixpoint escape (s : string) : string :=
  match s with
  | EmptyString => EmptyString
  | String c s' =>
      if Ascii.eqb c DQ then String DQ (String DQ (escape s'))
      else String c (escape s')
  end.

Definition quoted (f : string) : string :=
  String DQ (escape f +:+ String DQ EmptyString).

(** a field is quoted when it holds a special character, and when it is
    the empty only field of its row *)
Definition write_field (only : bool) (f : string) : string :=
  if has_special f || (only && String.eqb f EmptyString) then quoted f else f.

Fixpoint join_fields (fs : list string) : string :=
  match fs with
  | [] => EmptyString
  | [f] => write_field false f
  | f :: fs' => write_field false f +:+ String COMMA (join_fields fs')
  end.

(** the text that [writer.writerow(row)] writes *)
Definition writerow (row : list string) : string :=
  match row with
  | [f] => write_field true f +:+ CRLF
  | _ => join_fields row +:+ CRLF
  end.

(** *** Lines of a text file opened with [newline=''] *)

Fixpoint readlines_go (cur : string) (s : string) : list string :=
  match s with
  | EmptyString =>
      match cur with EmptyString => [] | _ => [cur] end
  | String c s' =>
      if Ascii.eqb c LF then
        (cur +:+ String LF EmptyString) :: readlines_go EmptyString s'
      else if Ascii.eqb c CR then
        match s' with
        | String c2 s'' =>
            if Ascii.eqb c2 LF
            then (cur +:+ CRLF) :: readlines_go EmptyString s''
            else (cur +:+ String CR EmptyString) :: readlines_go EmptyString s'
        | EmptyString => [cur +:+ String CR EmptyString]
        end
      else readlines_go (cur +:+ String c EmptyString) s'
  end.

Definition readlines (s : string) : list string := readlines_go EmptyString s.

(** [f.readline()] at the start of the file *)
Definition readline (s : string) : string :=
  match readlines s with
  | l :: _ => l
  | [] => EmptyString
  end.

(** *** Reader *)

Inductive pstate : Type :=
| START_RECORD
| START_FIELD
| IN_FIELD
| IN_QUOTED_FIELD
| QUOTE_IN_QUOTED_FIELD
| EAT_CRNL.

Record reader : Type := mkReader {
  state : pstate;
  field : string;          (* the characters of the field being read *)
  fields : list string     (* the fields of the record being read *)
}.

Definition parse_reset : reader :=
  {| state := START_RECORD; field := EmptyString; fields := [] |}.

Definition set_state (st : pstate) (r : reader) : reader :=
  {| state := st; field := field r; fields := fields r |}.

Definition parse_save_field (r : reader) : reader :=
  {| state := state r; field := EmptyString; fields := fields r ++ [field r] |}.

Definition parse_add_char (c : ascii) (r : reader) : reader :=
  {| state := state r; field := field r +:+ String c EmptyString;
     fields := fields r |}.

Definition is_nl (c : ascii) : bool := Ascii.eqb c LF || Ascii.eqb c CR.

Definition at_start_field (r : reader) (c : option ascii) : reader :=
  match c with
  | None => set_state START_RECORD (parse_save_field r)
  | Some ch =>
      if is_nl ch then set_state EAT_CRNL (parse_save_field r)
      else if Ascii.eqb ch DQ then set_state IN_QUOTED_FIELD r
      else if Ascii.eqb ch COMMA then parse_save_field r
      else set_state IN_FIELD (parse_add_char ch r)
  end.

Definition parse_process_char (r : reader) (c : option ascii) : res reader :=
  match state r with
  | START_RECORD =>
      match c with
      | None => Ok r
      | Some ch =>
          if is_nl ch then Ok (set_state EAT_CRNL r)
          else Ok (at_start_field (set_state START_FIELD r) c)
      end
  | START_FIELD => Ok (at_start_field r c)
  | IN_FIELD =>
      match c with
      | None => Ok (set_state START_RECORD (parse_save_field r))
      | Some ch =>
          if is_nl ch then Ok (set_state EAT_CRNL (parse_save_field r))
          else if Ascii.eqb ch COMMA
          then Ok (set_state START_FIELD (parse_save_field r))
          else Ok (parse_add_char ch r)
      end
  | IN_QUOTED_FIELD =>
      match c with
      | None => Ok r
      | Some ch =>
          if Ascii.eqb ch DQ then Ok (set_state QUOTE_IN_QUOTED_FIELD r)
          else Ok (parse_add_char ch r)
      end
  | QUOTE_IN_QUOTED_FIELD =>
      match c with
      | None => Ok (set_state START_RECORD (parse_save_field r))
      | Some ch =>
          if Ascii.eqb ch DQ
          then Ok (set_state IN_QUOTED_FIELD (parse_add_char ch r))
          else if Ascii.eqb ch COMMA
          then Ok (set_state START_FIELD (parse_save_field r))
          else if is_nl ch then Ok (set_state EAT_CRNL (parse_save_field r))
          else Ok (set_state IN_FIELD (parse_add_char ch r))
      end
  | EAT_CRNL =>
      match c with
      | None => Ok (set_state START_RECORD r)
      | Some ch => if is_nl ch then Ok r else Raised
      end
  end.

(** the characters of one line, then the end-of-line mark *)
Fixpoint process_line (r : reader) (line : string) : res reader :=
  match line with
  | EmptyString => parse_process_char r None
  | String c line' =>
      match parse_process_char r (Some c) with
      | Ok r' => process_line r' line'
      | Raised => Raised
      end
  end.

Definition is_start_record (st : pstate) : bool :=
  match st with START_RECORD => true | _ => false end.

Definition is_in_quoted (st : pstate) : bool :=
  match st with IN_QUOTED_FIELD => true | _ => false end.

(** The records the reader yields, in order, and whether the iteration
    ends by raising [csv.Error] instead of stopping.  A record is complete
    when a line leaves the reader in [START_RECORD]; at the end of the
    input a record in progress is yielded as it stands. *)
Fixpoint reader_go (r : reader) (lines : list string)
  : list (list string) * bool :=
  match lines with
  | [] =>
      if negb (String.eqb (field r) EmptyString) || is_in_quoted (state r)
      then ([fields (parse_save_field r)], false)
      else ([], false)
  | l :: ls =>
      match process_line r l with
      | Raised => ([], true)
      | Ok r' =>
          if is_start_record (state r')
          then let '(rs, e) := reader_go parse_reset ls in (fields r' :: rs, e)
          else reader_go r' ls
      end
  end.

Definition csv_reader (content : string) : list (list string) * bool :=
  reader_go parse_reset (readlines content).

End Csv.

(** ** Floats and their fixed-point formatting

    A [float] is the rational it denotes; [format_f d x] is the text of
    [f"{x:.df}"]: the value rounded to [d] decimals, ties to even, with the
    sign of the value. *)

Module PyFloat.

Definition round_half_even (q : Q) : Z :=
  let n := Qnum q in
  let d := Zpos (Qden q) in
  let fl := n / d in
  let r2 := 2 * (n mod d) in
  if r2 <? d then fl
  else if d <? r2 then fl + 1
  else if Z.even fl then fl else fl + 1.

Fixpoint zeros (n : nat) : string :=
  match n with
  | O => EmptyString
  | S n' => String "0" (zeros n')
  end.

Definition pad_left (d : nat) (s : string) : string :=
  zeros (d - String.length s) +:+ s.

Definition format_f (d : nat) (x : Q) : string :=
  let p := 10 ^ Z.of_nat d in
  let scaled := round_half_even (Qabs x * inject_Z p) in
  (if Qnum x <? 0 then "-" else EmptyString)
  +:+ pretty (scaled / p) +:+ "." +:+ pad_left d (pretty (scaled mod p)).

End PyFloat.

(** ** JSON values, as [json.loads] and [response.json()] return them *)

Inductive json : Type :=
| JNull
| JBool (b : bool)
| JNum (q : Q)
| JStr (s : string)
| JArr (l : list json)
| JObj (kv : list (string * json)).   (* a dict: one binding per key *)

Module PyVal.

(** [bool(v)] *)
Definition truthy (v : json) : bool :=
  match v with
  | JNull => false
  | JBool b => b
  | JNum q => negb (Qnum q =? 0)
  | JStr s => negb (String.eqb s EmptyString)
  | JArr l => match l with [] => false | _ => true end
  | JObj kv => match kv with [] => false | _ => true end
  end.

(** [d.get(k)]; [None] is Python's [None] for a missing key *)
Fixpoint dict_get (k : string) (kv : list (string * json)) : option json :=
  match kv with
  | [] => None
  | (k', v) :: kv' => if String.eqb k k' then Some v else dict_get k kv'
  end.

(** [v or d] *)
Definition or_else (v d : json) : json := if truthy v then v else d.

End PyVal.

(** Library functions the embedding does not define: they are parameters
    of the development. *)
Record pylib : Type := {
  json_loads : string -> option json;     (* [json.loads]; [None]: it raises *)
  float_of_str : string -> option Q;      (* [float(s)] on a [str] *)
  int_of_str : string -> option Z          (* [int(s)] on a [str] *)
}.

Module PyConv.

(** [float(v)] *)
Definition py_float (L : pylib) (v : json) : res Q :=
  match v with
  | JNum q => Ok q
  | JBool b => Ok (if b then 1%Q else 0%Q)
  | JStr s =>
      match float_of_str L s with
      | Some q => Ok q
      | None => Raised
      end
  | JNull | JArr _ | JObj _ => Raised
  end.

End PyConv.

(** ** The file system

    A path names a regular file, with its content and modification time,
    or something else that exists (a directory, say), of which only the
    size [stat] reports is kept.  The map holds the paths that the
    plugin names; the directories above them are taken to exist.  A
    system call fails when its [raises] argument says so, or when the
    nodes it finds make it fail; a failed call changes nothing. *)

Inductive node : Type :=
| File (content : string) (mtime : Z)
| Other (st_size : Z).

Abbreviation fsys := (gmap string node).

Module Fs.
Import PyStr.

(** [os.path.exists(p)] *)
Definition exists_ (p : string) (fs : fsys) : bool :=
  match fs !! p with Some _ => true | None => false end.

(** [os.path.isfile(p)] *)
Definition isfile (p : string) (fs : fsys) : bool :=
  match fs !! p with Some (File _ _) => true | _ => false end.

(** [os.path.getsize(p)] of an existing node *)
Definition getsize (n : node) : Z :=
  match n with
  | File content _ => Z.of_nat (String.length content)
  | Other sz => sz
  end.

(** [os.path.getmtime(p)]; the key of a path that is no file is not used *)
Definition getmtime (fs : fsys) (p : string) : Z :=
  match fs !! p with Some (File _ t) => t | _ => 0 end.

(** [os.makedirs(p, exist_ok=True)], the directories above [p] being
    there: the directory [p] is created when nothing is at [p] *)
Definition makedirs (raises : bool) (p : string) (fs : fsys) : res fsys :=
  if raises || String.eqb p EmptyString then Raised
  else match fs !! p with
       | Some (File _ _) => Raised
       | Some (Other _) => Ok fs
       | None => Ok (<[p := Other 0]> fs)
       end.

(** [with open(p, 'w') as f: f.write(text)], at time [t] *)
Definition write_text (raises : bool) (p text : string) (t : Z) (fs : fsys)
  : res fsys :=
  if raises then Raised
  else match fs !! p with
       | Some (Other _) => Raised
       | _ => Ok (<[p := File text t]> fs)
       end.

(** [with open(p, 'a') as f: f.write(text)], at time [t] *)
Definition append_text (raises : bool) (p text : string) (t : Z) (fs : fsys)
  : res fsys :=
  if raises then Raised
  else match fs !! p with
       | Some (Other _) => Raised
       | Some (File content _) => Ok (<[p := File (content +:+ text) t]> fs)
       | None => Ok (<[p := File text t]> fs)
       end.

(** [shutil.move(src, dst)]: a rename, which keeps the modification time
    and replaces a file at [dst]; into [dst] when [dst] is a directory *)
Definition move (raises : bool) (src dst : string) (fs : fsys) : res fsys :=
  if raises then Raised
  else match fs !! src with
       | None => Raised
       | Some n =>
           match fs !! dst with
           | Some (Other _) =>
               let real_dst := path_join dst (basename src) in
               if exists_ real_dst fs then Raised
               else Ok (<[real_dst := n]> (delete src fs))
           | _ => Ok (<[dst := n]> (delete src fs))
           end
       end.

(** [os.remove(p)] *)
Definition remove (raises : bool) (p : string) (fs : fsys) : res fsys :=
  if raises then Raised
  else match fs !! p with
       | Some (File _ _) => Ok (delete p fs)
       | _ => Raised
       end.

Fixpoint strip_prefix (p s : string) : option string :=
  match p with
  | EmptyString => Some s
  | String a p' =>
      match s with
      | String b s' => if Ascii.eqb a b then strip_prefix p' s' else None
      | EmptyString => None
      end
  end.

(** the prefix that the entries of directory [d] share *)
Definition dir_prefix (d : string) : string :=
  if endswith "/" d then d else d +:+ "/".

Definition entry_name (d : string) (path : string) : option string :=
  match strip_prefix (dir_prefix d) path with
  | Some name =>
      if String.eqb name EmptyString || contains "/" name then None
      else Some name
  | None => None
  end.

(** [os.listdir(d)]: the names of the entries of [d], in the order the
    system lists them *)
Definition listdir (raises : bool) (d : string) (fs : fsys)
  : res (list string) :=
  if raises || String.eqb d EmptyString then Raised
  else Ok (omap (fun kv => entry_name d kv.1) (map_to_list fs)).

End Fs.

(** ** The plugin: options and state *)

(** [self.options] and [self.uploader_options], as [on_loaded] leaves them *)
Record options : Type := {
  devices_file : string;
  file_size : Z;
  blacklist : list string;
  upload_path : string;          (* uploader_options['path'] *)
  uploaded_path : string;
  remove_on_success : bool;
  wigle_name : string;
  wigle_api_token : string
}.

Definition set_blacklist (b : list string) (o : options) : options :=
  {| devices_file := devices_file o; file_size := file_size o;
     blacklist := b; upload_path := upload_path o;
     uploaded_path := uploaded_path o;
     remove_on_success := remove_on_success o;
     wigle_name := wigle_name o; wigle_api_token := wigle_api_token o |}.

(** [self.data]: address to ['first_seen'] *)
Abbreviation ledger := (gmap string string).

(** ** CSV header *)

Definition pre_header : string :=
  "WigleWifi-1.6,appRelease=1.0,model=RaspberryPi,release=jayofelony,"
  +:+ "device=RaspberryPi,display=display,board=board,"
  +:+ "brand=RaspberryPi,star=Sol,body=3,subBody=0" +:+ String PyStr.LF EmptyString.

Definition header : list string :=
  ["MAC"; "SSID"; "AuthMode"; "FirstSeen"; "Channel"; "Frequency";
   "RSSI"; "CurrentLatitude"; "CurrentLongitude"; "AltitudeMeters";
   "AccuracyMeters"; "RCOIs"; "MfgrId"; "Type"].

Definition header_text : string := pre_header +:+ Csv.writerow header.

(** [write_csv_header]: the error of a failed write is logged, not raised *)
Definition write_csv_header (raises : bool) (t : Z) (o : options) (fs : fsys)
  : fsys :=
  match Fs.write_text raises (devices_file o) header_text t fs with
  | Ok fs' => fs'
  | Raised => fs
  end.

(** ** Bootstrap of the ledger *)

Record load_env : Type := {
  load_open_raises : bool;            (* [open] raises *)
  load_now : string -> string         (* [utcnow()] when the address is stored *)
}.

(** [next(reader, None)] on the records still to come *)
Definition next_record (it : list (list string) * bool)
  : res (option (list string) * (list (list string) * bool)) :=
  match it with
  | (r :: rs, e) => Ok (Some r, (rs, e))
  | ([], false) => Ok (None, it)
  | ([], true) => Raised
  end.

(** the body of [for row in reader] *)
Definition load_row (e : load_env) (row : list string) (data : ledger)
  : ledger :=
  match row with
  | [] => data
  | f0 :: _ =>
      let mac := PyStr.upper (PyStr.strip f0) in
      if String.eqb mac EmptyString || String.eqb mac "MAC" then data
      else match data !! mac with
           | Some _ => data
           | None =>
               let first_seen :=
                 match row !! 3%nat with
                 | Some v => v
                 | None => load_now e mac
                 end in
               <[mac := first_seen]> data
           end
  end.

Definition load_rows (e : load_env) (rows : list (list string)) (data : ledger)
  : ledger :=
  fold_left (fun d row => load_row e row d) rows data.

Definition load_body (e : load_env) (content : string) (data : ledger)
  : res ledger :=
  let first_line := Csv.readline content in
  let it0 := Csv.csv_reader content in
  match (if PyStr.startswith "WigleWifi" first_line
         then match next_record it0 with
              | Ok (_, it) => Ok it
              | Raised => Raised
              end
         else Ok it0) with
  | Raised => Raised
  | Ok it1 =>
      match next_record it1 with
      | Raised => Raised
      | Ok (None, _) => Ok data
      | Ok (Some hd, (rows, err)) =>
          match hd with
          | f0 :: _ =>
              if String.eqb f0 "MAC"
              then if err then Raised else Ok (load_rows e rows data)
              else Ok data
          | [] => Ok data
          end
      end
  end.

(** [_load_existing_devices]: whatever goes wrong, the ledger starts empty *)
Definition _load_existing_devices (e : load_env) (o : options) (fs : fsys)
  (data : ledger) : ledger :=
  match fs !! devices_file o with
  | Some (File content _) =>
      if load_open_raises e then ∅
      else match load_body e content data with
           | Ok d => d
           | Raised => ∅
           end
  | _ => ∅
  end.

(** ** GPSD *)

Record gps_fix : Type := {
  lat : Q;
  lon : Q;
  alt : Q;
  acc : Q
}.

Definition zero_fix : gps_fix := {| lat := 0; lon := 0; alt := 0; acc := 0 |}.

Inductive recv_result : Type :=
| RecvChunk (chunk : string)
| RecvRaises.

(** What gpsd and the clock do during one call: whether opening the
    connection (or sending the watch command) raises, and what the
    successive [recv] calls that start before the deadline return. *)
Record gps_env : Type := {
  connect_raises : bool;
  recvs : list recv_result
}.

(** the complete lines of [buf], and what follows the last LF *)
Fixpoint cut_lines (cur : string) (buf : string) : list string * string :=
  match buf with
  | EmptyString => ([], cur)
  | String c buf' =>
      if Ascii.eqb c PyStr.LF
      then let '(ls, rest) := cut_lines EmptyString buf' in (cur :: ls, rest)
      else cut_lines (cur +:+ String c EmptyString) buf'
  end.

(** one line: [Some kv] when it parses to an object with class TPV *)
Definition tpv_of_line (L : pylib) (line : string)
  : option (list (string * json)) :=
  match json_loads L line with
  | Some (JObj kv) =>
      match PyVal.dict_get "class" kv with
      | Some (JStr c) => if String.eqb c "TPV" then Some kv else None
      | _ => None
      end
  | _ => None
  end.

Fixpoint first_tpv (L : pylib) (lines : list string)
  : option (list (string * json)) :=
  match lines with
  | [] => None
  | l :: ls =>
      match tpv_of_line L l with
      | Some kv => Some kv
      | None => first_tpv L ls
      end
  end.

(** the [while time.time() < end] loop; [Raised] is an exception other
    than [StopIteration] *)
Fixpoint recv_loop (L : pylib) (buf : string) (rs : list recv_result)
  : res (option (list (string * json))) :=
  match rs with
  | [] => Ok None
  | RecvRaises :: _ => Raised
  | RecvChunk chunk :: rs' =>
      if String.eqb chunk EmptyString then Ok None
      else
        let '(lines, rest) := cut_lines EmptyString (buf +:+ chunk) in
        match first_tpv L lines with
        | Some kv => Ok (Some kv)
        | None => recv_loop L rest rs'
        end
  end.

(** the value of [gps_data] after the [try] statement *)
Definition gps_data (L : pylib) (e : gps_env)
  : option (list (string * json)) :=
  if connect_raises e then None
  else match recv_loop L EmptyString (recvs e) with
       | Ok d => d
       | Raised => None
       end.

Definition get_or (k : string) (kv : list (string * json)) (d : json) : json :=
  match PyVal.dict_get k kv with Some v => v | None => d end.

Definition get_gps_coords (L : pylib) (e : gps_env) : res gps_fix :=
  match gps_data L e with
  | Some (b :: kv') =>
      let kv := b :: kv' in
      let f0 := JNum 0 in
      match PyConv.py_float L (PyVal.or_else (get_or "lat" kv f0) f0) with
      | Raised => Raised
      | Ok la =>
      match PyConv.py_float L (PyVal.or_else (get_or "lon" kv f0) f0) with
      | Raised => Raised
      | Ok lo =>
      match PyConv.py_float L
              (get_or "altMSL" kv (PyVal.or_else (get_or "alt" kv f0) f0)) with
      | Raised => Raised
      | Ok al =>
      match PyConv.py_float L
              (get_or "epx" kv (PyVal.or_else (get_or "eps" kv f0) f0)) with
      | Raised => Raised
      | Ok ac => Ok {| lat := la; lon := lo; alt := al; acc := ac |}
      end end end end
  | _ => Ok zero_fix
  end.

(** ** Bluetooth scan *)

(** What the outside world does while one new device is handled: the
    three outputs of [bluetoothctl info] ([Raised] when the command
    fails), and the append of the row. *)
Record dev_env : Type := {
  out_mfgr : res string;
  out_rssi : res string;
  out_type : res string;
  append_raises : bool;
  append_time : Z
}.

(** [line.split(":", 1)[1].strip()] *)
Definition after_colon (line : string) : res string :=
  match PyStr.split_max ":" 1 line with
  | _ :: v :: _ => Ok (PyStr.strip v)
  | _ => Raised
  end.

Fixpoint mfgr_of_lines (lines : list string) : res string :=
  match lines with
  | [] => Ok EmptyString
  | l :: ls =>
      if PyStr.contains "Manufacturer" l then after_colon l
      else mfgr_of_lines ls
  end.

Definition get_device_manufacturer (out : res string) : string :=
  match out with
  | Raised => EmptyString
  | Ok o =>
      match mfgr_of_lines (PyStr.splitlines o) with
      | Ok m => m
      | Raised => EmptyString
      end
  end.

Fixpoint rssi_of_lines (L : pylib) (lines : list string) : res Z :=
  match lines with
  | [] => Ok 0
  | l :: ls =>
      if PyStr.contains "RSSI" l then
        match after_colon l with
        | Raised => Raised
        | Ok v =>
            match int_of_str L v with
            | Some n => Ok n
            | None => Raised
            end
        end
      else rssi_of_lines L ls
  end.

Definition get_device_rssi (L : pylib) (out : res string) : Z :=
  match out with
  | Raised => 0
  | Ok o =>
      match rssi_of_lines L (PyStr.splitlines o) with
      | Ok n => n
      | Raised => 0
      end
  end.

Fixpoint type_of_lines (lines : list string) : res string :=
  match lines with
  | [] => Ok "BT"
  | l :: ls =>
      if PyStr.contains "Type" l then
        match after_colon l with
        | Raised => Raised
        | Ok dtype =>
            if PyStr.contains "LE" dtype then Ok "BLE"
            else type_of_lines ls
        end
      else type_of_lines ls
  end.

Definition get_device_type (out : res string) : string :=
  match out with
  | Raised => "BT"
  | Ok o =>
      match type_of_lines (PyStr.splitlines o) with
      | Ok t => t
      | Raised => "BT"
      end
  end.

(** the row [scan] writes for a new device *)
Definition device_row (L : pylib) (de : dev_env) (gf : gps_fix)
  (mac name first_seen : string) : list string :=
  let mfgr := get_device_manufacturer (out_mfgr de) in
  let rssi := get_device_rssi L (out_rssi de) in
  let devtype := get_device_type (out_type de) in
  [ mac; name; "Misc [" +:+ devtype +:+ "]"; first_seen;
    pretty 0; pretty 0; pretty rssi;
    PyFloat.format_f 9 (lat gf); PyFloat.format_f 9 (lon gf);
    PyFloat.format_f 1 (alt gf); PyFloat.format_f 6 (acc gf);
    EmptyString; mfgr; devtype ].

(** the state the loop of [scan] works on *)
Record scan_state : Type := {
  data : ledger;
  files : fsys;
  rows_written : nat
}.

(** [mac] and [name] of an output line of [bluetoothctl devices];
    [None] when the line is passed over *)
Definition parse_device (line : string) : option (string * string) :=
  if negb (PyStr.contains "Device " line) then None
  else match PyStr.split_max " " 2 (PyStr.strip line) with
       | _ :: p1 :: rest =>
           Some (PyStr.upper p1,
                 match rest with
                 | p2 :: _ => PyStr.strip p2
                 | [] => EmptyString
                 end)
       | _ => None
       end.

(** one turn of the loop of [scan] *)
Definition scan_line (L : pylib) (o : options) (dev : string -> dev_env)
  (gf : gps_fix) (scan_time : string) (st : scan_state) (line : string)
  : scan_state :=
  match parse_device line with
  | None => st
  | Some (mac, name) =>
      if bool_decide (mac ∈ blacklist o) then st
      else match data st !! mac with
      | Some _ => st
      | None =>
          let data' := <[mac := scan_time]> (data st) in
          let row := device_row L (dev mac) gf mac name scan_time in
          match Fs.append_text (append_raises (dev mac)) (devices_file o)
                  (Csv.writerow row) (append_time (dev mac)) (files st) with
          | Ok fs' =>
              {| data := data'; files := fs';
                 rows_written := S (rows_written st) |}
          | Raised =>
              {| data := data'; files := files st;
                 rows_written := rows_written st |}
          end
      end
  end.

(** ** Rollover *)

Record roll_env : Type := {
  roll_makedirs_raises : bool;
  roll_move_raises : bool;
  roll_ts : string;                 (* [datetime.now().strftime(...)] *)
  roll_header_raises : bool;
  roll_header_time : Z
}.

Definition rolled_name (o : options) (ts : string) : string :=
  PyStr.replace ".csv" ("_" +:+ ts +:+ ".csv") (PyStr.basename (devices_file o)).

Definition rolled_path (o : options) (ts : string) : string :=
  PyStr.path_join (upload_path o) (rolled_name o ts).

(** the upload directory is created when it is missing *)
Definition ensure_upload_dir (e : roll_env) (o : options) (fs : fsys)
  : res fsys :=
  if Fs.exists_ (upload_path o) fs then Ok fs
  else Fs.makedirs (roll_makedirs_raises e) (upload_path o) fs.

(** [check_rollover]: an error is logged, what was done before it stays.
    The boolean tells whether the file was moved, that is whether
    "Rolled over" was logged. *)
Definition check_rollover (e : roll_env) (o : options) (d : ledger) (fs : fsys)
  : bool * (ledger * fsys) :=
  match ensure_upload_dir e o fs with
  | Raised => (false, (d, fs))
  | Ok fs1 =>
      match fs1 !! devices_file o with
      | Some n =>
          if file_size o <=? Fs.getsize n then
            match Fs.move (roll_move_raises e) (devices_file o)
                    (rolled_path o (roll_ts e)) fs1 with
            | Raised => (false, (d, fs1))
            | Ok fs2 =>
                (true, (∅, write_csv_header (roll_header_raises e)
                             (roll_header_time e) o fs2))
            end
          else (false, (d, fs1))
      | None => (false, (d, fs1))
      end
  end.

(** ** One scan tick *)

Record scan_env : Type := {
  gps : gps_env;
  scan_time : string;               (* [utcnow()] of the tick *)
  devices_output : string;          (* of [bluetoothctl devices] *)
  dev : string -> dev_env;
  roll : roll_env
}.

Definition scan_lines (L : pylib) (o : options) (e : scan_env) (gf : gps_fix)
  (st : scan_state) (lines : list string) : scan_state :=
  fold_left (scan_line L o (dev e) gf (scan_time e)) lines st.

(** [scan]: whether the file was rolled over, and the ledger and the file
    system after the tick; or the exception of the position fix *)
Definition scan (L : pylib) (o : options) (e : scan_env) (d : ledger) (fs : fsys)
  : res (bool * (ledger * fsys)) :=
  match get_gps_coords L (gps e) with
  | Raised => Raised
  | Ok gf =>
      if String.eqb (devices_output e) EmptyString
      then Ok (check_rollover (roll e) o d fs)
      else
        let st := scan_lines L o e gf
                    {| data := d; files := fs; rows_written := 0 |}
                    (PyStr.splitlines (PyStr.strip (devices_output e))) in
        Ok (check_rollover (roll e) o (data st) (files st))
  end.

(** the call of [scan] in [on_ui_update]: an exception is logged *)
Definition scan_tick (L : pylib) (o : options) (e : scan_env)
  (s : ledger * fsys) : bool * (ledger * fsys) :=
  match scan L o e s.1 s.2 with
  | Ok r => r
  | Raised => (false, s)
  end.

Definition scan_ticks (L : pylib) (o : options) (es : list scan_env)
  (s : ledger * fsys) : ledger * fsys :=
  fold_left (fun s e => (scan_tick L o e s).2) es s.

(** the ticks of one file epoch: [None] as soon as a tick rolls the
    file over *)
Fixpoint epoch_ticks (L : pylib) (o : options) (es : list scan_env)
  (s : ledger * fsys) : option (ledger * fsys) :=
  match es with
  | [] => Some s
  | e :: es' =>
      let '(rolled, s') := scan_tick L o e s in
      if rolled then None else epoch_ticks L o es' s'
  end.

(** ** Start of the plugin *)

Record loaded_env : Type := {
  loaded_makedirs_raises : string -> bool;      (* by directory *)
  loaded_header_raises : bool;
  loaded_header_time : Z;
  loaded_load : load_env
}.

(** [on_loaded]: the blacklist in upper case, the three directories, then
    the header of a new file or the ledger of the file that exists *)
Definition on_loaded (e : loaded_env) (o : options) (fs : fsys)
  : res (options * ledger * fsys) :=
  let o' := set_blacklist (PyStr.upper <$> blacklist o) o in
  let mk p := Fs.makedirs (loaded_makedirs_raises e p) p in
  match mk (PyStr.dirname (devices_file o')) fs with
  | Raised => Raised
  | Ok fs0 =>
  match mk (upload_path o') fs0 with
  | Raised => Raised
  | Ok fs1 =>
  match mk (uploaded_path o') fs1 with
  | Raised => Raised
  | Ok fs2 =>
      if negb (Fs.exists_ (devices_file o') fs2)
      then Ok (o', ∅, write_csv_header (loaded_header_raises e)
                        (loaded_header_time e) o' fs2)
      else Ok (o', _load_existing_devices (loaded_load e) o' fs2 ∅, fs2)
  end end end.

(** ** Uploader *)

(** [files.sort(key=...)]: a stable sort, here by insertion *)
Fixpoint insert_by (key : string -> Z) (x : string) (l : list string)
  : list string :=
  match l with
  | [] => [x]
  | y :: l' => if key x <=? key y then x :: l else y :: insert_by key x l'
  end.

Fixpoint sort_by (key : string -> Z) (l : list string) : list string :=
  match l with
  | [] => []
  | x :: l' => insert_by key x (sort_by key l')
  end.

(** the candidates of a listing: [f.lower().endswith('.csv')] and
    [os.path.isfile(os.path.join(path, f))] *)
Definition csv_candidates (o : options) (fs : fsys) (names : list string)
  : list string :=
  filter (fun p => Fs.isfile p fs = true)
    (PyStr.path_join (upload_path o) <$>
       filter (fun f => PyStr.endswith ".csv" (PyStr.lower f) = true) names).

(** [_list_csv_files] *)
Definition _list_csv_files (listdir_raises : bool) (o : options) (fs : fsys)
  : list string :=
  match Fs.listdir listdir_raises (upload_path o) fs with
  | Raised => []
  | Ok names => sort_by (Fs.getmtime fs) (csv_candidates o fs names)
  end.

Inductive http_result : Type :=
| NetworkError                                        (* [requests.post] raises *)
| Response (status : Z) (body : option json).        (* [None]: [json()] raises *)

Record upload_env : Type := {
  up_open_raises : bool;
  up_post : http_result;
  up_makedirs_raises : bool;
  up_move_raises : bool;
  up_remove_raises : bool
}.

(** the file after a successful response: moved, then removed when
    [remove_on_success]; an error of either is logged *)
Definition dispose (o : options) (e : upload_env) (file_path : string)
  (fs : fsys) : fsys :=
  let uploaded_file_path :=
    PyStr.path_join (uploaded_path o) (PyStr.basename file_path) in
  match Fs.move (up_move_raises e) file_path uploaded_file_path fs with
  | Raised => fs
  | Ok fs2 =>
      if remove_on_success o then
        match Fs.remove (up_remove_raises e) uploaded_file_path fs2 with
        | Raised => fs2
        | Ok fs3 => fs3
        end
      else fs2
  end.

(** [_upload_file]: its boolean result and the file system it leaves *)
Definition _upload_file (o : options) (e : upload_env) (file_path : string)
  (fs : fsys) : bool * fsys :=
  if String.eqb (wigle_name o) EmptyString
     || String.eqb (wigle_api_token o) EmptyString
  then (false, fs)
  else if up_open_raises e || negb (Fs.isfile file_path fs)
  then (false, fs)
  else match up_post e with
  | NetworkError => (false, fs)
  | Response status body =>
      if status =? 200 then
        match body with
        | Some (JObj kv) =>
            match PyVal.dict_get "success" kv with
            | Some v =>
                if PyVal.truthy v then
                  match Fs.makedirs (up_makedirs_raises e) (uploaded_path o) fs with
                  | Raised => (false, fs)
                  | Ok fs1 => (true, dispose o e file_path fs1)
                  end
                else (false, fs)
            | None => (false, fs)
            end
        | _ => (false, fs)
        end
      else (false, fs)
  end.

(** what a drain did: the files it tried, in order, each with the result
    of [_upload_file] *)
Definition upload_step (o : options) (env : string -> upload_env)
  (acc : fsys * list (string * bool)) (f : string)
  : fsys * list (string * bool) :=
  let '(r, fs') := _upload_file o (env f) f acc.1 in
  (fs', acc.2 ++ [(f, r)]).

(** [_upload_all], once the lock is held *)
Definition _upload_all (listdir_raises : bool) (o : options)
  (env : string -> upload_env) (fs : fsys) : fsys * list (string * bool) :=
  fold_left (upload_step o env) (_list_csv_files listdir_raises o fs) (fs, []).

(** ** The drain lock

    Each trigger starts a thread that runs [_upload_all]:
    it tests [self._uploader_lock.locked()], returns when the lock is
    held, and otherwise enters [with self._uploader_lock], which waits
    for the lock.  Threads interleave between these steps. *)

Module Drain.

Inductive pc : Type :=
| AtLockedTest              (* before [if self._uploader_lock.locked()] *)
| AtWith                    (* before [with self._uploader_lock] *)
| InBatch                   (* holds the lock, uploads *)
| Skipped                   (* returned at the test *)
| Completed.                (* left the [with] block *)

Record sys : Type := {
  locked : bool;
  threads : list pc
}.

(** the next step of thread [i]; [None] when it cannot move: it has
    returned, or it waits for the lock *)
Definition step_thread (i : nat) (s : sys) : option sys :=
  match threads s !! i with
  | Some AtLockedTest =>
      Some {| locked := locked s;
              threads := <[i := if locked s then Skipped else AtWith]> (threads s) |}
  | Some AtWith =>
      if locked s then None
      else Some {| locked := true; threads := <[i := InBatch]> (threads s) |}
  | Some InBatch =>
      Some {| locked := false; threads := <[i := Completed]> (threads s) |}
  | _ => None
  end.

(** a schedule names the thread that moves at each step; a thread that
    cannot move leaves the system as it is *)
Definition run_step (s : sys) (i : nat) : sys :=
  match step_thread i s with Some s' => s' | None => s end.

Definition run (sched : list nat) (s : sys) : sys := fold_left run_step sched s.

(** [n] triggers, no drain yet *)
Definition start (n : nat) : sys :=
  {| locked := false; threads := replicate n AtLockedTest |}.

Definition in_batch (p : pc) : bool :=
  match p with InBatch => true | _ => false end.

Definition batches (s : sys) : nat :=
  length (filter (fun p => in_batch p = true) (threads s)).

Definition b2n (b : bool) : nat := if b then 1%nat else 0%nat.

(** the lock is held exactly while one thread uploads *)
Definition lock_inv (s : sys) : Prop := batches s = b2n (locked s).

End Drain.

(** ** The reader, character by character

    The same reader, fed the characters of the file one at a time: the
    end-of-line marks are placed as the lines of the file end.  It is
    used to reason about the text of several writes put end to end; it is
    proved equal to [Csv.csv_reader]. *)

Module CsvStream.
Import PyStr Csv.

Inductive lstate : Type :=
| Fresh          (* at the start of a line *)
| Open           (* inside a line *)
| AfterCR.       (* after a CR that may be followed by LF *)

Record mach : Type := {
  ls : lstate;
  rd : res reader;
  outp : list (list string)
}.

Definition init : mach :=
  {| ls := Fresh; rd := Ok parse_reset; outp := [] |}.

Definition set_ls (l : lstate) (m : mach) : mach :=
  {| ls := l; rd := rd m; outp := outp m |}.

(** one call of [parse_process_char]; a record is complete when the
    end-of-line mark leaves the reader in [START_RECORD] *)
Definition feed_tok (m : mach) (t : option ascii) : mach :=
  match rd m with
  | Raised => m
  | Ok r =>
      match parse_process_char r t with
      | Raised => {| ls := ls m; rd := Raised; outp := outp m |}
      | Ok r' =>
          match t with
          | None =>
              if is_start_record (state r')
              then {| ls := ls m; rd := Ok parse_reset;
                      outp := outp m ++ [fields r'] |}
              else {| ls := ls m; rd := Ok r'; outp := outp m |}
          | Some _ => {| ls := ls m; rd := Ok r'; outp := outp m |}
          end
      end
  end.

Definition close_cr (m : mach) : mach :=
  match ls m with
  | AfterCR => feed_tok m None
  | _ => m
  end.

Definition feed_char (m : mach) (c : ascii) : mach :=
  if Ascii.eqb c LF then set_ls Fresh (feed_tok (feed_tok m (Some LF)) None)
  else if Ascii.eqb c CR then set_ls AfterCR (feed_tok (close_cr m) (Some CR))
  else set_ls Open (feed_tok (close_cr m) (Some c)).

Fixpoint feed (m : mach) (s : string) : mach :=
  match s with
  | EmptyString => m
  | String c s' => feed (feed_char m c) s'
  end.

(** the end of the file: the last line ends, and a record in progress
    is yielded *)
Definition finish (m : mach) : list (list string) * bool :=
  let m' := match ls m with Fresh => m | _ => feed_tok m None end in
  match rd m' with
  | Raised => (outp m', true)
  | Ok r =>
      if negb (String.eqb (field r) EmptyString) || is_in_quoted (state r)
      then (outp m' ++ [fields (parse_save_field r)], false)
      else (outp m', false)
  end.

Definition read (s : string) : list (list string) * bool := finish (feed init s).

(** the characters of a line, without its end-of-line mark *)
Fixpoint process_chars (r : reader) (s : string) : res reader :=
  match s with
  | EmptyString => Ok r
  | String c s' =>
      match parse_process_char r (Some c) with
      | Ok r' => process_chars r' s'
      | Raised => Raised
      end
  end.


Definition prepend (out : list (list string)) (x : list (list string) * bool)
  : list (list string) * bool := (out ++ x.1, x.2).

(** the lines still to be read when the file continues with [s] *)
Definition pending_lines (l : lstate) (cur s : string) : list string :=
  match l with
  | AfterCR =>
      match s with
      | String c s' =>
          if Ascii.eqb c LF
          then (cur +:+ String LF EmptyString) :: readlines_go EmptyString s'
          else cur :: readlines_go EmptyString s
      | EmptyString => [cur]
      end
  | _ => readlines_go cur s
  end.

Definition mk (l : lstate) (r : reader) (out : list (list string)) : mach :=
  {| ls := l; rd := Ok r; outp := out |}.

Definition rdr (st : pstate) (f : string) (fs : list string) : reader :=
  {| state := st; field := f; fields := fs |}.

(** the reader after the text of a field *)
Definition after_field (b : bool) (f : string) (st : pstate) : pstate * string :=
  if has_special f || (b && String.eqb f EmptyString)
  then (QUOTE_IN_QUOTED_FIELD, f)
  else match f with
       | EmptyString => (st, EmptyString)
       | _ => (IN_FIELD, f)
       end.

End CsvStream.

(** the text of rows written one after the other *)
Definition rows_text (rows : list (list string)) : string :=
  fold_right (fun row t => Csv.writerow row +:+ t) EmptyString rows.

(** ** Rows of the active file *)

(** the address of a row, in upper case *)
Definition row_addr (row : list string) : string :=
  match row with
  | [] => EmptyString
  | f0 :: _ => PyStr.upper f0
  end.

(** the address under which [_load_existing_devices] stores a row, if it
    stores it: the first field, stripped and in upper case, when it is
    neither empty nor the name of the first column *)
Definition load_addr (row : list string) : option string :=
  match row with
  | [] => None
  | f0 :: _ =>
      let mac := PyStr.upper (PyStr.strip f0) in
      if String.eqb mac EmptyString || String.eqb mac "MAC" then None
      else Some mac
  end.

(** the ['first_seen'] that [_load_existing_devices] gives a row *)
Definition load_stamp (e : load_env) (mac : string) (row : list string)
  : string :=
  match row !! 3%nat with
  | Some v => v
  | None => load_now e mac
  end.

(** the first row stored under [mac] *)
Fixpoint first_row (mac : string) (rows : list (list string))
  : option (list string) :=
  match rows with
  | [] => None
  | row :: rows' =>
      if bool_decide (load_addr row = Some mac) then Some row
      else first_row mac rows'
  end.

(** the start of the active file: the preamble and the column names, or
    nothing when the file was created by the append of a row *)
Definition head_text (h : bool) : string :=
  if h then header_text else EmptyString.

Definition pre_fields : list string :=
  ["WigleWifi-1.6"; "appRelease=1.0"; "model=RaspberryPi";
   "release=jayofelony"; "device=RaspberryPi"; "display=display";
   "board=board"; "brand=RaspberryPi"; "star=Sol"; "body=3"; "subBody=0"].

Definition head_records (h : bool) : list (list string) :=
  if h then [pre_fields; header] else [].

(** the content of the active file; empty when there is no such file *)
Definition active_content (o : options) (fs : fsys) : string :=
  match fs !! devices_file o with
  | Some (File content _) => content
  | _ => EmptyString
  end.

(** The rows of the active file and the ledger: the file is a header (or
    none) followed by rows as they were written, which the reader yields
    as such; no two rows have the same address in upper case, and the
    ledger holds the address of every row. *)
Definition no_duplicate_rows (o : options) (s : ledger * fsys) : Prop :=
  exists (h : bool) (rows : list (list string)),
    active_content o s.2 = head_text h +:+ rows_text rows
    /\ Csv.csv_reader (active_content o s.2) = (head_records h ++ rows, false)
    /\ NoDup (row_addr <$> rows)
    /\ forall row, row ∈ rows -> is_Some (s.1 !! row_addr row).

(** the rows appended between two states of the file system *)
Definition appended (o : options) (fs fs' : fsys) (rows : list (list string))
  : Prop :=
  active_content o fs' = active_content o fs +:+ rows_text rows.

(** the rows a run of the loop appends: one for each address that is new
    to the ledger, not on the blacklist, and whose append did not raise *)
Definition loop_law (o : options) (st st' : scan_state)
  (new : list (list string)) : Prop :=
  appended o (files st) (files st') new
  /\ NoDup (row_addr <$> new)
  /\ (forall row, row ∈ new ->
        (row_addr row ∉ blacklist o)
        /\ data st !! row_addr row = None
        /\ is_Some (data st' !! row_addr row))
  /\ (forall m v, data st !! m = Some v -> data st' !! m = Some v)
  /\ (forall m, m ∈ blacklist o -> data st' !! m = data st !! m)
  /\ (forall p, p <> devices_file o -> files st' !! p = files st !! p)
  /\ (files st !! devices_file o = None \/
      (exists c t, files st !! devices_file o = Some (File c t)) ->
      files st' !! devices_file o = None \/
      exists c t, files st' !! devices_file o = Some (File c t)).

(** the lines that the loop of [get_gps_coords] examines when none of
    them stops it *)
Fixpoint seen_lines (buf : string) (rs : list recv_result) : list string :=
  match rs with
  | [] => []
  | RecvRaises :: _ => []
  | RecvChunk chunk :: rs' =>
      if String.eqb chunk EmptyString then []
      else let '(lines, rest) := cut_lines EmptyString (buf +:+ chunk) in
           lines ++ seen_lines rest rs'
  end.

(** no message of class TPV comes in time *)
Definition no_tpv (L : pylib) (e : gps_env) : Prop :=
  connect_raises e = true
  \/ forall line, line ∈ seen_lines EmptyString (recvs e) ->
                  tpv_of_line L line = None.

(** ** The uploader *)

(** both credentials are set *)
Definition credentials (o : options) : bool :=
  negb (String.eqb (wigle_name o) EmptyString)
  && negb (String.eqb (wigle_api_token o) EmptyString).

(** the upload succeeded: HTTP 200 with a JSON object whose [success] is
    truthy *)
Definition response_ok (e : upload_env) : bool :=
  match up_post e with
  | Response status (Some (JObj kv)) =>
      (status =? 200)
      && match PyVal.dict_get "success" kv with
         | Some v => PyVal.truthy v
         | None => false
         end
  | _ => false
  end.

(** where an uploaded file goes *)
Definition uploaded_file_path (o : options) (file_path : string) : string :=
  PyStr.path_join (uploaded_path o) (PyStr.basename file_path).

(** [p] is a regular file of the upload directory whose name ends in
    [.csv], whatever the case of its letters *)
Definition pending_csv (o : options) (fs : fsys) (p : string) : Prop :=
  exists name c t,
    fs !! p = Some (File c t)
    /\ Fs.entry_name (upload_path o) p = Some name
    /\ PyStr.endswith ".csv" (PyStr.lower name) = true.

Definition older (fs : fsys) (p q : string) : Prop :=
  Fs.getmtime fs p <= Fs.getmtime fs q.

(** ** Inputs of the examples *)

Module Ex.

(** the options of [__init__], with credentials *)
Definition opts : options :=
  {| devices_file := "/root/handshakes/bluetooth_devices.csv";
     file_size := 15000;
     blacklist := ["AA:BB:CC:DD:EE:FF"; "11:22:33:44:55:66"];
     upload_path := "/root/handshakes/toupload/";
     uploaded_path := "/root/handshakes/uploaded/";
     remove_on_success := true;
     wigle_name := "user";
     wigle_api_token := "token" |}.

(** the same with a threshold of ten bytes *)
Definition small_opts : options :=
  {| devices_file := "/root/handshakes/bluetooth_devices.csv";
     file_size := 10;
     blacklist := ["AA:BB:CC:DD:EE:FF"; "11:22:33:44:55:66"];
     upload_path := "/root/handshakes/toupload/";
     uploaded_path := "/root/handshakes/uploaded/";
     remove_on_success := true;
     wigle_name := "user";
     wigle_api_token := "token" |}.

Definition lib : pylib :=
  {| json_loads := fun _ => None;
     float_of_str := fun _ => None;
     int_of_str := fun _ => None |}.

Definition now : string := "2024-01-01 12:00:00".

Definition loadenv : load_env :=
  {| load_open_raises := false; load_now := fun _ => now |}.

(** a file with the header and [rows] at the active path *)
Definition active (rows : list (list string)) : fsys :=
  {[ devices_file opts := File (header_text +:+ rows_text rows) 0 ]}.

Definition good_row : list string :=
  ["AA:BB:CC:11:22:33"; "phone"; "Misc [BT]"; "2023-12-31 08:00:00"; "0"; "0";
   "-60"; "0.000000000"; "0.000000000"; "0.0"; "0.000000"; EmptyString;
   EmptyString; "BT"].

Definition short_row : list string := ["aa:bb:cc:dd:ee:01"; "phone"].

Definition blacklisted_row : list string :=
  ["AA:BB:CC:DD:EE:FF"; "tv"; "Misc [BT]"; "2023-12-31 08:00:00"].

End Ex.

Module Ex2.
Import Ex.

Definition no_gps : gps_env := {| connect_raises := true; recvs := [] |}.

Definition devenv : dev_env :=
  {| out_mfgr := Raised; out_rssi := Raised; out_type := Raised;
     append_raises := false; append_time := 100 |}.

(** the append of the row raises *)
Definition devenv_failing : dev_env :=
  {| out_mfgr := Raised; out_rssi := Raised; out_type := Raised;
     append_raises := true; append_time := 100 |}.

Definition rollenv : roll_env :=
  {| roll_makedirs_raises := false; roll_move_raises := false;
     roll_ts := "20240101_120000"; roll_header_raises := false;
     roll_header_time := 200 |}.

(** the same device listed twice *)
Definition tick : scan_env :=
  {| gps := no_gps;
     scan_time := now;
     devices_output :=
       "Device aa:bb:cc:11:22:33 Phone" +:+ String PyStr.LF EmptyString
       +:+ "Device AA:BB:CC:11:22:33 Phone";
     dev := fun _ => devenv;
     roll := rollenv |}.

(** a tick in which the append of every row raises *)
Definition tick_failing : scan_env :=
  {| gps := no_gps;
     scan_time := now;
     devices_output := "Device aa:bb:cc:11:22:33 Phone";
     dev := fun _ => devenv_failing;
     roll := rollenv |}.

(** a later tick: the same device, another timestamp for the rollover *)
Definition tick_later : scan_env :=
  {| gps := no_gps;
     scan_time := "2024-01-01 12:01:00";
     devices_output := "Device AA:BB:CC:11:22:33 Phone";
     dev := fun _ => devenv;
     roll := {| roll_makedirs_raises := false; roll_move_raises := false;
                roll_ts := "20240101_120100"; roll_header_raises := false;
                roll_header_time := 300 |} |}.

(** the records of the file at [p] *)
Definition records_at (p : string) (fs : fsys) : list (list string) :=
  match fs !! p with
  | Some (File content _) => (Csv.csv_reader content).1
  | _ => []
  end.

Definition loadedenv : loaded_env :=
  {| loaded_makedirs_raises := fun _ => false;
     loaded_header_raises := false;
     loaded_header_time := 0;
     loaded_load := loadenv |}.

(** the state after [on_loaded] found no active file *)
Definition fresh : ledger * fsys := (∅, active []).

Definition start_state : scan_state :=
  {| data := ∅; files := active []; rows_written := 0 |}.

Definition device_line : string := "Device aa:bb:cc:11:22:33 Phone".

End Ex2.

Module Ex3.

(** a library whose [json.loads] knows two lines *)
Definition tpv_line : string := "TPV".
Definition sky_line : string := "SKY".

Definition lib : pylib :=
  {| json_loads := fun s =>
       if String.eqb s tpv_line
       then Some (JObj [("class", JStr "TPV"); ("lat", JNum (5 # 2));
                        ("lon", JNum (-(1 # 4))); ("alt", JNum 100)])
       else if String.eqb s sky_line
       then Some (JObj [("class", JStr "SKY")])
       else None;
     float_of_str := fun _ => None;
     int_of_str := fun _ => None |}.

Definition nl : string := String PyStr.LF EmptyString.

(** gpsd sends a SKY message, garbage, and then nothing until the
    [recv] times out *)
Definition timeout_env : gps_env :=
  {| connect_raises := false;
     recvs := [RecvChunk (sky_line +:+ nl +:+ "{garb");
               RecvChunk ("age" +:+ nl); RecvRaises] |}.

(** gpsd sends a TPV message in two pieces *)
Definition fix_env : gps_env :=
  {| connect_raises := false;
     recvs := [RecvChunk (sky_line +:+ nl +:+ "TP");
               RecvChunk ("V" +:+ nl)] |}.

(** a TPV message whose altitude is [null] *)
Definition null_alt_lib : pylib :=
  {| json_loads := fun _ =>
       Some (JObj [("class", JStr "TPV"); ("altMSL", JNull)]);
     float_of_str := fun _ => None;
     int_of_str := fun _ => None |}.

End Ex3.

Module Ex4.
Import Ex.

Definition pending_a : string := "/root/handshakes/toupload/a_20240101_120000.csv".
Definition pending_b : string := "/root/handshakes/toupload/b_20240102_120000.CSV".
Definition done_a : string := "/root/handshakes/uploaded/a_20240101_120000.csv".

(** two rolled files, the second one older, a directory and a text file *)
Definition pending_fs : fsys :=
  <[ pending_a := File "a" 20 ]>
    (<[ pending_b := File "b" 10 ]>
       (<[ "/root/handshakes/toupload/sub.csv" := Other 4096 ]>
          (<[ "/root/handshakes/toupload/notes.txt" := File "n" 5 ]> ∅))).

Definition accepted : http_result :=
  Response 200 (Some (JObj [("success", JBool true)])).

Definition ok_env : upload_env :=
  {| up_open_raises := false; up_post := accepted;
     up_makedirs_raises := false; up_move_raises := false;
     up_remove_raises := false |}.

(** the server answers 500 *)
Definition http500_env : upload_env :=
  {| up_open_raises := false; up_post := Response 500 None;
     up_makedirs_raises := false; up_move_raises := false;
     up_remove_raises := false |}.

(** the upload succeeds and the move raises *)
Definition move_fails_env : upload_env :=
  {| up_open_raises := false; up_post := accepted;
     up_makedirs_raises := false; up_move_raises := true;
     up_remove_raises := false |}.

(** the upload succeeds, the file is moved and its removal raises *)
Definition remove_fails_env : upload_env :=
  {| up_open_raises := false; up_post := accepted;
     up_makedirs_raises := false; up_move_raises := false;
     up_remove_raises := true |}.

End Ex4.

(** ** The periodic callback

    [on_ui_update] is called by the host at each refresh of the display.
    It reads the clock once, runs a scan when the scan timer has elapsed,
    and then looks for pending files when the upload timer has elapsed.
    Of the display only the element ['BT-Sniffer'] is kept; the thread
    that a check starts runs [_upload_all] on its own (module [Drain]). *)

(** the two timers, as [int(self.options.get(...))] gives them *)
Record ui_options : Type := {
  timer : Z;
  upload_check_interval : Z
}.

(** what [requests.get('https://api.wigle.net', timeout=5)] does *)
Inductive get_result : Type :=
| GetRaises
| GetStatus (status : Z).

(** [_check_internet] *)
Definition _check_internet (r : get_result) : bool :=
  match r with
  | GetStatus status => status =? 200
  | GetRaises => false
  end.

(** [bt_sniff_info]: [str(len(self.data))] *)
Definition bt_sniff_info (d : ledger) : string := pretty (size d).

(** the fields of [self] that [on_ui_update] reads and writes, and the
    file system *)
Record plugin : Type := {
  p_data : ledger;
  p_files : fsys;
  last_scan_time : Q;
  _last_upload_check : Q
}.

(** the plugin as [__init__] and [on_loaded] leave it *)
Definition loaded_plugin (d : ledger) (fs : fsys) : plugin :=
  {| p_data := d; p_files := fs; last_scan_time := 0; _last_upload_check := 0 |}.

(** what the outside world does during one call *)
Record ui_env : Type := {
  ui_now : Q;                       (* [time.time()] *)
  ui_scan : scan_env;
  ui_listdir_raises : bool;
  ui_get : get_result
}.

(** what one call does besides changing the plugin: the text it gives
    to ['BT-Sniffer'] when it scans, and whether it starts an upload
    thread *)
Record ui_effects : Type := {
  bt_shown : option string;
  upload_started : bool
}.

(** [now - last >= interval] *)
Definition elapsed (interval : Z) (now last : Q) : bool :=
  Qle_bool (inject_Z interval) (now - last).

Definition on_ui_update (L : pylib) (o : options) (uo : ui_options)
  (e : ui_env) (s : plugin) : plugin * ui_effects :=
  let scan_due := elapsed (timer uo) (ui_now e) (last_scan_time s) in
  let s1 :=
    if scan_due then
      let r := scan_tick L o (ui_scan e) (p_data s, p_files s) in
      {| p_data := r.2.1; p_files := r.2.2;
         last_scan_time := ui_now e;
         _last_upload_check := _last_upload_check s |}
    else s in
  let shown := if scan_due then Some (bt_sniff_info (p_data s)) else None in
  if elapsed (upload_check_interval uo) (ui_now e) (_last_upload_check s) then
    let pending_files := _list_csv_files (ui_listdir_raises e) o (p_files s1) in
    ({| p_data := p_data s1; p_files := p_files s1;
        last_scan_time := last_scan_time s1;
        _last_upload_check := ui_now e |},
     {| bt_shown := shown;
        upload_started :=
          match pending_files with
          | [] => false
          | _ :: _ => _check_internet (ui_get e)
          end |})
  else (s1, {| bt_shown := shown; upload_started := false |}).

(** successive calls, with what each of them did *)
Fixpoint ui_run (L : pylib) (o : options) (uo : ui_options)
  (es : list ui_env) (s : plugin) : plugin * list ui_effects :=
  match es with
  | [] => (s, [])
  | e :: es' =>
      let '(s1, out) := on_ui_update L o uo e s in
      let '(s2, outs) := ui_run L o uo es' s1 in
      (s2, out :: outs)
  end.

(** ** Further notions used by the properties below *)

(** a row under whose own address the bootstrap stores it: the first
    field has no white space around it and is not the column name *)
Definition stored_as_written (row : list string) : Prop :=
  load_addr row = Some (row_addr row).

(** the results of successive ticks: for each, whether it rolled the
    file over, and the ledger and the files it left *)
Fixpoint tick_results (L : pylib) (o : options) (es : list scan_env)
  (s : ledger * fsys) : list (bool * (ledger * fsys)) :=
  match es with
  | [] => []
  | e :: es' =>
      let r := scan_tick L o e s in
      r :: tick_results L o es' r.2
  end.

(** a tick in which the position fix does not raise, no call of the
    rollover raises, and the rolled path is neither the active path nor
    the upload directory *)
Definition plain_tick (L : pylib) (o : options) (se : scan_env) : Prop :=
  get_gps_coords L (gps se) <> Raised
  /\ roll_makedirs_raises (roll se) = false
  /\ roll_move_raises (roll se) = false
  /\ roll_header_raises (roll se) = false
  /\ rolled_path o (roll_ts (roll se)) <> devices_file o
  /\ rolled_path o (roll_ts (roll se)) <> upload_path o.

(** no character of [s] is white space *)
Fixpoint no_space (s : string) : bool :=
  match s with
  | EmptyString => true
  | String c s' => negb (PyStr.isspace c) && no_space s'
  end.

(** every character of [s] is an ASCII character: its code is below 128 *)
Fixpoint is_ascii (s : string) : bool :=
  match s with
  | EmptyString => true
  | String c s' => (nat_of_ascii c <? 128)%nat && is_ascii s'
  end.

(** a line of [bluetoothctl devices] for address [mac] and name [name] *)
Definition device_line_of (mac name : string) : string :=
  "Device " +:+ mac +:+ " " +:+ name.

(** [s] holds no line feed *)
Fixpoint no_lf (s : string) : bool :=
  match s with
  | EmptyString => true
  | String c s' => negb (Ascii.eqb c PyStr.LF) && no_lf s'
  end.

(** the text that the successive [recv] calls return, put end to end *)
Definition received (chunks : list string) : string :=
  fold_right String.append EmptyString chunks.

(** every upload of a drain is accepted, and no system call raises *)
Definition all_accepted (env : string -> upload_env) : Prop :=
  forall f,
    response_ok (env f) = true
    /\ up_open_raises (env f) = false
    /\ up_makedirs_raises (env f) = false
    /\ up_move_raises (env f) = false
    /\ up_remove_raises (env f) = false.

(** the files of [fs'] are files of [fs], and its directories are those
    of [fs] and the holding area *)
Definition shrunk (o : options) (fs fs' : fsys) : Prop :=
  (forall q c t, fs' !! q = Some (File c t) -> fs !! q = Some (File c t))
  /\ (forall q sz, fs' !! q = Some (Other sz) ->
        q = uploaded_path o \/ fs !! q = Some (Other sz)).

(** the paths that the upload of [p] may change once the holding
    directory exists: the file, its place in the holding directory, and
    its place inside that place when a directory is there *)
Definition upload_footprint (o : options) (p : string) : list string :=
  [ p; uploaded_file_path o p;
    PyStr.path_join (uploaded_file_path o p) (PyStr.basename p) ].

Module DrainFacts.
Import Drain.

(** a thread that has not returned yet *)
Definition running (p : pc) : bool :=
  match p with
  | AtLockedTest | AtWith | InBatch => true
  | Skipped | Completed => false
  end.

(** the states that the schedules reach from [n] triggers *)
Definition reachable (n : nat) (s : sys) : Prop :=
  exists sched, s = run sched (start n).

End DrainFacts.

(** ** Further inputs of the examples *)

Module Ex5.
Import Ex.

(** the timers of [__init__] *)
Definition uiopts : ui_options :=
  {| timer := 45; upload_check_interval := 300 |}.

(** a call at [t] seconds, with the listing of [Ex2.tick] *)
Definition call_at (t : Z) : ui_env :=
  {| ui_now := inject_Z t;
     ui_scan := Ex2.tick;
     ui_listdir_raises := false;
     ui_get := GetStatus 200 |}.

(** the plugin after [on_loaded] found no active file *)
Definition started : plugin := loaded_plugin ∅ (active []).

(** a tick in which gpsd sends a report whose altitude is [null] *)
Definition null_alt_tick : scan_env :=
  {| gps := {| connect_raises := false;
               recvs := [RecvChunk ("x" +:+ Ex3.nl)] |};
     scan_time := now;
     devices_output := "Device aa:bb:cc:11:22:33 Phone";
     dev := fun _ => Ex2.devenv;
     roll := Ex2.rollenv |}.

Definition null_alt_call : ui_env :=
  {| ui_now := inject_Z 1000;
     ui_scan := null_alt_tick;
     ui_listdir_raises := false;
     ui_get := GetStatus 200 |}.

(** an active file with rows and no header *)
Definition headerless (rows : list (list string)) : fsys :=
  {[ devices_file opts := File (rows_text rows) 0 ]}.

(** an active file that starts with the column names *)
Definition no_preamble (rows : list (list string)) : fsys :=
  {[ devices_file opts := File (Csv.writerow header +:+ rows_text rows) 0 ]}.

(** the active file is named without a directory *)
Definition bare_opts : options :=
  {| devices_file := "bluetooth_devices.csv";
     file_size := 15000;
     blacklist := [];
     upload_path := "/root/handshakes/toupload/";
     uploaded_path := "/root/handshakes/uploaded/";
     remove_on_success := true;
     wigle_name := "user";
     wigle_api_token := "token" |}.

(** the active file is named without [.csv] *)
Definition log_opts : options :=
  {| devices_file := "/root/handshakes/bluetooth_devices.log";
     file_size := 10;
     blacklist := [];
     upload_path := "/root/handshakes/toupload/";
     uploaded_path := "/root/handshakes/uploaded/";
     remove_on_success := true;
     wigle_name := "user";
     wigle_api_token := "token" |}.

(** a file rolled earlier and an active file, both named without [.csv] *)
Definition log_fs : fsys :=
  <[ "/root/handshakes/toupload/bluetooth_devices.log" := File "earlier" 5 ]>
    (<[ "/root/handshakes/toupload/" := Other 4096 ]>
       {[ devices_file log_opts := File header_text 7 ]}).

(** no credentials *)
Definition no_cred_opts : options :=
  {| devices_file := "/root/handshakes/bluetooth_devices.csv";
     file_size := 15000;
     blacklist := [];
     upload_path := "/root/handshakes/toupload/";
     uploaded_path := "/root/handshakes/uploaded/";
     remove_on_success := true;
     wigle_name := EmptyString;
     wigle_api_token := "token" |}.

(** the output of [bluetoothctl info] for a device *)
Definition info_output : string :=
  "Device AA:BB:CC:11:22:33 (public)" +:+ Ex3.nl
  +:+ "Name: Tag" +:+ Ex3.nl
  +:+ "Manufacturer: Acme" +:+ Ex3.nl
  +:+ "RSSI: -60".

(** the text of [Ex3.fix_env] in one piece *)
Definition whole_env : gps_env :=
  {| connect_raises := false;
     recvs := [RecvChunk (Ex3.sky_line +:+ Ex3.nl +:+ "TPV" +:+ Ex3.nl)] |}.

(** the blacklist as it is configured, in lower case *)
Definition bl_opts : options :=
  {| devices_file := "/root/handshakes/bluetooth_devices.csv";
     file_size := 15000;
     blacklist := ["aa:bb:cc:dd:ee:ff"];
     upload_path := "/root/handshakes/toupload/";
     uploaded_path := "/root/handshakes/uploaded/";
     remove_on_success := true;
     wigle_name := "user";
     wigle_api_token := "token" |}.

Definition spy_line : string := "Device aa:bb:cc:dd:ee:ff Spy".

(** a listing in which the blacklisted device comes first, in either
    case of the letters, then another device, then the blacklisted one
    again *)
Definition bl_tick : scan_env :=
  {| gps := Ex2.no_gps;
     scan_time := now;
     devices_output :=
       "Device AA:BB:CC:DD:EE:FF Spy" +:+ Ex3.nl
       +:+ Ex2.device_line +:+ Ex3.nl
       +:+ spy_line;
     dev := fun _ => Ex2.devenv;
     roll := Ex2.rollenv |}.

(** the upload is accepted and [os.makedirs] of the holding directory
    raises *)
Definition makedirs_fails_env : upload_env :=
  {| up_open_raises := false; up_post := Ex4.accepted;
     up_makedirs_raises := true; up_move_raises := false;
     up_remove_raises := false |}.

(** a tick in which gpsd sends no TPV message before the [recv] times
    out *)
Definition tick_no_fix : scan_env :=
  {| gps := Ex3.timeout_env;
     scan_time := now;
     devices_output := Ex2.device_line;
     dev := fun _ => Ex2.devenv;
     roll := Ex2.rollenv |}.

(** the pending files of [Ex4], with the holding directory *)
Definition holding_fs : fsys :=
  <[ uploaded_path opts := Other 4096 ]> Ex4.pending_fs.

End Ex5.
Example upper_mac : PyStr.upper "aa:bb:cc:11:22:3f" = "AA:BB:CC:11:22:3F".
Proof. reflexivity. Qed.

Example strip_ex : PyStr.strip "  a b  " = "a b".
Proof. reflexivity. Qed.

Example split_device :
  PyStr.split_max " " 2 "Device AA:BB:CC:11:22:33 My Phone x"
  = ["Device"; "AA:BB:CC:11:22:33"; "My Phone x"].
Proof. reflexivity. Qed.

Example split_double_space :
  PyStr.split_max " " 2 "Device  AA" = ["Device"; EmptyString; "AA"].
Proof. reflexivity. Qed.

Example replace_csv :
  PyStr.replace ".csv" "_T.csv" "bluetooth_devices.csv" = "bluetooth_devices_T.csv".
Proof. reflexivity. Qed.

Example basename_ex :
  PyStr.basename "/root/handshakes/bluetooth_devices.csv" = "bluetooth_devices.csv".
Proof. reflexivity. Qed.

Example join_ex :
  PyStr.path_join "/root/handshakes/toupload/" "a.csv" = "/root/handshakes/toupload/a.csv".
Proof. reflexivity. Qed.

(** * The reader fed by characters is the reader fed by lines *)

Section CsvStreamFacts.
Import PyStr Csv CsvStream.


Lemma string_app_assoc (a b c : string) : (a +:+ b) +:+ c = a +:+ (b +:+ c).
Proof. induction a as [|x a IH]; simpl; [reflexivity | f_equal; exact IH]. Qed.

Lemma string_app_nil_r (a : string) : a +:+ EmptyString = a.
Proof. induction a as [|x a IH]; simpl; [reflexivity | f_equal; exact IH]. Qed.

Lemma process_chars_app (r : reader) (a b : string) :
  process_chars r (a +:+ b) =
  match process_chars r a with
  | Ok r' => process_chars r' b
  | Raised => Raised
  end.
Proof.
  revert r. induction a as [|x a IH]; intros r; simpl; [reflexivity|].
  destruct (parse_process_char r (Some x)); [apply IH | reflexivity].
Qed.

Lemma process_line_chars (r : reader) (l : string) :
  process_line r l =
  match process_chars r l with
  | Ok r' => parse_process_char r' None
  | Raised => Raised
  end.
Proof.
  revert r. induction l as [|x l IH]; intros r; simpl; [reflexivity|].
  destruct (parse_process_char r (Some x)); [apply IH | reflexivity].
Qed.

Lemma feed_raised (m : mach) (s : string) :
  rd m = Raised -> finish (feed m s) = (outp m, true).
Proof.
  revert m. induction s as [|c s IH]; intros m Hm; simpl.
  - unfold finish, feed_tok. destruct (ls m); rewrite ?Hm; simpl; now rewrite ?Hm.
  - assert (Hstep : rd (feed_char m c) = Raised /\ outp (feed_char m c) = outp m).
    { unfold feed_char, close_cr, feed_tok, set_ls.
      destruct (Ascii.eqb c LF); [|destruct (Ascii.eqb c CR)];
        destruct (ls m); simpl; rewrite ?Hm; simpl; rewrite ?Hm; auto. }
    destruct Hstep as [H1 H2]. rewrite (IH _ H1). now rewrite H2.
Qed.

Lemma rd_feed_some (m : mach) (r0 : reader) (cur : string) (c : ascii) :
  rd m = process_chars r0 cur ->
  rd (feed_tok m (Some c)) = process_chars r0 (cur +:+ String c EmptyString)
  /\ outp (feed_tok m (Some c)) = outp m
  /\ ls (feed_tok m (Some c)) = ls m.
Proof.
  intros Hm. rewrite process_chars_app. unfold feed_tok. rewrite Hm.
  destruct (process_chars r0 cur) as [r|]; simpl; [|now rewrite Hm].
  destruct (parse_process_char r (Some c)); simpl; auto.
Qed.

(** the end-of-line mark after the characters of [cur] completes the line *)
Lemma line_done (m : mach) (r0 : reader) (cur : string) (rest : list string) :
  rd m = process_chars r0 cur ->
  prepend (outp m) (reader_go r0 (cur :: rest)) =
  match rd (feed_tok m None) with
  | Raised => (outp (feed_tok m None), true)
  | Ok r1 => prepend (outp (feed_tok m None)) (reader_go r1 rest)
  end.
Proof.
  intros Hm. simpl. rewrite process_line_chars. unfold feed_tok. rewrite Hm.
  destruct (process_chars r0 cur) as [r|]; simpl.
  - destruct (parse_process_char r None) as [r'|]; simpl.
    + destruct (is_start_record (state r')); simpl.
      * destruct (reader_go parse_reset rest) as [rs e]. unfold prepend; simpl.
        now rewrite <- app_assoc.
      * reflexivity.
    + unfold prepend; simpl. now rewrite app_nil_r.
  - rewrite Hm. unfold prepend; simpl. now rewrite app_nil_r.
Qed.

Lemma feed_lines (s : string) :
  forall (m : mach) (r0 : reader) (cur : string),
    rd m = process_chars r0 cur ->
    (ls m = Fresh -> cur = EmptyString) ->
    (ls m = Open -> cur <> EmptyString) ->
    finish (feed m s) =
    prepend (outp m) (reader_go r0 (pending_lines (ls m) cur s)).
Proof.
  induction s as [|c s IH]; intros m r0 cur Hm HF HO.
  - (* end of the file *)
    simpl feed. unfold finish.
    destruct (ls m) eqn:El; unfold pending_lines.
    + rewrite (HF eq_refl) in *. simpl in Hm. rewrite Hm. simpl.
      destruct (negb (field r0 =? EmptyString)%string || is_in_quoted (state r0));
        unfold prepend; simpl; [reflexivity | now rewrite app_nil_r].
    + assert (Hcur : readlines_go cur EmptyString = [cur]).
      { simpl. destruct cur; [now contradiction HO | reflexivity]. }
      rewrite Hcur, (line_done m r0 cur [] Hm).
      destruct (rd (feed_tok m None)) as [r1|]; [|reflexivity].
      simpl. destruct (negb (field r1 =? EmptyString)%string || is_in_quoted (state r1));
        unfold prepend; simpl; [reflexivity | now rewrite app_nil_r].
    + rewrite (line_done m r0 cur [] Hm).
      destruct (rd (feed_tok m None)) as [r1|]; [|reflexivity].
      simpl. destruct (negb (field r1 =? EmptyString)%string || is_in_quoted (state r1));
        unfold prepend; simpl; [reflexivity | now rewrite app_nil_r].
  - simpl feed. unfold feed_char.
    destruct (Ascii.eqb c LF) eqn:Elf.
    + (* LF ends the line *)
      apply Ascii.eqb_eq in Elf. subst c.
      destruct (rd_feed_some m r0 cur LF Hm) as (H1 & H2 & H3).
      set (m1 := feed_tok m (Some LF)) in *.
      assert (Hlines : pending_lines (ls m) cur (String LF s)
                       = (cur +:+ String LF EmptyString) :: readlines_go EmptyString s).
      { destruct (ls m); reflexivity. }
      rewrite Hlines, <- H2, (line_done m1 r0 _ _ H1).
      set (m2 := feed_tok m1 None).
      destruct (rd m2) as [r1|] eqn:E2.
      * rewrite (IH (set_ls Fresh m2) r1 EmptyString); simpl; auto; discriminate.
      * rewrite feed_raised; [reflexivity | exact E2].
    + destruct (Ascii.eqb c CR) eqn:Ecr.
      * (* CR: the line ends here or at the LF that follows *)
        apply Ascii.eqb_eq in Ecr. subst c.
        destruct (ls m) eqn:El.
        -- unfold close_cr. rewrite El.
           destruct (rd_feed_some m r0 cur CR Hm) as (H1 & H2 & H3).
           rewrite (IH (set_ls AfterCR (feed_tok m (Some CR))) r0
                       (cur +:+ String CR EmptyString)); simpl; auto; try discriminate.
           rewrite H2. simpl. destruct s as [|c2 s2]; [reflexivity|].
           destruct (Ascii.eqb c2 LF); [|reflexivity].
           unfold CRLF. now rewrite string_app_assoc.
        -- unfold close_cr. rewrite El.
           destruct (rd_feed_some m r0 cur CR Hm) as (H1 & H2 & H3).
           rewrite (IH (set_ls AfterCR (feed_tok m (Some CR))) r0
                       (cur +:+ String CR EmptyString)); simpl; auto; try discriminate.
           rewrite H2. simpl. destruct s as [|c2 s2]; [reflexivity|].
           destruct (Ascii.eqb c2 LF); [|reflexivity].
           unfold CRLF. now rewrite string_app_assoc.
        -- unfold close_cr. rewrite El. simpl pending_lines.
           rewrite (line_done m r0 cur _ Hm).
           set (m1 := feed_tok m None).
           destruct (rd m1) as [r1|] eqn:E1.
           ++ assert (Hm1 : rd m1 = process_chars r1 EmptyString) by exact E1.
              destruct (rd_feed_some m1 r1 EmptyString CR Hm1) as (H1 & H2 & H3).
              rewrite (IH (set_ls AfterCR (feed_tok m1 (Some CR))) r1
                          (String CR EmptyString)); simpl; auto; try discriminate.
              rewrite H2. simpl. destruct s as [|c2 s2]; [reflexivity|].
              destruct (Ascii.eqb c2 LF); reflexivity.
           ++ rewrite feed_raised.
              ** simpl. unfold feed_tok. now rewrite E1.
              ** simpl. unfold feed_tok. now rewrite E1.
      * (* any other character *)
        destruct (ls m) eqn:El.
        -- unfold close_cr. rewrite El.
           destruct (rd_feed_some m r0 cur c Hm) as (H1 & H2 & H3).
           rewrite (IH (set_ls Open (feed_tok m (Some c))) r0
                       (cur +:+ String c EmptyString)); simpl; auto; try discriminate.
           ++ rewrite H2. simpl. rewrite Elf, Ecr. reflexivity.
           ++ intros _. destruct cur; discriminate.
        -- unfold close_cr. rewrite El.
           destruct (rd_feed_some m r0 cur c Hm) as (H1 & H2 & H3).
           rewrite (IH (set_ls Open (feed_tok m (Some c))) r0
                       (cur +:+ String c EmptyString)); simpl; auto; try discriminate.
           ++ rewrite H2. simpl. rewrite Elf, Ecr. reflexivity.
           ++ intros _. destruct cur; discriminate.
        -- unfold close_cr. rewrite El. simpl pending_lines. rewrite Elf.
           rewrite (line_done m r0 cur _ Hm).
           set (m1 := feed_tok m None).
           destruct (rd m1) as [r1|] eqn:E1.
           ++ assert (Hm1 : rd m1 = process_chars r1 EmptyString) by exact E1.
              destruct (rd_feed_some m1 r1 EmptyString c Hm1) as (H1 & H2 & H3).
              rewrite (IH (set_ls Open (feed_tok m1 (Some c))) r1
                          (String c EmptyString)); simpl; auto; try discriminate.
              rewrite H2. simpl. rewrite ?Elf, Ecr. reflexivity.
           ++ rewrite feed_raised.
              ** simpl. unfold feed_tok. now rewrite E1.
              ** simpl. unfold feed_tok. now rewrite E1.
Qed.

(** the two readers agree on every text *)
Lemma read_csv_reader (s : string) : read s = csv_reader s.
Proof.
  unfold read, csv_reader, readlines.
  rewrite (feed_lines s init parse_reset EmptyString); simpl; auto.
  now destruct (reader_go _ _).
Qed.

End CsvStreamFacts.

(** * What the reader yields on what the writer wrote *)

Section CsvRoundTrip.
Import PyStr Csv CsvStream.



Lemma feed_app (a b : string) (m : mach) : feed m (a +:+ b) = feed (feed m a) b.
Proof. revert m. induction a as [|x a IH]; intros m; simpl; [reflexivity | apply IH]. Qed.

Lemma feed_cons (c : ascii) (s : string) (m : mach) :
  feed m (String c s) = feed (feed_char m c) s.
Proof. reflexivity. Qed.

Lemma special_false (c : ascii) :
  special c = false ->
  Ascii.eqb c COMMA = false /\ Ascii.eqb c DQ = false /\
  Ascii.eqb c CR = false /\ Ascii.eqb c LF = false.
Proof.
  unfold special. intros H.
  destruct (Ascii.eqb c COMMA), (Ascii.eqb c DQ), (Ascii.eqb c CR), (Ascii.eqb c LF);
    try discriminate; auto.
Qed.

Lemma plain_char (c : ascii) (l : lstate) (st : pstate) (f : string)
  (fs : list string) (out : list (list string)) :
  special c = false -> l <> AfterCR ->
  st = IN_FIELD \/ ((st = START_FIELD \/ st = START_RECORD) /\ f = EmptyString) ->
  feed_char (mk l (rdr st f fs) out) c
  = mk Open (rdr IN_FIELD (f +:+ String c EmptyString) fs) out.
Proof.
  intros Hc Hl Hst. destruct (special_false c Hc) as (H1 & H2 & H3 & H4).
  unfold feed_char, close_cr. rewrite H4, H3.
  assert (Hcl : match ls (mk l (rdr st f fs) out) with
                | AfterCR => feed_tok (mk l (rdr st f fs) out) None
                | _ => mk l (rdr st f fs) out
                end = mk l (rdr st f fs) out).
  { simpl. destruct l; [reflexivity | reflexivity | now contradiction Hl]. }
  rewrite Hcl. unfold feed_tok, parse_process_char, at_start_field, is_nl. simpl.
  destruct Hst as [-> | [[-> | ->] ->]]; simpl; rewrite ?H4, ?H3, ?H2, ?H1; reflexivity.
Qed.

Lemma plain_run (s : string) :
  forall (acc : string) (fs : list string) (l : lstate) (out : list (list string)),
    has_special s = false -> l <> AfterCR ->
    feed (mk l (rdr IN_FIELD acc fs) out) s
    = mk (match s with EmptyString => l | _ => Open end)
         (rdr IN_FIELD (acc +:+ s) fs) out.
Proof.
  induction s as [|c s IH]; intros acc fs l out Hs Hl; simpl.
  - now rewrite string_app_nil_r.
  - simpl in Hs. apply orb_false_iff in Hs as [Hc Hs].
    rewrite plain_char by auto.
    rewrite IH by (auto; discriminate).
    rewrite string_app_assoc. simpl. now destruct s.
Qed.

Lemma plain_start (c : ascii) (s : string) (st : pstate) (fs : list string)
  (l : lstate) (out : list (list string)) :
  has_special (String c s) = false -> l <> AfterCR ->
  st = START_FIELD \/ st = START_RECORD ->
  feed (mk l (rdr st EmptyString fs) out) (String c s)
  = mk Open (rdr IN_FIELD (String c s) fs) out.
Proof.
  intros Hs Hl Hst. simpl in Hs. apply orb_false_iff in Hs as [Hc Hs].
  simpl. rewrite plain_char by auto. simpl.
  rewrite plain_run by (auto; discriminate). simpl. now destruct s.
Qed.

(** inside quotes every character is kept, and the end-of-line marks
    are passed over *)
Lemma quoted_char (c : ascii) (acc : string) (fs : list string) (l : lstate)
  (out : list (list string)) :
  Ascii.eqb c DQ = false ->
  exists l', feed_char (mk l (rdr IN_QUOTED_FIELD acc fs) out) c
             = mk l' (rdr IN_QUOTED_FIELD (acc +:+ String c EmptyString) fs) out.
Proof.
  intros Hq. unfold feed_char, close_cr.
  destruct (Ascii.eqb c LF) eqn:Elf.
  - apply Ascii.eqb_eq in Elf. subst c. exists Fresh. reflexivity.
  - destruct (Ascii.eqb c CR) eqn:Ecr.
    + apply Ascii.eqb_eq in Ecr. subst c. exists AfterCR. now destruct l.
    + exists Open.
      destruct l; unfold feed_tok, parse_process_char; simpl; rewrite ?Hq; reflexivity.
Qed.

Lemma quote_open (acc : string) (fs : list string) (l : lstate)
  (out : list (list string)) :
  feed_char (mk l (rdr IN_QUOTED_FIELD acc fs) out) DQ
  = mk Open (rdr QUOTE_IN_QUOTED_FIELD acc fs) out.
Proof. now destruct l. Qed.

Lemma quoted_body (f : string) :
  forall (acc : string) (fs : list string) (l : lstate) (out : list (list string)),
    exists l', feed (mk l (rdr IN_QUOTED_FIELD acc fs) out) (escape f)
               = mk l' (rdr IN_QUOTED_FIELD (acc +:+ f) fs) out.
Proof.
  induction f as [|c f IH]; intros acc fs l out; simpl.
  - exists l. now rewrite string_app_nil_r.
  - destruct (Ascii.eqb c DQ) eqn:Eq.
    + apply Ascii.eqb_eq in Eq. subst c. simpl. rewrite quote_open.
      destruct (IH (acc +:+ String DQ EmptyString) fs Open out) as [l' Hl'].
      exists l'.
      change (feed_char (mk Open (rdr QUOTE_IN_QUOTED_FIELD acc fs) out) DQ)
        with (mk Open (rdr IN_QUOTED_FIELD (acc +:+ String DQ EmptyString) fs) out).
      rewrite Hl', string_app_assoc. reflexivity.
    + simpl.
      destruct (quoted_char c acc fs l out Eq) as [l1 H1]. rewrite H1.
      destruct (IH (acc +:+ String c EmptyString) fs l1 out) as [l' Hl'].
      exists l'. rewrite Hl', string_app_assoc. reflexivity.
Qed.

Lemma quoted_field (f : string) (st : pstate) (fs : list string) (l : lstate)
  (out : list (list string)) :
  l <> AfterCR -> st = START_FIELD \/ st = START_RECORD ->
  feed (mk l (rdr st EmptyString fs) out) (quoted f)
  = mk Open (rdr QUOTE_IN_QUOTED_FIELD f fs) out.
Proof.
  intros Hl Hst. unfold quoted. simpl.
  assert (H0 : feed_char (mk l (rdr st EmptyString fs) out) DQ
               = mk Open (rdr IN_QUOTED_FIELD EmptyString fs) out).
  { destruct Hst as [-> | ->]; destruct l; try reflexivity; now contradiction Hl. }
  rewrite H0, feed_app.
  destruct (quoted_body f EmptyString fs Open out) as [l' Hl'].
  rewrite Hl'. simpl. apply quote_open.
Qed.


Lemma field_text (b : bool) (f : string) (st : pstate) (fs : list string)
  (l : lstate) (out : list (list string)) :
  l <> AfterCR -> st = START_FIELD \/ st = START_RECORD ->
  exists l', l' <> AfterCR /\
    feed (mk l (rdr st EmptyString fs) out) (write_field b f)
    = mk l' (rdr (after_field b f st).1 (after_field b f st).2 fs) out.
Proof.
  intros Hl Hst. unfold write_field, after_field.
  destruct (has_special f || (b && String.eqb f EmptyString)) eqn:E.
  - exists Open. split; [discriminate|]. now apply quoted_field.
  - apply orb_false_iff in E as [Hs _]. destruct f as [|c f].
    + exists l. split; [assumption | reflexivity].
    + exists Open. split; [discriminate|]. now apply plain_start.
Qed.

Lemma comma_after (b : bool) (f : string) (st : pstate) (fs : list string)
  (l : lstate) (out : list (list string)) :
  l <> AfterCR -> st = START_FIELD \/ st = START_RECORD ->
  feed_char (mk l (rdr (after_field b f st).1 (after_field b f st).2 fs) out) COMMA
  = mk Open (rdr START_FIELD EmptyString (fs ++ [f])) out.
Proof.
  intros Hl Hst. unfold after_field.
  destruct (has_special f || (b && String.eqb f EmptyString)); simpl.
  - destruct l; try reflexivity; now contradiction Hl.
  - destruct f as [|c f]; simpl.
    + destruct Hst as [-> | ->]; destruct l; try reflexivity; now contradiction Hl.
    + destruct l; try reflexivity; now contradiction Hl.
Qed.

Lemma crlf_after (b : bool) (f : string) (st : pstate) (fs : list string)
  (l : lstate) (out : list (list string)) :
  l <> AfterCR ->
  st = START_FIELD \/ (st = START_RECORD /\ write_field b f <> EmptyString) ->
  feed (mk l (rdr (after_field b f st).1 (after_field b f st).2 fs) out) CRLF
  = mk Fresh parse_reset (out ++ [fs ++ [f]]).
Proof.
  intros Hl Hst. unfold after_field, write_field in *.
  destruct (has_special f || (b && String.eqb f EmptyString)); simpl.
  - destruct l; try reflexivity; now contradiction Hl.
  - destruct f as [|c f]; simpl.
    + destruct Hst as [-> | [-> Hne]]; [|now contradiction Hne].
      destruct l; try reflexivity; now contradiction Hl.
    + destruct l; try reflexivity; now contradiction Hl.
Qed.

Lemma join_tail (fs' : list string) :
  forall (fs : list string) (l : lstate) (out : list (list string)),
    fs' <> [] -> l <> AfterCR ->
    feed (mk l (rdr START_FIELD EmptyString fs) out) (join_fields fs' +:+ CRLF)
    = mk Fresh parse_reset (out ++ [fs ++ fs']).
Proof.
  induction fs' as [|f fs' IH]; intros fs l out Hne Hl; [now contradiction Hne|].
  destruct fs' as [|g fs'].
  - simpl join_fields. rewrite feed_app.
    destruct (field_text false f START_FIELD fs l out Hl (or_introl eq_refl))
      as (l' & Hl' & ->).
    apply crlf_after; auto.
  - change (join_fields (f :: g :: fs'))
      with (write_field false f +:+ String COMMA (join_fields (g :: fs'))).
    rewrite string_app_assoc, feed_app.
    destruct (field_text false f START_FIELD fs l out Hl (or_introl eq_refl))
      as (l' & Hl' & ->).
    change (String COMMA (join_fields (g :: fs')) +:+ CRLF)
      with (String COMMA (join_fields (g :: fs') +:+ CRLF)).
    rewrite feed_cons, comma_after by auto.
    rewrite IH; [|discriminate|discriminate].
    now rewrite <- app_assoc.
Qed.

(** a row that was written is read back as it was *)
Lemma feed_writerow (row : list string) (out : list (list string)) :
  feed (mk Fresh parse_reset out) (writerow row)
  = mk Fresh parse_reset (out ++ [row]).
Proof.
  destruct row as [|f [|g fs']].
  - reflexivity.
  - unfold writerow. rewrite feed_app.
    destruct (field_text true f START_RECORD [] Fresh out) as (l' & Hl' & E);
      [discriminate | now right |].
    unfold parse_reset. change (rdr START_RECORD EmptyString []) with
      {| state := START_RECORD; field := EmptyString; fields := [] |} in E.
    rewrite E. apply (crlf_after true f START_RECORD [] l' out Hl').
    right. split; [reflexivity|].
    unfold write_field. destruct f; simpl; [discriminate|].
    destruct (special a || has_special f); discriminate.
  - unfold writerow.
    change (join_fields (f :: g :: fs'))
      with (write_field false f +:+ String COMMA (join_fields (g :: fs'))).
    rewrite string_app_assoc, feed_app.
    destruct (field_text false f START_RECORD [] Fresh out) as (l' & Hl' & E);
      [discriminate | now right |].
    unfold parse_reset. change (rdr START_RECORD EmptyString []) with
      {| state := START_RECORD; field := EmptyString; fields := [] |} in E.
    rewrite E.
    change (String COMMA (join_fields (g :: fs')) +:+ CRLF)
      with (String COMMA (join_fields (g :: fs') +:+ CRLF)).
    rewrite feed_cons, comma_after by auto.
    rewrite join_tail; [reflexivity | discriminate | discriminate].
Qed.

Lemma feed_rows_text (rows : list (list string)) :
  forall out, feed (mk Fresh parse_reset out) (rows_text rows)
              = mk Fresh parse_reset (out ++ rows).
Proof.
  induction rows as [|row rows IH]; intros out; simpl.
  - now rewrite app_nil_r.
  - rewrite feed_app, feed_writerow, IH, <- app_assoc. reflexivity.
Qed.

Lemma finish_at_rest (out : list (list string)) :
  finish (mk Fresh parse_reset out) = (out, false).
Proof. reflexivity. Qed.

(** the records of a text that is some rows written one after the other *)
Lemma csv_reader_rows (rows : list (list string)) :
  csv_reader (rows_text rows) = (rows, false).
Proof.
  rewrite <- read_csv_reader. unfold read.
  change init with (mk Fresh parse_reset []).
  now rewrite feed_rows_text, finish_at_rest.
Qed.

End CsvRoundTrip.

(** * Bootstrap of the ledger from the active file *)

Section Bootstrap.
Import PyStr Csv CsvStream.

Lemma feed_header_text :
  feed init header_text = mk Fresh parse_reset [pre_fields; header].
Proof. vm_compute. reflexivity. Qed.

Lemma readline_header_text (x : string) :
  startswith "WigleWifi" (readline (header_text +:+ x)) = true.
Proof. vm_compute. reflexivity. Qed.

(** the records of a file that starts with the header and goes on with
    rows that were written *)
Lemma csv_reader_file (h : bool) (rows : list (list string)) :
  csv_reader (head_text h +:+ rows_text rows) = (head_records h ++ rows, false).
Proof.
  destruct h; simpl head_text; simpl head_records.
  - rewrite <- read_csv_reader. unfold read.
    rewrite feed_app, feed_header_text, feed_rows_text. reflexivity.
  - apply csv_reader_rows.
Qed.

Lemma load_row_addr (e : load_env) (row : list string) (d : ledger) :
  load_row e row d =
  match load_addr row with
  | Some mac =>
      match d !! mac with
      | Some _ => d
      | None => <[mac := load_stamp e mac row]> d
      end
  | None => d
  end.
Proof.
  unfold load_row, load_addr, load_stamp. destruct row as [|f0 row]; [reflexivity|].
  destruct (_ || _); reflexivity.
Qed.

(** the ledger after the rows: the first row of each address decides *)
Lemma load_rows_lookup (e : load_env) (rows : list (list string)) :
  forall (d : ledger) (mac : string),
    load_rows e rows d !! mac =
    match d !! mac with
    | Some v => Some v
    | None => load_stamp e mac <$> first_row mac rows
    end.
Proof.
  unfold load_rows.
  induction rows as [|row rows IH]; intros d mac; simpl.
  - now destruct (d !! mac).
  - rewrite IH, load_row_addr.
    destruct (load_addr row) as [m|] eqn:Ea.
    + destruct (decide (m = mac)) as [->|Hne].
      * rewrite bool_decide_eq_true_2 by reflexivity.
        destruct (d !! mac) eqn:Ed; [now rewrite Ed|].
        now rewrite lookup_insert_eq.
      * rewrite bool_decide_eq_false_2 by congruence.
        destruct (d !! m); [reflexivity|].
        now rewrite lookup_insert_ne.
    + rewrite bool_decide_eq_false_2 by congruence. reflexivity.
Qed.

Lemma first_row_Some (mac : string) (rows : list (list string)) (row : list string) :
  first_row mac rows = Some row -> row ∈ rows /\ load_addr row = Some mac.
Proof.
  induction rows as [|r rows IH]; simpl; [discriminate|].
  case_bool_decide as Hr.
  - intros [= ->]. split; [left | assumption].
  - intros H. destruct (IH H). split; [now right | assumption].
Qed.

Lemma first_row_None (mac : string) (rows : list (list string)) :
  first_row mac rows = None -> forall row, row ∈ rows -> load_addr row <> Some mac.
Proof.
  induction rows as [|r rows IH]; simpl; intros H row Hin.
  - inversion Hin.
  - case_bool_decide as Hr; [discriminate|].
    apply elem_of_cons in Hin as [->|Hin]; [assumption | now apply IH].
Qed.

Lemma first_row_unique (rows : list (list string)) (row : list string) (mac : string) :
  NoDup (load_addr <$> rows) -> row ∈ rows -> load_addr row = Some mac ->
  first_row mac rows = Some row.
Proof.
  induction rows as [|r rows IH]; simpl; intros Hnd Hin Ha.
  - inversion Hin.
  - apply NoDup_cons in Hnd as [Hr Hnd].
    apply elem_of_cons in Hin as [->|Hin].
    + now rewrite bool_decide_eq_true_2.
    + rewrite bool_decide_eq_false_2; [now apply IH|].
      intros Hr'. apply Hr. rewrite Hr', <- Ha.
      apply list_elem_of_fmap. now exists row.
Qed.

Lemma first_row_is_Some (mac : string) (rows : list (list string)) :
  is_Some (first_row mac rows) <-> mac ∈ omap load_addr rows.
Proof.
  rewrite list_elem_of_omap. split.
  - intros [row Hrow]. apply first_row_Some in Hrow as [Hin Ha]. now exists row.
  - intros (row & Hin & Ha). destruct (first_row mac rows) eqn:E; [now eexists|].
    now destruct (first_row_None mac rows E row Hin).
Qed.

Lemma omap_all_Some (rows : list (list string)) :
  Forall (fun row => (3 < length row)%nat /\ is_Some (load_addr row)) rows ->
  Some <$> omap load_addr rows = load_addr <$> rows.
Proof.
  induction 1 as [|row rows [_ [m Hm]] _ IH]; [reflexivity|].
  rewrite fmap_cons, <- IH. simpl. rewrite Hm. reflexivity.
Qed.

(** the bootstrap of a file made of the header and of rows *)
Lemma load_body_file (e : load_env) (rows : list (list string)) (d : ledger) :
  load_body e (header_text +:+ rows_text rows) d = Ok (load_rows e rows d).
Proof.
  unfold load_body.
  rewrite readline_header_text.
  change (header_text +:+ rows_text rows) with (head_text true +:+ rows_text rows).
  rewrite (csv_reader_file true rows). reflexivity.
Qed.

Lemma load_existing_lookup (e : load_env) (o : options) (fs : fsys) (t : Z)
  (rows : list (list string)) (mac : string) :
  fs !! devices_file o = Some (File (header_text +:+ rows_text rows) t) ->
  load_open_raises e = false ->
  _load_existing_devices e o fs ∅ !! mac = load_stamp e mac <$> first_row mac rows.
Proof.
  intros Hfile Hopen. unfold _load_existing_devices.
  rewrite Hfile, Hopen, load_body_file, load_rows_lookup.
  now rewrite lookup_empty.
Qed.

End Bootstrap.

(** * C6, C3: what the bootstrap stores *)

Section BootstrapClaims.

(** C6 (amended).  For an active file made of the preamble line, the
    header line and data rows, the bootstrap stores each address (first
    field stripped and in upper case, neither empty nor [MAC]) with the
    first-seen of the first row that carries it: the fourth field of that
    row, or a fresh timestamp when the row has fewer than four fields;
    such a short row is stored, not skipped.  When the N rows all have an
    address and four fields or more and their addresses are distinct, the
    ledger holds exactly N addresses, each with the first-seen of its
    row.  Empty rows and rows whose address is empty or [MAC] store
    nothing, and nothing is raised. *)
Theorem bootstrap_stores_first_rows :
  forall (e : load_env) (o : options) (fs : fsys) (t : Z)
         (rows : list (list string)),
    fs !! devices_file o = Some (File (header_text +:+ rows_text rows) t) ->
    load_open_raises e = false ->
    let d := _load_existing_devices e o fs ∅ in
    (forall mac, d !! mac = load_stamp e mac <$> first_row mac rows)
    /\ (forall mac row, first_row mac rows = Some row ->
          d !! mac = Some (default (load_now e mac) (row !! 3%nat)))
    /\ (Forall (fun row => (3 < length row)%nat /\ is_Some (load_addr row)) rows ->
        NoDup (load_addr <$> rows) ->
        size d = length rows
        /\ forall row mac, row ∈ rows -> load_addr row = Some mac ->
             d !! mac = row !! 3%nat).
Proof.
  intros e o fs t rows Hfile Hopen d.
  assert (Hd : forall mac, d !! mac = load_stamp e mac <$> first_row mac rows).
  { intros mac. subst d. now apply (load_existing_lookup e o fs t). }
  split; [exact Hd|]. split.
  - intros mac row Hrow. rewrite Hd, Hrow. simpl. unfold load_stamp.
    now destruct (row !! 3%nat).
  - intros Hall Hnd. split.
    + rewrite <- size_dom.
      assert (Hdom : dom d = list_to_set (omap load_addr rows)).
      { apply set_eq. intros mac.
        rewrite elem_of_dom, elem_of_list_to_set, <- first_row_is_Some, Hd.
        destruct (first_row mac rows); simpl; split; intros [x Hx]; try discriminate; eauto. }
      rewrite Hdom, size_list_to_set.
      * rewrite <- (length_fmap Some (omap load_addr rows)).
        rewrite omap_all_Some by assumption. apply length_fmap.
      * rewrite <- omap_all_Some in Hnd by assumption.
        now apply (NoDup_fmap_1 Some).
    + intros row mac Hin Ha.
      rewrite Hd, (first_row_unique rows row mac Hnd Hin Ha). simpl.
      unfold load_stamp.
      rewrite Forall_forall in Hall. destruct (Hall row Hin) as [Hlen _].
      destruct (row !! 3%nat) eqn:E; [reflexivity|].
      apply lookup_ge_None in E. lia.
Qed.

Lemma bootstrap_stores_first_rows_witness :
  let d := _load_existing_devices Ex.loadenv Ex.opts (Ex.active [Ex.good_row]) ∅ in
  size d = 1%nat /\ d !! "AA:BB:CC:11:22:33" = Some "2023-12-31 08:00:00".
Proof.
  intros d.
  destruct (bootstrap_stores_first_rows Ex.loadenv Ex.opts
              (Ex.active [Ex.good_row]) 0 [Ex.good_row]) as (_ & _ & H).
  { unfold Ex.active. apply lookup_singleton_eq. }
  { reflexivity. }
  destruct H as [Hsize Hrow].
  { constructor; [|constructor]. split; [simpl; lia|].
    exists "AA:BB:CC:11:22:33". vm_compute. reflexivity. }
  { apply NoDup_singleton. }
  split; [exact Hsize|].
  apply (Hrow Ex.good_row); [apply list_elem_of_here | vm_compute; reflexivity].
Defined.

(** C6, as stated, fails: a row with an address and two fields is
    malformed, yet it is not skipped; the ledger stores its address with
    a fresh timestamp. *)
Lemma bootstrap_short_row_not_skipped :
  let rows := [Ex.short_row] in
  let d := _load_existing_devices Ex.loadenv Ex.opts (Ex.active rows) ∅ in
  filter (fun row => (3 < length row)%nat) rows = []
  /\ d !! "AA:BB:CC:DD:EE:01" = Some Ex.now.
Proof.
  split; [reflexivity|].
  rewrite (load_existing_lookup Ex.loadenv Ex.opts _ 0 [Ex.short_row]).
  - vm_compute. reflexivity.
  - unfold Ex.active. apply lookup_singleton_eq.
  - reflexivity.
Qed.

End BootstrapClaims.

(** * The loop of [scan] *)

Section ScanFacts.
Import PyStr.

Variable L : pylib.
Variable o : options.

Lemma upper_char_idem (c : ascii) : upper_char (upper_char c) = upper_char c.
Proof.
  destruct c as [[] [] [] [] [] [] [] []]; vm_compute; reflexivity.
Qed.

Lemma upper_idem (s : string) : upper (upper s) = upper s.
Proof.
  unfold upper. induction s as [|c s IH]; simpl; [reflexivity|].
  now rewrite upper_char_idem, IH.
Qed.

Lemma parse_device_upper (line mac name : string) :
  parse_device line = Some (mac, name) -> upper mac = mac.
Proof.
  unfold parse_device. destruct (negb _); [discriminate|].
  destruct (split_max _ _ _) as [|p0 [|p1 rest]]; try discriminate.
  intros [= <- _]. apply upper_idem.
Qed.

Lemma rows_text_app (rows1 rows2 : list (list string)) :
  rows_text (rows1 ++ rows2) = rows_text rows1 +:+ rows_text rows2.
Proof.
  induction rows1 as [|r rows1 IH]; simpl; [reflexivity|].
  now rewrite IH, string_app_assoc.
Qed.

Lemma rows_text_one (row : list string) : rows_text [row] = Csv.writerow row.
Proof. simpl. apply string_app_nil_r. Qed.

Lemma appended_refl (fs : fsys) : appended o fs fs [].
Proof. unfold appended. simpl. now rewrite string_app_nil_r. Qed.

Lemma appended_trans (fs1 fs2 fs3 : fsys) (r1 r2 : list (list string)) :
  appended o fs1 fs2 r1 -> appended o fs2 fs3 r2 -> appended o fs1 fs3 (r1 ++ r2).
Proof.
  unfold appended. intros H1 H2.
  now rewrite H2, H1, rows_text_app, string_app_assoc.
Qed.

Lemma append_text_content (r : bool) (text : string) (t : Z) (fs fs' : fsys) :
  Fs.append_text r (devices_file o) text t fs = Ok fs' ->
  active_content o fs' = active_content o fs +:+ text.
Proof.
  unfold Fs.append_text, active_content. destruct r; [discriminate|].
  destruct (fs !! devices_file o) as [[c t0|sz]|]; try discriminate;
    intros [= <-]; now rewrite lookup_insert_eq.
Qed.

(** what one turn of the loop does *)
Lemma scan_line_cases (dev : string -> dev_env) (gf : gps_fix) (t : string)
  (st : scan_state) (line : string) :
  let st' := scan_line L o dev gf t st line in
  ((st' = st)
   /\ (parse_device line = None
       \/ exists mac name, parse_device line = Some (mac, name)
            /\ (mac ∈ blacklist o \/ is_Some (data st !! mac))))
  \/ exists mac name,
       parse_device line = Some (mac, name)
       /\ (mac ∉ blacklist o)
       /\ data st !! mac = None
       /\ data st' = <[mac := t]> (data st)
       /\ (let wr := Fs.append_text (append_raises (dev mac)) (devices_file o)
                       (Csv.writerow (device_row L (dev mac) gf mac name t))
                       (append_time (dev mac)) (files st) in
           (wr = Ok (files st') /\ rows_written st' = S (rows_written st))
           \/ (wr = Raised /\ files st' = files st
               /\ rows_written st' = rows_written st)).
Proof.
  cbv zeta. unfold scan_line. destruct (parse_device line) as [[mac name]|] eqn:Ep.
  - case_bool_decide as Hbl.
    + left. split; [reflexivity|]. right. exists mac, name. auto.
    + destruct (data st !! mac) as [v|] eqn:Ed.
      * left. split; [reflexivity|]. right. exists mac, name. eauto.
      * right. exists mac, name.
        split; [reflexivity|]. split; [assumption|]. split; [exact Ed|].
        destruct (Fs.append_text _ _ _ _ _) eqn:Ea; simpl.
        -- split; [reflexivity|]. left. auto.
        -- split; [reflexivity|]. right. auto.
  - left. auto.
Qed.


Lemma append_text_other (r : bool) (p text : string) (t : Z) (fs fs' : fsys) (q : string) :
  Fs.append_text r p text t fs = Ok fs' -> q <> p -> fs' !! q = fs !! q.
Proof.
  unfold Fs.append_text. destruct r; [discriminate|].
  destruct (fs !! p) as [[c t0|sz]|]; try discriminate;
    intros [= <-] Hq; now rewrite lookup_insert_ne.
Qed.

Lemma append_text_file (r : bool) (p text : string) (t : Z) (fs fs' : fsys) :
  Fs.append_text r p text t fs = Ok fs' -> exists c t', fs' !! p = Some (File c t').
Proof.
  unfold Fs.append_text. destruct r; [discriminate|].
  destruct (fs !! p) as [[c t0|sz]|]; try discriminate;
    intros [= <-]; rewrite lookup_insert_eq; eauto.
Qed.

Lemma device_row_addr (de : dev_env) (gf : gps_fix) (mac name t : string) :
  row_addr (device_row L de gf mac name t) = upper mac.
Proof. reflexivity. Qed.

Lemma scan_line_law (dev : string -> dev_env) (gf : gps_fix) (t : string)
  (st : scan_state) (line : string) :
  exists new, loop_law o st (scan_line L o dev gf t st line) new.
Proof.
  destruct (scan_line_cases dev gf t st line)
    as [[-> _] | (mac & name & Hp & Hbl & Hd & Hd' & Hw)].
  - exists []. unfold loop_law. split; [apply appended_refl|].
    split; [constructor|].
    split; [intros row Hin; inversion Hin|]. auto.
  - cbv zeta in Hw. set (st' := scan_line L o dev gf t st line) in *.
    assert (Hmono : forall m v, data st !! m = Some v -> data st' !! m = Some v).
    { intros m v Hm. rewrite Hd'. rewrite lookup_insert_ne; [assumption | congruence]. }
    assert (Hblk : forall m, m ∈ blacklist o -> data st' !! m = data st !! m).
    { intros m Hm. rewrite Hd'. apply lookup_insert_ne. congruence. }
    destruct Hw as [[Hw Hn] | (Hw & Hf & Hn)].
    + exists [device_row L (dev mac) gf mac name t].
      unfold loop_law. split.
      { unfold appended. rewrite rows_text_one. eapply append_text_content, Hw. }
      split; [apply NoDup_singleton|].
      split.
      { intros row Hin. apply list_elem_of_singleton in Hin. subst row.
        rewrite device_row_addr, (parse_device_upper _ _ _ Hp).
        repeat split; [assumption | assumption |].
        rewrite Hd', lookup_insert_eq. eauto. }
      split; [exact Hmono|]. split; [exact Hblk|]. split.
      { intros p Hp'. eapply append_text_other; eauto. }
      { intros _. right. eapply append_text_file, Hw. }
    + exists []. unfold loop_law. rewrite Hf.
      split; [apply appended_refl|]. split; [constructor|].
      split; [intros row Hin; inversion Hin|]. auto.
Qed.

Lemma loop_law_trans (st1 st2 st3 : scan_state) (r1 r2 : list (list string)) :
  loop_law o st1 st2 r1 -> loop_law o st2 st3 r2 -> loop_law o st1 st3 (r1 ++ r2).
Proof.
  intros (A1 & N1 & R1 & M1 & B1 & P1 & F1) (A2 & N2 & R2 & M2 & B2 & P2 & F2).
  unfold loop_law. split; [eapply appended_trans; eauto|].
  split.
  { rewrite fmap_app. apply NoDup_app. split; [assumption|]. split; [|assumption].
    intros a Ha1 Ha2.
    apply list_elem_of_fmap in Ha1 as (row1 & -> & Hin1).
    apply list_elem_of_fmap in Ha2 as (row2 & Heq & Hin2).
    destruct (R1 row1 Hin1) as (_ & _ & [v Hv]).
    destruct (R2 row2 Hin2) as (_ & Hnone & _).
    rewrite <- Heq in Hnone. congruence. }
  split.
  { intros row Hin. apply elem_of_app in Hin as [Hin|Hin].
    - destruct (R1 row Hin) as (Hb & Hn & [v Hv]).
      repeat split; auto. exists v. now apply M2.
    - destruct (R2 row Hin) as (Hb & Hn & Hs).
      repeat split; auto.
      destruct (data st1 !! row_addr row) as [v|] eqn:E; [|reflexivity].
      apply M1 in E. congruence. }
  split; [intros m v Hm; apply M2, M1, Hm|].
  split; [intros m Hm; now rewrite B2, B1|].
  split; [intros p Hp; now rewrite P2, P1|].
  intros H. apply F2, F1, H.
Qed.

Lemma scan_lines_law (e : scan_env) (gf : gps_fix) (lines : list string) :
  forall st, exists new, loop_law o st (scan_lines L o e gf st lines) new.
Proof.
  unfold scan_lines. induction lines as [|line lines IH]; intros st; simpl.
  - exists []. unfold loop_law. split; [apply appended_refl|].
    split; [constructor|].
    split; [intros row Hin; inversion Hin|]. auto.
  - destruct (scan_line_law (dev e) gf (scan_time e) st line) as [r1 H1].
    destruct (IH (scan_line L o (dev e) gf (scan_time e) st line)) as [r2 H2].
    exists (r1 ++ r2). eapply loop_law_trans; eauto.
Qed.

End ScanFacts.

(** * Rollover and the ticks *)

Section RolloverFacts.

Variable L : pylib.
Variable o : options.

Lemma makedirs_lookup (r : bool) (p : string) (fs fs1 : fsys) :
  Fs.makedirs r p fs = Ok fs1 ->
  (forall q, q <> p -> fs1 !! q = fs !! q)
  /\ (fs1 = fs \/ (fs !! p = None /\ fs1 = <[p := Other 0]> fs)).
Proof.
  unfold Fs.makedirs. destruct (r || _); [discriminate|].
  destruct (fs !! p) as [[c t|sz]|] eqn:E; try discriminate; intros [= <-].
  - auto.
  - split; [|auto]. intros q Hq. now rewrite lookup_insert_ne.
Qed.

Lemma makedirs_content (r : bool) (p : string) (fs fs1 : fsys) :
  Fs.makedirs r p fs = Ok fs1 -> active_content o fs1 = active_content o fs.
Proof.
  intros H. destruct (makedirs_lookup r p fs fs1 H) as [Hq [-> | [Hn ->]]];
    [reflexivity|].
  unfold active_content. destruct (decide (devices_file o = p)) as [<-|Hne].
  - now rewrite lookup_insert_eq, Hn.
  - now rewrite lookup_insert_ne.
Qed.

Lemma ensure_upload_dir_content (e : roll_env) (fs fs1 : fsys) :
  ensure_upload_dir e o fs = Ok fs1 -> active_content o fs1 = active_content o fs.
Proof.
  unfold ensure_upload_dir. destruct (Fs.exists_ _ _).
  - now intros [= <-].
  - apply makedirs_content.
Qed.

Lemma move_source_gone (r : bool) (src dst : string) (fs fs2 : fsys) :
  Fs.move r src dst fs = Ok fs2 -> dst <> src -> fs2 !! src = None.
Proof.
  unfold Fs.move. destruct r; [discriminate|].
  destruct (fs !! src) as [n|] eqn:Es; [|discriminate].
  destruct (fs !! dst) as [[c t|sz]|] eqn:Ed.
  - intros [= <-] Hne. now rewrite lookup_insert_ne, lookup_delete_eq.
  - destruct (Fs.exists_ _ fs) eqn:Ex; [discriminate|].
    intros [= <-] _. rewrite lookup_insert_ne, lookup_delete_eq; [reflexivity|].
    intros Heq. unfold Fs.exists_ in Ex. rewrite Heq, Es in Ex. discriminate.
  - intros [= <-] Hne. now rewrite lookup_insert_ne, lookup_delete_eq.
Qed.

Lemma write_csv_header_content (r : bool) (t : Z) (fs : fsys) :
  fs !! devices_file o = None ->
  active_content o (write_csv_header r t o fs)
  = if r then EmptyString else header_text.
Proof.
  intros Hn. unfold write_csv_header, Fs.write_text, active_content.
  destruct r; rewrite ?Hn; [reflexivity|]. now rewrite lookup_insert_eq.
Qed.

Lemma check_rollover_kept (e : roll_env) (d d' : ledger) (fs fs' : fsys) :
  check_rollover e o d fs = (false, (d', fs')) ->
  d' = d /\ active_content o fs' = active_content o fs.
Proof.
  unfold check_rollover.
  destruct (ensure_upload_dir e o fs) as [fs1|] eqn:E1.
  - apply ensure_upload_dir_content in E1.
    destruct (fs1 !! devices_file o) as [n|].
    + destruct (file_size o <=? Fs.getsize n).
      * destruct (Fs.move _ _ _ _); [discriminate|]. intros [= <- <-]. auto.
      * intros [= <- <-]. auto.
    + intros [= <- <-]. auto.
  - intros [= <- <-]. auto.
Qed.

Lemma check_rollover_rolled (e : roll_env) (d d' : ledger) (fs fs' : fsys) :
  check_rollover e o d fs = (true, (d', fs')) ->
  rolled_path o (roll_ts e) <> devices_file o ->
  d' = ∅
  /\ active_content o fs'
     = if roll_header_raises e then EmptyString else header_text.
Proof.
  unfold check_rollover.
  destruct (ensure_upload_dir e o fs) as [fs1|]; [|discriminate].
  destruct (fs1 !! devices_file o) as [n|]; [|discriminate].
  destruct (file_size o <=? Fs.getsize n); [|discriminate].
  destruct (Fs.move _ _ _ _) as [fs2|] eqn:Em; [|discriminate].
  intros [= <- <-] Hne. split; [reflexivity|].
  apply write_csv_header_content. eapply move_source_gone; eauto.
Qed.

Lemma inv_after_loop (d : ledger) (fs : fsys) (st' : scan_state)
  (new : list (list string)) :
  no_duplicate_rows o (d, fs) ->
  loop_law o {| data := d; files := fs; rows_written := 0 |} st' new ->
  no_duplicate_rows o (data st', files st').
Proof.
  intros (h & rows & Hc & _ & Hnd & Hin) (A & N & R & M & _). simpl in *.
  exists h, (rows ++ new). simpl.
  assert (Hc' : active_content o (files st') = head_text h +:+ rows_text (rows ++ new)).
  { unfold appended in A. simpl in A.
    now rewrite A, Hc, rows_text_app, string_app_assoc. }
  split; [exact Hc'|]. split; [rewrite Hc'; apply csv_reader_file|].
  split.
  - rewrite fmap_app. apply NoDup_app. split; [assumption|]. split; [|assumption].
    intros a Ha1 Ha2.
    apply list_elem_of_fmap in Ha1 as (row1 & -> & Hin1).
    apply list_elem_of_fmap in Ha2 as (row2 & Heq & Hin2).
    destruct (Hin row1 Hin1) as [v Hv].
    destruct (R row2 Hin2) as (_ & Hnone & _).
    rewrite <- Heq in Hnone. congruence.
  - intros row Hrow. apply elem_of_app in Hrow as [Hrow|Hrow].
    + destruct (Hin row Hrow) as [v Hv]. exists v. now apply M.
    + now destruct (R row Hrow) as (_ & _ & Hs).
Qed.

Lemma inv_after_rollover (e : roll_env) (d : ledger) (fs : fsys) :
  rolled_path o (roll_ts e) <> devices_file o ->
  no_duplicate_rows o (d, fs) ->
  no_duplicate_rows o (check_rollover e o d fs).2.
Proof.
  intros Hsane Hinv.
  destruct (check_rollover e o d fs) as [[] [d' fs']] eqn:E; simpl.
  - destruct (check_rollover_rolled e d d' fs fs' E Hsane) as [-> Hc].
    exists (negb (roll_header_raises e)), []. simpl.
    assert (Hc' : active_content o fs'
                  = head_text (negb (roll_header_raises e)) +:+ EmptyString).
    { rewrite Hc, string_app_nil_r. now destruct (roll_header_raises e). }
    split; [exact Hc'|]. split.
    + rewrite Hc'. apply (csv_reader_file _ []).
    + split; [constructor|]. intros row Hrow. inversion Hrow.
  - destruct (check_rollover_kept e d d' fs fs' E) as [-> Hc].
    destruct Hinv as (h & rows & H1 & H2 & H3 & H4). simpl in *.
    exists h, rows. simpl. rewrite Hc. auto.
Qed.

Lemma scan_tick_inv (e : scan_env) (s : ledger * fsys) :
  rolled_path o (roll_ts (roll e)) <> devices_file o ->
  no_duplicate_rows o s ->
  no_duplicate_rows o (scan_tick L o e s).2.
Proof.
  intros Hsane Hinv. destruct s as [d fs].
  unfold scan_tick, scan. simpl.
  destruct (get_gps_coords L (gps e)) as [gf|]; [|exact Hinv].
  destruct (String.eqb (devices_output e) EmptyString).
  - now apply inv_after_rollover.
  - apply inv_after_rollover; [assumption|].
    destruct (scan_lines_law L o e gf
                (PyStr.splitlines (PyStr.strip (devices_output e)))
                {| data := d; files := fs; rows_written := 0 |}) as [new Hnew].
    eapply inv_after_loop; eauto.
Qed.

Lemma scan_ticks_inv (es : list scan_env) :
  forall s,
    Forall (fun e => rolled_path o (roll_ts (roll e)) <> devices_file o) es ->
    no_duplicate_rows o s ->
    no_duplicate_rows o (scan_ticks L o es s).
Proof.
  unfold scan_ticks. induction es as [|e es IH]; intros s Hs Hinv; simpl.
  - exact Hinv.
  - apply Forall_cons in Hs as [He Hes].
    apply IH; [assumption|]. now apply scan_tick_inv.
Qed.

Lemma check_rollover_ledger (e : roll_env) (d : ledger) (fs : fsys) :
  (check_rollover e o d fs).2.1 = d \/ (check_rollover e o d fs).2.1 = ∅.
Proof.
  unfold check_rollover.
  destruct (ensure_upload_dir e o fs) as [fs1|]; [|now left].
  destruct (fs1 !! devices_file o) as [n|]; [|now left].
  destruct (file_size o <=? Fs.getsize n); [|now left].
  destruct (Fs.move _ _ _ _); [now right | now left].
Qed.

Lemma move_content (r : bool) (dst : string) (fs fs2 : fsys) :
  Fs.move r (devices_file o) dst fs = Ok fs2 ->
  active_content o fs2 = active_content o fs
  \/ fs2 !! devices_file o = None.
Proof.
  intros Hm. destruct (decide (dst = devices_file o)) as [->|Hne].
  - left. revert Hm. unfold Fs.move. destruct r; [discriminate|].
    destruct (fs !! devices_file o) as [n|] eqn:Es; [|discriminate].
    destruct n as [c t|sz].
    + intros [= <-]. unfold active_content. now rewrite lookup_insert_eq, Es.
    + destruct (Fs.exists_ _ fs) eqn:Ex.
      * discriminate.
      * intros [= <-]. unfold active_content. rewrite Es.
        destruct (decide (PyStr.path_join (devices_file o)
                            (PyStr.basename (devices_file o)) = devices_file o))
          as [Heq|Hneq].
        -- rewrite Heq. now rewrite lookup_insert_eq.
        -- now rewrite lookup_insert_ne, lookup_delete_eq.
  - right. eapply move_source_gone; eauto.
Qed.

(** after [check_rollover] the active file is as it was, or is the new
    file with the header only, or is missing *)
Lemma check_rollover_content (e : roll_env) (d : ledger) (fs : fsys) :
  let fs' := (check_rollover e o d fs).2.2 in
  active_content o fs' = active_content o fs
  \/ active_content o fs' = header_text
  \/ active_content o fs' = EmptyString.
Proof.
  cbv zeta. unfold check_rollover.
  destruct (ensure_upload_dir e o fs) as [fs1|] eqn:E1; [|now left].
  apply ensure_upload_dir_content in E1.
  destruct (fs1 !! devices_file o) as [n|]; [|left; exact E1].
  destruct (file_size o <=? Fs.getsize n); [|left; exact E1].
  destruct (Fs.move _ _ _ _) as [fs2|] eqn:Em; [|left; exact E1].
  simpl. unfold write_csv_header, Fs.write_text.
  destruct (roll_header_raises e).
  - destruct (move_content _ _ _ _ Em) as [Hc|Hn].
    + left. now rewrite Hc.
    + right. right. unfold active_content. now rewrite Hn.
  - destruct (fs2 !! devices_file o) as [[c t|sz]|] eqn:E2.
    + right. left. unfold active_content. now rewrite lookup_insert_eq.
    + right. right. unfold active_content. now rewrite E2.
    + right. left. unfold active_content. now rewrite lookup_insert_eq.
Qed.

(** what a tick that does not roll the file over does *)
Lemma scan_tick_kept (e : scan_env) (s s' : ledger * fsys) :
  scan_tick L o e s = (false, s') ->
  exists new,
    appended o s.2 s'.2 new
    /\ (forall row, row ∈ new -> s.1 !! row_addr row = None)
    /\ (forall m v, s.1 !! m = Some v -> s'.1 !! m = Some v).
Proof.
  destruct s as [d fs], s' as [d' fs']. unfold scan_tick, scan. simpl.
  destruct (get_gps_coords L (gps e)) as [gf|].
  - destruct (String.eqb (devices_output e) EmptyString).
    + intros H. apply check_rollover_kept in H as [-> Hc].
      exists []. split; [|split; auto].
      * unfold appended. simpl. now rewrite Hc, string_app_nil_r.
      * intros row Hrow. inversion Hrow.
    + intros H. apply check_rollover_kept in H as [-> Hc].
      destruct (scan_lines_law L o e gf
                  (PyStr.splitlines (PyStr.strip (devices_output e)))
                  {| data := d; files := fs; rows_written := 0 |})
        as (new & A & N & R & M & _).
      exists new. simpl in *. split; [|split].
      * unfold appended in *. now rewrite Hc.
      * intros row Hrow. now destruct (R row Hrow) as (_ & Hn & _).
      * exact M.
  - intros [= <- <-]. exists []. split; [apply appended_refl|].
    split; [intros row Hrow; inversion Hrow | auto].
Qed.

(** within a file epoch an address of the ledger stays there, and the
    rows that are written are rows of other addresses *)
Lemma epoch_ticks_kept (es : list scan_env) :
  forall (s s' : ledger * fsys) (mac v : string),
    epoch_ticks L o es s = Some s' ->
    s.1 !! mac = Some v ->
    s'.1 !! mac = Some v
    /\ exists new, appended o s.2 s'.2 new /\ (mac ∉ row_addr <$> new).
Proof.
  induction es as [|e es IH]; intros s s' mac v He Hm; simpl in He.
  - injection He as <-. split; [assumption|].
    exists []. split; [apply appended_refl | apply not_elem_of_nil].
  - destruct (scan_tick L o e s) as [[] s1] eqn:Et; [discriminate|].
    destruct (scan_tick_kept e s s1 Et) as (new1 & A1 & R1 & M1).
    destruct (IH s1 s' mac v He (M1 _ _ Hm)) as (Hv & new2 & A2 & N2).
    split; [assumption|]. exists (new1 ++ new2).
    split; [eapply appended_trans; eauto|].
    rewrite fmap_app. intros Hin. apply elem_of_app in Hin as [Hin|Hin].
    + apply list_elem_of_fmap in Hin as (row & -> & Hrow).
      specialize (R1 row Hrow). congruence.
    + contradiction.
Qed.

(** a tick never puts an address of the blacklist into the ledger *)
Lemma scan_tick_blacklist (e : scan_env) (s : ledger * fsys) (mac : string) :
  mac ∈ blacklist o -> s.1 !! mac = None ->
  (scan_tick L o e s).2.1 !! mac = None.
Proof.
  intros Hbl Hm. destruct s as [d fs]. unfold scan_tick, scan. simpl in *.
  destruct (get_gps_coords L (gps e)) as [gf|]; [|exact Hm].
  destruct (String.eqb (devices_output e) EmptyString).
  - destruct (check_rollover_ledger (roll e) d fs) as [-> | ->];
      [assumption | apply lookup_empty].
  - destruct (scan_lines_law L o e gf
                (PyStr.splitlines (PyStr.strip (devices_output e)))
                {| data := d; files := fs; rows_written := 0 |})
      as (new & A & N & R & M & B & _).
    match goal with |- context [check_rollover ?a ?b ?c ?f] =>
      destruct (check_rollover_ledger a c f) as [-> | ->] end.
    + rewrite (B mac Hbl). exact Hm.
    + apply lookup_empty.
Qed.

(** the rows of the active file after a tick: none has an address of
    the blacklist if none had *)
Lemma scan_tick_blacklist_rows (e : scan_env) (s : ledger * fsys) (mac : string)
  (h : bool) (rows : list (list string)) :
  mac ∈ blacklist o ->
  active_content o s.2 = head_text h +:+ rows_text rows ->
  mac ∉ row_addr <$> rows ->
  exists h' rows',
    active_content o (scan_tick L o e s).2.2 = head_text h' +:+ rows_text rows'
    /\ (mac ∉ row_addr <$> rows').
Proof.
  intros Hbl Hc Hnot. destruct s as [d fs]. simpl in Hc.
  assert (Hroll : forall re d1 fs1 rows1,
             active_content o fs1 = head_text h +:+ rows_text rows1 ->
             mac ∉ row_addr <$> rows1 ->
             exists h' rows',
               active_content o (check_rollover re o d1 fs1).2.2
               = head_text h' +:+ rows_text rows'
               /\ (mac ∉ row_addr <$> rows')).
  { intros re d1 fs1 rows1 H1 H2.
    destruct (check_rollover_content re d1 fs1) as [H | [H | H]]; cbv zeta in H.
    - exists h, rows1. now rewrite H.
    - exists true, []. rewrite H. split; [|apply not_elem_of_nil].
      unfold head_text, rows_text, fold_right. now rewrite string_app_nil_r.
    - exists false, []. rewrite H. split; [reflexivity | apply not_elem_of_nil]. }
  unfold scan_tick, scan. simpl.
  destruct (get_gps_coords L (gps e)) as [gf|]; [|exists h, rows; auto].
  destruct (String.eqb (devices_output e) EmptyString).
  - now apply (Hroll _ _ _ rows).
  - destruct (scan_lines_law L o e gf
                (PyStr.splitlines (PyStr.strip (devices_output e)))
                {| data := d; files := fs; rows_written := 0 |})
      as (new & A & N & R & _).
    apply (Hroll _ _ _ (rows ++ new)).
    + unfold appended in A. simpl in A.
      now rewrite A, Hc, rows_text_app, string_app_assoc.
    + rewrite fmap_app. intros Hin. apply elem_of_app in Hin as [Hin|Hin];
        [contradiction|].
      apply list_elem_of_fmap in Hin as (row & -> & Hrow).
      now destruct (R row Hrow) as (Hb & _).
Qed.

End RolloverFacts.

(** * C1, C9, C3: the ledger, the rows and the blacklist *)

Section ScanClaims.

Lemma rolled_path_ex (ts : string) :
  rolled_path Ex.opts ts <> devices_file Ex.opts.
Proof. unfold rolled_path, rolled_name. simpl. discriminate. Qed.

Lemma fresh_no_duplicate_rows : no_duplicate_rows Ex.opts Ex2.fresh.
Proof.
  exists true, []. split; [|split; [|split]].
  - vm_compute. reflexivity.
  - vm_compute. reflexivity.
  - constructor.
  - intros row Hrow. inversion Hrow.
Qed.

(** the plugin that starts without an active file starts with the
    invariant: an empty ledger and a file with the header only (or no
    file, when the header could not be written) *)
Lemma on_loaded_new_file (e0 : loaded_env) (o0 o : options) (fs0 fs : fsys)
  (d : ledger) :
  on_loaded e0 o0 fs0 = Ok (o, d, fs) ->
  fs0 !! devices_file o0 = None ->
  PyStr.dirname (devices_file o0) <> devices_file o0 ->
  upload_path o0 <> devices_file o0 ->
  uploaded_path o0 <> devices_file o0 ->
  no_duplicate_rows o (d, fs).
Proof.
  unfold on_loaded. simpl. intros H Hn H1 H2 H3.
  destruct (Fs.makedirs _ (PyStr.dirname _) fs0) as [fsa|] eqn:Ea; [|discriminate].
  destruct (Fs.makedirs _ (upload_path o0) fsa) as [fsb|] eqn:Eb; [|discriminate].
  destruct (Fs.makedirs _ (uploaded_path o0) fsb) as [fsc|] eqn:Ec; [|discriminate].
  apply makedirs_lookup in Ea as [Ha _], Eb as [Hb _], Ec as [Hc _].
  assert (Hnone : fsc !! devices_file o0 = None).
  { rewrite Hc, Hb, Ha by congruence. exact Hn. }
  unfold Fs.exists_ in H. rewrite Hnone in H. simpl in H.
  injection H as <- <- <-.
  exists (negb (loaded_header_raises e0)), []. simpl.
  assert (Hc' : active_content (set_blacklist (PyStr.upper <$> blacklist o0) o0)
                  (write_csv_header (loaded_header_raises e0)
                     (loaded_header_time e0)
                     (set_blacklist (PyStr.upper <$> blacklist o0) o0) fsc)
                = head_text (negb (loaded_header_raises e0)) +:+ EmptyString).
  { rewrite write_csv_header_content by exact Hnone.
    rewrite string_app_nil_r. now destruct (loaded_header_raises e0). }
  split; [exact Hc'|]. split; [rewrite Hc'; apply (csv_reader_file _ [])|].
  split; [constructor|]. intros row Hrow. inversion Hrow.
Qed.

(** C1 (amended).  Over every sequence of scan ticks, the active file
    holds no two data rows with the same address in upper case, and the
    ledger holds the address of every row of the file (the ledger and the
    file start anew together at a rollover).  In the loop of [scan], a
    line whose address is in the ledger changes nothing, and a row is
    written only for an address that is put into the ledger at that turn.
    An address is put into the ledger before its row is appended: it gets
    its row exactly when the append does not raise, and when the append
    raises it is in the ledger and the file is as it was. *)
Theorem scan_writes_each_address_once :
  forall (L : pylib) (o : options) (es : list scan_env) (s : ledger * fsys),
    Forall (fun e => rolled_path o (roll_ts (roll e)) <> devices_file o) es ->
    no_duplicate_rows o s ->
    no_duplicate_rows o (scan_ticks L o es s)
    /\ (forall dev gf t st line mac name,
          parse_device line = Some (mac, name) ->
          is_Some (data st !! mac) ->
          scan_line L o dev gf t st line = st)
    /\ (forall dev gf t st line,
          let st' := scan_line L o dev gf t st line in
          rows_written st' <> rows_written st ->
          exists mac name,
            parse_device line = Some (mac, name)
            /\ data st !! mac = None
            /\ data st' = <[mac := t]> (data st)
            /\ appended o (files st) (files st')
                 [device_row L (dev mac) gf mac name t])
    /\ (forall dev gf t st line mac,
          let st' := scan_line L o dev gf t st line in
          data st !! mac = None ->
          is_Some (data st' !! mac) ->
          exists name,
            parse_device line = Some (mac, name)
            /\ data st' = <[mac := t]> (data st)
            /\ match Fs.append_text (append_raises (dev mac)) (devices_file o)
                       (Csv.writerow (device_row L (dev mac) gf mac name t))
                       (append_time (dev mac)) (files st) with
               | Ok fs' =>
                   files st' = fs'
                   /\ rows_written st' = S (rows_written st)
                   /\ appended o (files st) (files st')
                        [device_row L (dev mac) gf mac name t]
               | Raised =>
                   files st' = files st
                   /\ rows_written st' = rows_written st
               end).
Proof.
  intros L o es s Hsane Hinv.
  split; [now apply scan_ticks_inv|]. split; [|split].
  - intros dev gf t st line mac name Hp Hd. unfold scan_line. rewrite Hp.
    destruct (bool_decide _); [reflexivity|].
    now destruct Hd as [v ->].
  - intros dev gf t st line st' Hrw.
    destruct (scan_line_cases L o dev gf t st line)
      as [[Heq _] | (mac & name & Hp & Hbl & Hd & Hd' & Hw)].
    + fold st' in Heq. now rewrite Heq in Hrw.
    + fold st' in Hd', Hw. cbv zeta in Hw.
      destruct Hw as [[Hw Hn] | (Hw & Hf & Hn)]; [|congruence].
      exists mac, name. repeat split; auto.
      unfold appended. rewrite rows_text_one.
      eapply append_text_content, Hw.
  - intros dev gf t st line mac st' Hd Hs.
    destruct (scan_line_cases L o dev gf t st line)
      as [[Heq _] | (mac' & name & Hp & Hbl & Hd0 & Hd' & Hw)].
    + fold st' in Heq. rewrite Heq, Hd in Hs. now destruct Hs.
    + fold st' in Hd', Hw. cbv zeta in Hw.
      assert (mac' = mac) as ->.
      { destruct (decide (mac' = mac)) as [|Hne]; [assumption|].
        rewrite Hd', lookup_insert_ne, Hd in Hs by assumption. now destruct Hs. }
      exists name. split; [exact Hp|]. split; [exact Hd'|].
      destruct Hw as [[Hw Hn] | (Hw & Hf & Hn)]; rewrite Hw.
      * split; [reflexivity|]. split; [exact Hn|].
        unfold appended. rewrite rows_text_one.
        eapply append_text_content, Hw.
      * split; assumption.
Qed.

Lemma scan_writes_each_address_once_witness :
  no_duplicate_rows Ex.opts
    (scan_ticks Ex.lib Ex.opts [Ex2.tick; Ex2.tick] Ex2.fresh).
Proof.
  apply (scan_writes_each_address_once Ex.lib Ex.opts [Ex2.tick; Ex2.tick] Ex2.fresh).
  - repeat constructor; apply rolled_path_ex.
  - apply fresh_no_duplicate_rows.
Defined.

(** C1, as stated, fails where the append raises: the address is put
    into the ledger and no row is produced for it. *)
Lemma address_inserted_without_row :
  let s := scan_tick Ex.lib Ex.opts Ex2.tick_failing Ex2.fresh in
  Ex2.fresh.1 !! "AA:BB:CC:11:22:33" = None
  /\ s.2.1 !! "AA:BB:CC:11:22:33" = Some Ex.now
  /\ Ex2.records_at (devices_file Ex.opts) s.2.2 = [pre_fields; header].
Proof. vm_compute. repeat split. Qed.

(** what [on_loaded] does when the active file exists: the file stays,
    and the ledger is the one loaded from it *)
Lemma on_loaded_existing (e0 : loaded_env) (o0 o : options) (fs0 fs : fsys)
  (d : ledger) (n : node) :
  on_loaded e0 o0 fs0 = Ok (o, d, fs) ->
  fs0 !! devices_file o0 = Some n ->
  devices_file o = devices_file o0
  /\ fs !! devices_file o0 = Some n
  /\ d = _load_existing_devices (loaded_load e0) o fs ∅.
Proof.
  unfold on_loaded. simpl. intros H Hn.
  destruct (Fs.makedirs _ (PyStr.dirname _) fs0) as [fsa|] eqn:Ea; [|discriminate].
  destruct (Fs.makedirs _ (upload_path o0) fsa) as [fsb|] eqn:Eb; [|discriminate].
  destruct (Fs.makedirs _ (uploaded_path o0) fsb) as [fsc|] eqn:Ec; [|discriminate].
  assert (Hkeep : forall r p fx fy,
             Fs.makedirs r p fx = Ok fy ->
             fx !! devices_file o0 = Some n -> fy !! devices_file o0 = Some n).
  { intros r p fx fy Hm Hq.
    apply makedirs_lookup in Hm as [_ [->|[Hnone ->]]]; [exact Hq|].
    destruct (decide (devices_file o0 = p)) as [<-|Hne]; [congruence|].
    now rewrite lookup_insert_ne by congruence. }
  assert (Hc : fsc !! devices_file o0 = Some n).
  { apply (Hkeep _ _ _ _ Ec), (Hkeep _ _ _ _ Eb), (Hkeep _ _ _ _ Ea), Hn. }
  unfold Fs.exists_ in H. rewrite Hc in H. simpl in H.
  injection H as <- <- <-. auto.
Qed.

(** C9 (amended).  In the loop of [scan] a new address is put into the
    ledger before its row is appended: when the append raises, the
    address stays in the ledger and no row is written, the loop goes on
    with the next line, and as long as the plugin keeps running in the
    file epoch (in the rest of the scan and in the ticks that follow, up
    to the next rollover) no row is written for that address.  A restart
    is another matter: [on_loaded] builds the ledger anew from the active
    file, which holds no row of the address, so the address is not in the
    ledger any more and the next line of that address gets its row. *)
Theorem failed_append_is_not_retried :
  forall (L : pylib) (o : options) (e : scan_env) (gf : gps_fix)
         (st : scan_state) (line mac name : string),
    parse_device line = Some (mac, name) ->
    mac ∉ blacklist o ->
    data st !! mac = None ->
    Fs.append_text (append_raises (dev e mac)) (devices_file o)
      (Csv.writerow (device_row L (dev e mac) gf mac name (scan_time e)))
      (append_time (dev e mac)) (files st) = Raised ->
    let st1 := scan_line L o (dev e) gf (scan_time e) st line in
    data st1 = <[mac := scan_time e]> (data st)
    /\ files st1 = files st
    /\ rows_written st1 = rows_written st
    /\ (forall rest,
          scan_lines L o e gf st (line :: rest) = scan_lines L o e gf st1 rest)
    /\ (forall rest,
          let st2 := scan_lines L o e gf st1 rest in
          data st2 !! mac = Some (scan_time e)
          /\ exists new, appended o (files st1) (files st2) new
                         /\ (mac ∉ row_addr <$> new))
    /\ (forall es s s',
          s.1 !! mac = Some (scan_time e) ->
          epoch_ticks L o es s = Some s' ->
          s'.1 !! mac = Some (scan_time e)
          /\ exists new, appended o s.2 s'.2 new /\ (mac ∉ row_addr <$> new))
    /\ (forall e0 o0 o' d' fs0 fs' t0 rows,
          on_loaded e0 o0 fs0 = Ok (o', d', fs') ->
          fs0 !! devices_file o0
          = Some (File (header_text +:+ rows_text rows) t0) ->
          load_open_raises (loaded_load e0) = false ->
          mac ∉ omap load_addr rows ->
          d' !! mac = None
          /\ forall dev' gf' t' fs'',
               mac ∉ blacklist o' ->
               Fs.append_text (append_raises (dev' mac)) (devices_file o')
                 (Csv.writerow (device_row L (dev' mac) gf' mac name t'))
                 (append_time (dev' mac)) fs' = Ok fs'' ->
               let st' := scan_line L o' dev' gf' t'
                            {| data := d'; files := fs'; rows_written := 0 |}
                            line in
               data st' !! mac = Some t'
               /\ files st' = fs''
               /\ rows_written st' = 1%nat
               /\ appended o' fs' (files st')
                    [device_row L (dev' mac) gf' mac name t']).
Proof.
  intros L o e gf st line mac name Hp Hbl Hd Hw st1.
  assert (Hst1 : st1 = {| data := <[mac := scan_time e]> (data st);
                          files := files st;
                          rows_written := rows_written st |}).
  { subst st1. unfold scan_line. rewrite Hp.
    rewrite bool_decide_eq_false_2 by assumption. now rewrite Hd, Hw. }
  rewrite Hst1. simpl.
  split; [reflexivity|]. split; [reflexivity|]. split; [reflexivity|].
  split; [|split; [|split]].
  - intros rest. unfold scan_lines. simpl. fold st1. now rewrite Hst1.
  - intros rest.
    destruct (scan_lines_law L o e gf rest
                {| data := <[mac := scan_time e]> (data st);
                   files := files st; rows_written := rows_written st |})
      as (new & A & N & R & M & _).
    simpl in *. split.
    + apply M. apply lookup_insert_eq.
    + exists new. split; [exact A|].
      intros Hin. apply list_elem_of_fmap in Hin as (row & -> & Hrow).
      destruct (R row Hrow) as (_ & Hn & _).
      now rewrite lookup_insert_eq in Hn.
  - intros es s s' Hm He. eapply epoch_ticks_kept; eauto.
  - intros e0 o0 o' d' fs0 fs' t0 rows Hload Hfile Hopen Hnot.
    destruct (on_loaded_existing _ _ _ _ _ _ _ Hload Hfile) as (Ho & Hf' & Hd').
    assert (Hnone : d' !! mac = None).
    { rewrite Hd'.
      rewrite (load_existing_lookup (loaded_load e0) o' fs' t0 rows mac);
        [|now rewrite Ho|exact Hopen].
      destruct (first_row mac rows) as [row|] eqn:Er; [|reflexivity].
      destruct Hnot. apply first_row_is_Some. rewrite Er. now eexists. }
    split; [exact Hnone|].
    intros dev' gf' t' fs'' Hbl' Happ0.
    assert (Happ : Fs.append_text (append_raises (dev' mac)) (devices_file o')
                     (Csv.writerow (device_row L (dev' mac) gf' mac name t'))
                     (append_time (dev' mac)) fs' = Ok fs'') by exact Happ0.
    clear Happ0.
    set (st0 := {| data := d'; files := fs'; rows_written := 0 |}).
    assert (Hst : scan_line L o' dev' gf' t' st0 line
                  = {| data := <[mac := t']> d'; files := fs'';
                       rows_written := 1 |}).
    { unfold scan_line. rewrite Hp.
      rewrite bool_decide_eq_false_2 by assumption.
      change (data st0) with d'. change (files st0) with fs'.
      change (rows_written st0) with 0%nat. now rewrite Hnone, Happ. }
    cbv zeta. rewrite Hst.
    split; [apply lookup_insert_eq|]. split; [reflexivity|]. split; [reflexivity|].
    unfold appended. rewrite rows_text_one.
    exact (append_text_content o' _ _ _ _ _ Happ).
Qed.

Lemma failed_append_is_not_retried_witness :
  let st1 := scan_line Ex.lib Ex.opts (dev Ex2.tick_failing) zero_fix
               (scan_time Ex2.tick_failing) Ex2.start_state Ex2.device_line in
  data st1 = <[ "AA:BB:CC:11:22:33" := Ex.now ]> ∅
  /\ files st1 = Ex.active [].
Proof.
  intros st1.
  destruct (failed_append_is_not_retried Ex.lib Ex.opts Ex2.tick_failing zero_fix
              Ex2.start_state Ex2.device_line "AA:BB:CC:11:22:33" "Phone")
    as (H1 & H2 & _).
  - vm_compute. reflexivity.
  - vm_compute. intros H. repeat (inversion H as [|? ? ? H']; subst; clear H; rename H' into H).
  - reflexivity.
  - reflexivity.
  - split; [exact H1 | exact H2].
Defined.

(** C9, as stated, fails across a restart in the same file epoch: the
    append of the row raises and the file is not rolled over; the plugin
    is loaded again and finds no row of the address in the file; the
    next scan writes the row. *)
Lemma failed_append_retried_after_restart :
  let mac := "AA:BB:CC:11:22:33" in
  let s1 := scan_tick Ex.lib Ex.opts Ex2.tick_failing Ex2.fresh in
  s1.1 = false
  /\ s1.2.1 !! mac = Some Ex.now
  /\ Ex2.records_at (devices_file Ex.opts) s1.2.2 = [pre_fields; header]
  /\ match on_loaded Ex2.loadedenv Ex.opts s1.2.2 with
     | Ok (o, d, fs) =>
         d !! mac = None
         /\ let s2 := scan_tick Ex.lib o Ex2.tick (d, fs) in
            s2.1 = false
            /\ Ex2.records_at (devices_file o) s2.2.2
               = [pre_fields; header;
                  device_row Ex.lib Ex2.devenv zero_fix mac "Phone" Ex.now]
     | Raised => False
     end.
Proof. vm_compute. repeat split. Qed.

Lemma on_loaded_blacklist (e0 : loaded_env) (o0 o : options) (fs0 fs1 : fsys)
  (d0 : ledger) :
  on_loaded e0 o0 fs0 = Ok (o, d0, fs1) ->
  blacklist o = PyStr.upper <$> blacklist o0.
Proof.
  unfold on_loaded.
  destruct (Fs.makedirs _ _ _); [|discriminate].
  destruct (Fs.makedirs _ _ _); [|discriminate].
  destruct (Fs.makedirs _ _ _); [|discriminate].
  destruct (negb _); intros [= <- _ _]; reflexivity.
Qed.

(** C3 (amended).  An address of the configured blacklist, in upper
    case, is on the blacklist that [scan] tests; a line of that address
    changes neither the ledger nor the file, whatever the ledger holds;
    no sequence of scan ticks puts the address into the ledger, nor a
    row of that address into the active file.  (The bootstrap does not
    test the blacklist: it stores the addresses of the file it reads.) *)
Theorem blacklisted_never_scanned :
  forall (L : pylib) (e0 : loaded_env) (o0 o : options) (fs0 fs1 : fsys)
         (d0 : ledger) (b : string),
    on_loaded e0 o0 fs0 = Ok (o, d0, fs1) ->
    b ∈ blacklist o0 ->
    let mac := PyStr.upper b in
    (mac ∈ blacklist o)
    /\ (forall dev gf t st line name,
          parse_device line = Some (mac, name) ->
          scan_line L o dev gf t st line = st)
    /\ (forall es s,
          s.1 !! mac = None -> (scan_ticks L o es s).1 !! mac = None)
    /\ (forall es s h rows,
          active_content o s.2 = head_text h +:+ rows_text rows ->
          mac ∉ row_addr <$> rows ->
          exists h' rows',
            Csv.csv_reader (active_content o (scan_ticks L o es s).2)
            = (head_records h' ++ rows', false)
            /\ (mac ∉ row_addr <$> rows')).
Proof.
  intros L e0 o0 o fs0 fs1 d0 b Hload Hb mac.
  assert (Hbl : mac ∈ blacklist o).
  { rewrite (on_loaded_blacklist _ _ _ _ _ _ Hload).
    apply list_elem_of_fmap. now exists b. }
  split; [exact Hbl|]. split; [|split].
  - intros dev gf t st line name Hp. unfold scan_line. rewrite Hp.
    now rewrite bool_decide_eq_true_2.
  - intros es. unfold scan_ticks.
    induction es as [|e es IH]; intros s Hs; simpl; [assumption|].
    apply IH. now apply scan_tick_blacklist.
  - intros es. unfold scan_ticks.
    induction es as [|e es IH]; intros s h rows Hc Hnot; simpl.
    + exists h, rows. rewrite Hc. split; [apply csv_reader_file | assumption].
    + destruct (scan_tick_blacklist_rows L o e s mac h rows Hbl Hc Hnot)
        as (h1 & rows1 & Hc1 & Hnot1).
      apply (IH _ h1 rows1); assumption.
Qed.

Lemma blacklisted_never_scanned_witness :
  let o := set_blacklist ["AA:BB:CC:DD:EE:FF"] Ex5.bl_opts in
  let fs1 := match on_loaded Ex2.loadedenv Ex5.bl_opts ∅ with
             | Ok (_, _, fs) => fs
             | Raised => ∅
             end in
  let st := {| data := ∅; files := fs1; rows_written := 0 |} in
  let s := scan_ticks Ex.lib o [Ex5.bl_tick; Ex5.bl_tick] (∅, fs1) in
  on_loaded Ex2.loadedenv Ex5.bl_opts ∅ = Ok (o, ∅, fs1)
  /\ parse_device Ex5.spy_line = Some ("AA:BB:CC:DD:EE:FF", "Spy")
  /\ scan_line Ex.lib o (dev Ex5.bl_tick) zero_fix Ex.now st Ex5.spy_line = st
  /\ s.1 !! "AA:BB:CC:DD:EE:FF" = None
  /\ s.1 !! "AA:BB:CC:11:22:33" = Some Ex.now
  /\ (fun row => row !! 0%nat) <$> Ex2.records_at (devices_file o) s.2
     = [Some "WigleWifi-1.6"; Some "MAC"; Some "AA:BB:CC:11:22:33"].
Proof.
  intros o fs1 st s.
  assert (Hl : on_loaded Ex2.loadedenv Ex5.bl_opts ∅ = Ok (o, ∅, fs1))
    by reflexivity.
  assert (Hp : parse_device Ex5.spy_line = Some ("AA:BB:CC:DD:EE:FF", "Spy"))
    by (vm_compute; reflexivity).
  destruct (blacklisted_never_scanned Ex.lib Ex2.loadedenv Ex5.bl_opts o
              ∅ fs1 ∅ "aa:bb:cc:dd:ee:ff" Hl) as (_ & H2 & H3 & _).
  - apply list_elem_of_here.
  - split; [exact Hl|]. split; [exact Hp|].
    split; [exact (H2 (dev Ex5.bl_tick) zero_fix Ex.now st Ex5.spy_line "Spy" Hp)|].
    split; [apply (H3 [Ex5.bl_tick; Ex5.bl_tick] (∅, fs1)); apply lookup_empty|].
    subst s st fs1 o. vm_compute. split; reflexivity.
Defined.

(** C3, as stated, fails: the bootstrap puts an address of the blacklist
    into the ledger when the active file has a row of that address. *)
Lemma blacklisted_address_loaded_at_start :
  match on_loaded Ex2.loadedenv Ex.opts (Ex.active [Ex.blacklisted_row]) with
  | Ok (o, d, _) =>
      "AA:BB:CC:DD:EE:FF" ∈ blacklist o
      /\ d !! "AA:BB:CC:DD:EE:FF" = Some "2023-12-31 08:00:00"
  | Raised => False
  end.
Proof.
  vm_compute. split; [apply list_elem_of_here | reflexivity].
Qed.

End ScanClaims.

(** * C2: the rollover *)

Section RolloverClaim.
Import PyStr.

Lemma prefix_csv_longer (a : string) :
  a <> EmptyString ->
  startswith ".csv" (a +:+ ".cs") = false ->
  startswith ".csv" (a +:+ ".csv") = false.
Proof.
  intros Ha.
  destruct a as [|c1 [|c2 [|c3 [|c4 a']]]]; [now contradiction Ha| | | |];
    simpl; intros H; exact H.
Qed.

(** the name of a file in [.csv] with no other [.csv] in it: the new
    text takes the place of the extension *)
Lemma replace_extension (stem new : string) :
  contains ".csv" (stem +:+ ".cs") = false ->
  replace ".csv" new (stem +:+ ".csv") = stem +:+ new.
Proof.
  unfold replace. induction stem as [|c stem IH]; intros H.
  - simpl. now rewrite string_app_nil_r.
  - change (contains ".csv" (String c (stem +:+ ".cs")) = false) in H.
    simpl in H. apply orb_false_iff in H as [Hp Hc].
    change (String c stem +:+ ".csv") with (String c (stem +:+ ".csv")).
    cbn [replace_go].
    assert (Hp' : startswith ".csv" (String c (stem +:+ ".csv")) = false).
    { apply (prefix_csv_longer (String c stem)); [discriminate | exact Hp]. }
    rewrite Hp'. simpl. f_equal. apply IH. exact Hc.
Qed.

(** the file system once the upload directory is there *)
Lemma ensure_upload_dir_ok (e : roll_env) (o : options) (fs : fsys) :
  roll_makedirs_raises e = false ->
  upload_path o <> EmptyString ->
  exists fs1,
    ensure_upload_dir e o fs = Ok fs1
    /\ forall q, q <> upload_path o -> fs1 !! q = fs !! q.
Proof.
  intros Hr Hne. unfold ensure_upload_dir, Fs.exists_, Fs.makedirs.
  destruct (fs !! upload_path o) as [n|] eqn:E.
  - exists fs. auto.
  - rewrite Hr. simpl.
    destruct (String.eqb_spec (upload_path o) EmptyString) as [Heq|_];
      [now contradiction Hne|].
    exists (<[upload_path o := Other 0]> fs). split; [reflexivity|].
    intros q Hq. now rewrite lookup_insert_ne.
Qed.

(** [check_rollover] when no system call raises *)
Lemma check_rollover_eq (e : roll_env) (o : options) (d : ledger) (fs : fsys) :
  roll_makedirs_raises e = false ->
  roll_move_raises e = false ->
  roll_header_raises e = false ->
  upload_path o <> EmptyString ->
  upload_path o <> devices_file o ->
  rolled_path o (roll_ts e) <> devices_file o ->
  rolled_path o (roll_ts e) <> upload_path o ->
  (forall sz, fs !! rolled_path o (roll_ts e) <> Some (Other sz)) ->
  exists fs1,
    (forall q, q <> upload_path o -> fs1 !! q = fs !! q)
    /\ check_rollover e o d fs =
       match fs !! devices_file o with
       | Some n =>
           if file_size o <=? Fs.getsize n
           then (true, (∅, <[devices_file o := File header_text (roll_header_time e)]>
                            (<[rolled_path o (roll_ts e) := n]>
                               (delete (devices_file o) fs1))))
           else (false, (d, fs1))
       | None => (false, (d, fs1))
       end.
Proof.
  intros Hmk Hmv Hhd Hup Hupd Hdst Hdstu Hnodir.
  destruct (ensure_upload_dir_ok e o fs Hmk Hup) as (fs1 & E1 & Hq).
  exists fs1. split; [exact Hq|].
  unfold check_rollover. rewrite E1.
  rewrite (Hq (devices_file o)) by congruence.
  destruct (fs !! devices_file o) as [n|] eqn:Es; [|reflexivity].
  destruct (file_size o <=? Fs.getsize n); [|reflexivity].
  unfold Fs.move. rewrite Hmv.
  rewrite (Hq (devices_file o)), Es by congruence.
  rewrite (Hq (rolled_path o (roll_ts e))) by assumption.
  destruct (fs !! rolled_path o (roll_ts e)) as [[c t|sz]|] eqn:Ed;
    [| now destruct (Hnodir sz) |].
  all: unfold write_csv_header, Fs.write_text; rewrite Hhd.
  all: rewrite lookup_insert_ne, lookup_delete_eq by assumption; reflexivity.
Qed.

(** C2.  When no system call of the rollover raises and the paths are
    distinct: [check_rollover] moves the active file exactly when it
    exists and its size is at or above the threshold.  Then the file that
    was the active file is at the rolled path (the same content and
    modification time, no longer at the active path), the active file is
    a new file that holds the preamble line and the line of the column
    names only, and the ledger is empty.  The rolled name is the name of
    the active file with the timestamp inserted before its [.csv]
    extension.  Otherwise the ledger and the active file are as they
    were. *)
Theorem rollover_at_threshold :
  forall (e : roll_env) (o : options) (d : ledger) (fs : fsys),
    roll_makedirs_raises e = false ->
    roll_move_raises e = false ->
    roll_header_raises e = false ->
    upload_path o <> EmptyString ->
    upload_path o <> devices_file o ->
    rolled_path o (roll_ts e) <> devices_file o ->
    rolled_path o (roll_ts e) <> upload_path o ->
    (forall sz, fs !! rolled_path o (roll_ts e) <> Some (Other sz)) ->
    let r := check_rollover e o d fs in
    (r.1 = true <->
       exists n, fs !! devices_file o = Some n /\ file_size o <= Fs.getsize n)
    /\ (forall content t,
          fs !! devices_file o = Some (File content t) ->
          file_size o <= Z.of_nat (String.length content) ->
          r.1 = true
          /\ r.2.1 = ∅
          /\ r.2.2 !! devices_file o
             = Some (File header_text (roll_header_time e))
          /\ Csv.csv_reader header_text = ([pre_fields; header], false)
          /\ r.2.2 !! rolled_path o (roll_ts e) = Some (File content t))
    /\ (r.1 = false ->
          r.2.1 = d /\ r.2.2 !! devices_file o = fs !! devices_file o)
    /\ (forall stem,
          basename (devices_file o) = stem +:+ ".csv" ->
          contains ".csv" (stem +:+ ".cs") = false ->
          rolled_path o (roll_ts e)
          = path_join (upload_path o) (stem +:+ "_" +:+ roll_ts e +:+ ".csv")).
Proof.
  intros e o d fs Hmk Hmv Hhd Hup Hupd Hdst Hdstu Hnodir r.
  destruct (check_rollover_eq e o d fs Hmk Hmv Hhd Hup Hupd Hdst Hdstu Hnodir)
    as (fs1 & Hq & Hr).
  subst r. rewrite Hr. clear Hr.
  split; [|split; [|split]].
  - destruct (fs !! devices_file o) as [n|] eqn:Es.
    + destruct (Z.leb_spec (file_size o) (Fs.getsize n)); simpl.
      * split; [intros _; eauto | reflexivity].
      * split; [discriminate|]. intros (n' & [= <-] & Hle). lia.
    + simpl. split; [discriminate|]. now intros (n' & [=] & _).
  - intros content t Hf Hsz. rewrite Hf. simpl Fs.getsize.
    destruct (Z.leb_spec (file_size o) (Z.of_nat (String.length content)));
      [|lia]. simpl.
    split; [reflexivity|]. split; [reflexivity|].
    split; [apply lookup_insert_eq|].
    split; [apply (csv_reader_file true [])|].
    rewrite lookup_insert_ne by congruence. apply lookup_insert_eq.
  - destruct (fs !! devices_file o) as [n|] eqn:Es.
    + destruct (file_size o <=? Fs.getsize n); simpl; [discriminate|].
      intros _. split; [reflexivity|]. rewrite Hq by congruence. exact Es.
    + simpl. intros _. split; [reflexivity|]. rewrite Hq by congruence. exact Es.
  - intros stem Hb Hc. unfold rolled_path, rolled_name.
    rewrite Hb, replace_extension by assumption. reflexivity.
Qed.

Lemma rollover_at_threshold_witness :
  (check_rollover Ex2.rollenv Ex.small_opts ∅ (Ex.active [])).1 = true
  /\ rolled_path Ex.small_opts (roll_ts Ex2.rollenv)
     = "/root/handshakes/toupload/bluetooth_devices_20240101_120000.csv".
Proof.
  assert (Hnodir : forall sz,
             Ex.active [] !! rolled_path Ex.small_opts (roll_ts Ex2.rollenv)
             <> Some (Other sz)).
  { intros sz. unfold Ex.active. rewrite lookup_singleton_ne; discriminate. }
  assert (H1 : upload_path Ex.small_opts <> EmptyString) by discriminate.
  assert (H2 : upload_path Ex.small_opts <> devices_file Ex.small_opts)
    by discriminate.
  assert (H3 : rolled_path Ex.small_opts (roll_ts Ex2.rollenv)
               <> devices_file Ex.small_opts) by discriminate.
  assert (H4 : rolled_path Ex.small_opts (roll_ts Ex2.rollenv)
               <> upload_path Ex.small_opts) by discriminate.
  destruct (rollover_at_threshold Ex2.rollenv Ex.small_opts ∅ (Ex.active [])
              eq_refl eq_refl eq_refl H1 H2 H3 H4 Hnodir) as (_ & Hr & _ & Hn).
  split.
  - destruct (Hr (header_text +:+ rows_text []) 0) as (H & _).
    + unfold Ex.active. apply lookup_singleton_eq.
    + vm_compute. discriminate.
    + exact H.
  - rewrite (Hn "bluetooth_devices"); reflexivity.
Defined.

End RolloverClaim.

(** * C7: the position fix *)

Section GpsClaim.

Lemma first_tpv_none (L : pylib) (lines : list string) :
  (forall line, line ∈ lines -> tpv_of_line L line = None) ->
  first_tpv L lines = None.
Proof.
  induction lines as [|l ls IH]; intros H; simpl; [reflexivity|].
  rewrite (H l) by apply list_elem_of_here.
  apply IH. intros line Hin. apply H. now apply list_elem_of_further.
Qed.

Lemma recv_loop_no_tpv (L : pylib) (rs : list recv_result) :
  forall buf,
    (forall line, line ∈ seen_lines buf rs -> tpv_of_line L line = None) ->
    recv_loop L buf rs = Ok None \/ recv_loop L buf rs = Raised.
Proof.
  induction rs as [|r rs IH]; intros buf H; simpl in *.
  - now left.
  - destruct r as [chunk|]; [|now right].
    destruct (String.eqb chunk EmptyString); [now left|].
    destruct (cut_lines EmptyString (buf +:+ chunk)) as [lines rest].
    rewrite first_tpv_none.
    + apply IH. intros line Hin. apply H. apply elem_of_app. now right.
    + intros line Hin. apply H. apply elem_of_app. now left.
Qed.

Lemma gps_data_no_tpv (L : pylib) (e : gps_env) :
  no_tpv L e -> gps_data L e = None.
Proof.
  unfold gps_data. intros [-> | H]; [reflexivity|].
  destruct (connect_raises e); [reflexivity|].
  now destruct (recv_loop_no_tpv L (recvs e) EmptyString H) as [-> | ->].
Qed.

(** the rows that the loop of [scan] writes when no append raises: each
    is the row of a device with the position of the tick, and every
    device of the listing that is new gets one *)
Lemma scan_lines_writes (L : pylib) (o : options) (e : scan_env) (gf : gps_fix)
  (lines : list string) :
  (forall m, append_raises (dev e m) = false) ->
  forall st,
    (forall sz, files st !! devices_file o <> Some (Other sz)) ->
    exists new,
      appended o (files st) (files (scan_lines L o e gf st lines)) new
      /\ Forall (fun row => exists mac name,
                   row = device_row L (dev e mac) gf mac name (scan_time e)) new
      /\ (forall line mac name,
            line ∈ lines -> parse_device line = Some (mac, name) ->
            mac ∉ blacklist o -> data st !! mac = None ->
            exists name',
              device_row L (dev e mac) gf mac name' (scan_time e) ∈ new).
Proof.
  intros Hok. unfold scan_lines.
  induction lines as [|l lines IH]; intros st Hnd.
  - exists []. split; [apply appended_refl|]. split; [constructor|].
    intros line mac name Hin. inversion Hin.
  - cbn [fold_left].
    destruct (scan_line_cases L o (dev e) gf (scan_time e) st l)
      as [[Heq Hwhy] | (mac0 & name0 & Hp0 & Hbl0 & Hd0 & Hd' & Hw)].
    + rewrite Heq. destruct (IH st Hnd) as (new & A & F & C).
      exists new. split; [exact A|]. split; [exact F|].
      intros line mac name Hin Hp Hbl Hd.
      apply elem_of_cons in Hin as [->|Hin]; [|now apply (C line mac name)].
      destruct Hwhy as [Hnone | (m & n & Hpm & [Hb | Hs])]; [congruence| |].
      * rewrite Hp in Hpm. injection Hpm as <- <-. contradiction.
      * rewrite Hp in Hpm. injection Hpm as <- <-. rewrite Hd in Hs.
        now destruct Hs.
    + cbv zeta in Hw.
      set (st1 := scan_line L o (dev e) gf (scan_time e) st l) in *.
      destruct Hw as [[Hw Hn] | (Hw & _)].
      2:{ exfalso. revert Hw. unfold Fs.append_text. rewrite Hok.
          destruct (files st !! devices_file o) as [[c t|sz]|] eqn:Ef;
            try discriminate. now destruct (Hnd sz). }
      destruct (IH st1) as (new & A & F & C).
      { intros sz. destruct (append_text_file _ _ _ _ _ _ Hw) as (c & t & ->).
        discriminate. }
      exists (device_row L (dev e mac0) gf mac0 name0 (scan_time e) :: new).
      split.
      { apply (appended_trans o _ (files st1) _ [_] new); [|exact A].
        unfold appended. rewrite rows_text_one.
        exact (append_text_content o _ _ _ _ _ Hw). }
      split; [constructor; [now exists mac0, name0 | exact F]|].
      intros line mac name Hin Hp Hbl Hd.
      destruct (decide (mac = mac0)) as [->|Hne].
      * exists name0. apply list_elem_of_here.
      * apply elem_of_cons in Hin as [->|Hin]; [congruence|].
        destruct (C line mac name Hin Hp Hbl) as [name' Hrow].
        { rewrite Hd'. now rewrite lookup_insert_ne by congruence. }
        exists name'. now apply list_elem_of_further.
Qed.

(** C7.  When the connection to the location service fails, or no line
    that comes in before the deadline (or before a [recv] raises) is a
    message of class TPV, be it that the lines are not JSON or that they
    are other messages, [get_gps_coords] returns the zero fix and raises
    nothing; [scan] then goes on with that fix, and the rows are still
    written: when no append raises, every device of the listing that is
    neither on the blacklist nor in the ledger gets its row in the active
    file, and every row that the tick appends has latitude and longitude
    [0.000000000], altitude [0.0] and accuracy [0.000000]. *)
Theorem no_fix_is_zero_fix :
  forall (L : pylib) (e : gps_env),
    no_tpv L e ->
    get_gps_coords L e = Ok zero_fix
    /\ (forall line, json_loads L line = None -> tpv_of_line L line = None)
    /\ (forall o se d fs,
          gps se = e -> devices_output se <> EmptyString ->
          scan L o se d fs =
          let st := scan_lines L o se zero_fix
                      {| data := d; files := fs; rows_written := 0 |}
                      (PyStr.splitlines (PyStr.strip (devices_output se))) in
          Ok (check_rollover (roll se) o (data st) (files st)))
    /\ (forall de mac name t,
          device_row L de zero_fix mac name t =
          [ mac; name; "Misc [" +:+ get_device_type (out_type de) +:+ "]"; t;
            "0"; "0"; pretty (get_device_rssi L (out_rssi de));
            "0.000000000"; "0.000000000"; "0.0"; "0.000000";
            EmptyString; get_device_manufacturer (out_mfgr de);
            get_device_type (out_type de) ])
    /\ (forall o se d fs,
          gps se = e -> devices_output se <> EmptyString ->
          (forall m, append_raises (dev se m) = false) ->
          (forall sz, fs !! devices_file o <> Some (Other sz)) ->
          exists st new,
            scan L o se d fs
            = Ok (check_rollover (roll se) o (data st) (files st))
            /\ appended o fs (files st) new
            /\ Forall (fun row =>
                         row !! 7%nat = Some "0.000000000"
                         /\ row !! 8%nat = Some "0.000000000"
                         /\ row !! 9%nat = Some "0.0"
                         /\ row !! 10%nat = Some "0.000000") new
            /\ (forall line mac name,
                  line ∈ PyStr.splitlines (PyStr.strip (devices_output se)) ->
                  parse_device line = Some (mac, name) ->
                  mac ∉ blacklist o -> d !! mac = None ->
                  exists name',
                    device_row L (dev se mac) zero_fix mac name' (scan_time se)
                    ∈ new)).
Proof.
  intros L e H.
  assert (Hz : get_gps_coords L e = Ok zero_fix).
  { unfold get_gps_coords. now rewrite gps_data_no_tpv. }
  assert (Hscan : forall o se d fs,
             gps se = e -> devices_output se <> EmptyString ->
             scan L o se d fs =
             let st := scan_lines L o se zero_fix
                         {| data := d; files := fs; rows_written := 0 |}
                         (PyStr.splitlines (PyStr.strip (devices_output se))) in
             Ok (check_rollover (roll se) o (data st) (files st))).
  { intros o se d fs <- Hout. unfold scan. rewrite Hz.
    destruct (String.eqb_spec (devices_output se) EmptyString);
      [contradiction | reflexivity]. }
  split; [exact Hz|]. split; [|split; [exact Hscan|split]].
  - intros line Hl. unfold tpv_of_line. now rewrite Hl.
  - intros de mac name t. reflexivity.
  - intros o se d fs Hg Hout Hok Hnd.
    destruct (scan_lines_writes L o se zero_fix
                (PyStr.splitlines (PyStr.strip (devices_output se))) Hok
                {| data := d; files := fs; rows_written := 0 |} Hnd)
      as (new & A & F & C).
    eexists. exists new. split; [apply (Hscan o se d fs Hg Hout)|].
    split; [exact A|]. split; [|exact C].
    eapply Forall_impl; [exact F|].
    intros row (mac & name & ->). repeat split.
Qed.

Lemma no_fix_is_zero_fix_witness :
  get_gps_coords Ex3.lib Ex3.timeout_env = Ok zero_fix
  /\ (fun row => (row !! 0%nat, row !! 7%nat, row !! 8%nat, row !! 9%nat,
                  row !! 10%nat))
       <$> Ex2.records_at (devices_file Ex.opts)
             (scan_tick Ex3.lib Ex.opts Ex5.tick_no_fix Ex2.fresh).2.2
     = [ (Some "WigleWifi-1.6", Some "brand=RaspberryPi", Some "star=Sol",
          Some "body=3", Some "subBody=0");
         (Some "MAC", Some "CurrentLatitude", Some "CurrentLongitude",
          Some "AltitudeMeters", Some "AccuracyMeters");
         (Some "AA:BB:CC:11:22:33", Some "0.000000000", Some "0.000000000",
          Some "0.0", Some "0.000000") ].
Proof.
  split; [|vm_compute; reflexivity].
  apply (no_fix_is_zero_fix Ex3.lib Ex3.timeout_env).
  right. intros line Hin. vm_compute in Hin.
  repeat (apply elem_of_cons in Hin as [-> | Hin]; [vm_compute; reflexivity|]).
  inversion Hin.
Defined.

End GpsClaim.

Example gps_fix_found :
  get_gps_coords Ex3.lib Ex3.fix_env
  = Ok {| lat := 5 # 2; lon := -(1 # 4); alt := 100; acc := 0 |}.
Proof. reflexivity. Qed.

Example format_lat : PyFloat.format_f 9 (5 # 2) = "2.500000000".
Proof. reflexivity. Qed.

Example format_lon : PyFloat.format_f 9 (-(1 # 4)) = "-0.250000000".
Proof. reflexivity. Qed.

(** * The uploader *)

Section UploadFacts.
Import PyStr.

Lemma insert_by_perm (key : string -> Z) (x : string) (l : list string) :
  insert_by key x l ≡ₚ x :: l.
Proof.
  induction l as [|y l IH]; simpl; [reflexivity|].
  destruct (key x <=? key y); [reflexivity|].
  rewrite IH. apply Permutation_swap.
Qed.

Lemma sort_by_perm (key : string -> Z) (l : list string) : sort_by key l ≡ₚ l.
Proof.
  induction l as [|x l IH]; simpl; [reflexivity|].
  now rewrite insert_by_perm, IH.
Qed.

Lemma insert_by_sorted (key : string -> Z) (x : string) (l : list string) :
  StronglySorted (fun a b => key a <= key b) l ->
  StronglySorted (fun a b => key a <= key b) (insert_by key x l).
Proof.
  induction 1 as [|y l Hl IH Hy]; simpl.
  - repeat constructor.
  - destruct (Z.leb_spec (key x) (key y)).
    + constructor; [now constructor|].
      constructor; [assumption|].
      eapply Forall_impl; [exact Hy|]. simpl. intros z Hz. lia.
    + constructor; [assumption|].
      rewrite insert_by_perm. constructor; [lia | assumption].
Qed.

Lemma sort_by_sorted (key : string -> Z) (l : list string) :
  StronglySorted (fun a b => key a <= key b) (sort_by key l).
Proof.
  induction l as [|x l IH]; simpl; [constructor | now apply insert_by_sorted].
Qed.

Lemma strip_prefix_app (p s r : string) :
  Fs.strip_prefix p s = Some r -> s = p +:+ r.
Proof.
  revert s. induction p as [|a p IH]; intros s; simpl.
  - now intros [= ->].
  - destruct s as [|b s]; [discriminate|].
    destruct (Ascii.eqb_spec a b) as [->|]; [|discriminate].
    intros H. now rewrite (IH _ H).
Qed.

Lemma contains_head (p s : string) :
  contains p s = false -> startswith p s = false.
Proof. destruct s; simpl; intros H; now apply orb_false_iff in H as [H _]. Qed.

(** the path of an entry is the directory joined with its name *)
Lemma entry_name_join (d path name : string) :
  d <> EmptyString ->
  Fs.entry_name d path = Some name -> path_join d name = path.
Proof.
  intros Hd. unfold Fs.entry_name.
  destruct (Fs.strip_prefix (Fs.dir_prefix d) path) as [n|] eqn:Es; [|discriminate].
  destruct (String.eqb n EmptyString || contains "/" n) eqn:Ec; [discriminate|].
  intros [= <-]. apply orb_false_iff in Ec as [_ Hc].
  apply strip_prefix_app in Es. subst path.
  unfold path_join, Fs.dir_prefix. rewrite (contains_head _ _ Hc).
  destruct (String.eqb_spec d EmptyString) as [|_]; [contradiction|]. simpl.
  destruct (endswith "/" d); [reflexivity|].
  now rewrite string_app_assoc.
Qed.

Lemma listdir_elem (d : string) (fs : fsys) (names : list string) (name : string) :
  Fs.listdir false d fs = Ok names ->
  name ∈ names <->
  exists path n, fs !! path = Some n /\ Fs.entry_name d path = Some name.
Proof.
  unfold Fs.listdir. simpl. destruct (String.eqb d EmptyString); [discriminate|].
  intros [= <-]. rewrite list_elem_of_omap. split.
  - intros ([path n] & Hin & He). apply elem_of_map_to_list in Hin.
    exists path, n. auto.
  - intros (path & n & Hl & He). exists (path, n).
    split; [now apply elem_of_map_to_list | exact He].
Qed.

(** the candidates: the regular files of the upload directory in [.csv] *)
Lemma list_csv_files_elem (o : options) (fs : fsys) (p : string) :
  upload_path o <> EmptyString ->
  p ∈ _list_csv_files false o fs <-> pending_csv o fs p.
Proof.
  intros Hd. unfold _list_csv_files, pending_csv.
  destruct (Fs.listdir false (upload_path o) fs) as [names|] eqn:El.
  - rewrite sort_by_perm. unfold csv_candidates.
    rewrite list_elem_of_filter, list_elem_of_fmap. split.
    + intros (Hf & name & -> & Hn). apply list_elem_of_filter in Hn as [Hc Hn].
      apply (listdir_elem _ _ _ _ El) in Hn as (path & n & Hl & He).
      rewrite (entry_name_join _ _ _ Hd He) in *.
      unfold Fs.isfile in Hf. rewrite Hl in Hf.
      destruct n as [c t|sz]; [|discriminate].
      exists name, c, t. auto.
    + intros (name & c & t & Hl & He & Hc). split.
      * unfold Fs.isfile. now rewrite Hl.
      * exists name. split; [symmetry; now apply entry_name_join|].
        apply list_elem_of_filter. split; [exact Hc|].
        apply (listdir_elem _ _ _ _ El). eauto.
  - exfalso. revert El. unfold Fs.listdir. simpl.
    destruct (String.eqb_spec (upload_path o) EmptyString); [contradiction|].
    discriminate.
Qed.

Lemma upload_all_log (o : options) (env : string -> upload_env) (l : list string) :
  forall acc,
    (fold_left (upload_step o env) l acc).2.*1 = acc.2.*1 ++ l.
Proof.
  induction l as [|f l IH]; intros acc; simpl.
  - now rewrite app_nil_r.
  - rewrite IH. unfold upload_step.
    destruct (_upload_file o (env f) f acc.1) as [r fs']. simpl.
    rewrite fmap_app. simpl. now rewrite <- app_assoc.
Qed.

End UploadFacts.

(** * C8, C4, C10: the pending files and their upload *)

Section UploadClaims.
Import PyStr.

Lemma NoDup_omap_inj {A B : Type} (f : A -> option B) (l : list A) :
  (forall x y b, x ∈ l -> y ∈ l -> f x = Some b -> f y = Some b -> x = y) ->
  NoDup l -> NoDup (omap f l).
Proof.
  induction l as [|x l IH]; intros Hinj Hnd; simpl; [constructor|].
  apply NoDup_cons in Hnd as [Hx Hnd].
  assert (Hl : NoDup (omap f l)).
  { apply IH; [|assumption]. intros y z b Hy Hz. apply Hinj; now right. }
  destruct (f x) as [b|] eqn:Ef; [|exact Hl].
  constructor; [|exact Hl].
  intros Hb. apply list_elem_of_omap in Hb as (y & Hy & Efy).
  assert (x = y) by (apply (Hinj x y b); [left | now right | assumption | assumption]).
  subst y. contradiction.
Qed.

Lemma entry_name_inj (d p1 p2 name : string) :
  Fs.entry_name d p1 = Some name -> Fs.entry_name d p2 = Some name -> p1 = p2.
Proof.
  unfold Fs.entry_name. intros H1 H2.
  destruct (Fs.strip_prefix (Fs.dir_prefix d) p1) as [n1|] eqn:E1; [|discriminate].
  destruct (Fs.strip_prefix (Fs.dir_prefix d) p2) as [n2|] eqn:E2; [|discriminate].
  destruct (_ || _); [discriminate|]. destruct (_ || _); [discriminate|].
  injection H1 as ->. injection H2 as ->.
  apply strip_prefix_app in E1, E2. congruence.
Qed.

Lemma listdir_NoDup (d : string) (fs : fsys) (names : list string) :
  Fs.listdir false d fs = Ok names -> NoDup names.
Proof.
  unfold Fs.listdir. simpl. destruct (String.eqb d EmptyString); [discriminate|].
  intros [= <-]. apply NoDup_omap_inj; [|apply NoDup_map_to_list].
  intros [p1 n1] [p2 n2] name H1 H2 E1 E2. simpl in *.
  apply elem_of_map_to_list in H1, H2.
  assert (p1 = p2) by (eapply entry_name_inj; eauto). subst p2.
  congruence.
Qed.

Lemma list_csv_files_NoDup (o : options) (fs : fsys) :
  upload_path o <> EmptyString -> NoDup (_list_csv_files false o fs).
Proof.
  intros Hd. unfold _list_csv_files.
  destruct (Fs.listdir false (upload_path o) fs) as [names|] eqn:El; [|constructor].
  rewrite sort_by_perm. unfold csv_candidates.
  apply NoDup_filter. apply NoDup_fmap_2_strong.
  - intros n1 n2 H1 H2 Hj.
    apply list_elem_of_filter in H1 as [_ H1], H2 as [_ H2].
    apply (listdir_elem _ _ _ _ El) in H1 as (p1 & m1 & _ & E1).
    apply (listdir_elem _ _ _ _ El) in H2 as (p2 & m2 & _ & E2).
    rewrite (entry_name_join _ _ _ Hd E1), (entry_name_join _ _ _ Hd E2) in Hj.
    subst p2. congruence.
  - apply NoDup_filter. eapply listdir_NoDup; eauto.
Qed.

(** C8.  When the listing of the upload directory does not raise,
    [_list_csv_files] returns exactly the regular files of that directory
    whose name ends in [.csv] (in any case of the letters), each once,
    sorted by modification time, the oldest first; a drain passes each of
    them to [_upload_file] in that order, whatever the uploads return. *)
Theorem pending_oldest_first :
  forall (o : options) (fs : fsys) (env : string -> upload_env),
    upload_path o <> EmptyString ->
    let pending := _list_csv_files false o fs in
    (forall p, p ∈ pending <-> pending_csv o fs p)
    /\ NoDup pending
    /\ StronglySorted (older fs) pending
    /\ (_upload_all false o env fs).2.*1 = pending.
Proof.
  intros o fs env Hd pending. split; [|split; [|split]].
  - intros p. now apply list_csv_files_elem.
  - now apply list_csv_files_NoDup.
  - subst pending. unfold _list_csv_files.
    destruct (Fs.listdir false (upload_path o) fs); [|constructor].
    apply sort_by_sorted.
  - unfold _upload_all. now rewrite upload_all_log.
Qed.

Lemma pending_oldest_first_witness :
  (_upload_all false Ex.opts
     (fun p => if String.eqb p Ex4.pending_b then Ex4.http500_env else Ex4.ok_env)
     Ex4.pending_fs).2.*1
  = _list_csv_files false Ex.opts Ex4.pending_fs.
Proof.
  apply (pending_oldest_first Ex.opts Ex4.pending_fs). discriminate.
Defined.

Lemma response_ok_true (e : upload_env) :
  response_ok e = true ->
  exists kv v, up_post e = Response 200 (Some (JObj kv))
               /\ PyVal.dict_get "success" kv = Some v /\ PyVal.truthy v = true.
Proof.
  unfold response_ok. destruct (up_post e) as [|status [j|]]; try discriminate.
  destruct j as [| | | | |kv]; try discriminate.
  intros H. apply andb_true_iff in H as [Hs Hv].
  apply Z.eqb_eq in Hs. subst status.
  destruct (PyVal.dict_get "success" kv) as [v|] eqn:Eg; [|discriminate].
  exists kv, v. auto.
Qed.

(** [_upload_file] when the upload did not succeed *)
Lemma upload_file_failed (o : options) (e : upload_env) (p : string) (fs : fsys) :
  credentials o = false \/ response_ok e = false ->
  _upload_file o e p fs = (false, fs).
Proof.
  unfold credentials, response_ok, _upload_file. intros [H | H].
  - apply andb_false_iff in H.
    destruct (String.eqb (wigle_name o) EmptyString),
             (String.eqb (wigle_api_token o) EmptyString); simpl in *;
      try reflexivity. now destruct H.
  - destruct (_ || _); [reflexivity|]. destruct (_ || _); [reflexivity|].
    destruct (up_post e) as [|status [j|]]; try reflexivity;
      destruct (status =? 200); try reflexivity.
    destruct j as [| | | | |kv]; try reflexivity.
    simpl in H. destruct (PyVal.dict_get "success" kv) as [v|]; [|reflexivity].
    now rewrite H.
Qed.

(** [_upload_file] when the upload succeeded and the holding area is
    there *)
Lemma upload_file_accepted (o : options) (e : upload_env) (p : string)
  (fs : fsys) (c : string) (t : Z) :
  credentials o = true -> response_ok e = true ->
  fs !! p = Some (File c t) ->
  up_open_raises e = false -> up_makedirs_raises e = false ->
  uploaded_path o <> EmptyString ->
  (forall c' t', fs !! uploaded_path o <> Some (File c' t')) ->
  exists fs1,
    _upload_file o e p fs = (true, dispose o e p fs1)
    /\ fs1 !! p = Some (File c t)
    /\ forall q, q <> uploaded_path o -> fs1 !! q = fs !! q.
Proof.
  intros Hcr Hok Hp Hopen Hmk Hup Hnf.
  apply response_ok_true in Hok as (kv & v & Hpost & Hget & Hv).
  unfold credentials in Hcr. apply andb_true_iff in Hcr as [H1 H2].
  apply negb_true_iff in H1, H2.
  unfold _upload_file. rewrite H1, H2, Hopen. simpl.
  unfold Fs.isfile. rewrite Hp. simpl. rewrite Hpost. simpl.
  rewrite Hget, Hv. unfold Fs.makedirs. rewrite Hmk. simpl.
  destruct (String.eqb_spec (uploaded_path o) EmptyString); [contradiction|].
  destruct (fs !! uploaded_path o) as [[c' t'|sz]|] eqn:Eu.
  - now destruct (Hnf c' t').
  - exists fs. auto.
  - exists (<[uploaded_path o := Other 0]> fs). split; [reflexivity|].
    assert (Hne : uploaded_path o <> p) by (intros Heq; rewrite Heq in Eu; congruence).
    split; [now rewrite lookup_insert_ne|].
    intros q Hq. now rewrite lookup_insert_ne.
Qed.

Lemma dispose_move_fails (o : options) (e : upload_env) (p : string) (fs : fsys) :
  up_move_raises e = true -> dispose o e p fs = fs.
Proof. intros H. unfold dispose, Fs.move. now rewrite H. Qed.

(** the file system after the move of [dispose] *)
Lemma dispose_moved (o : options) (e : upload_env) (p : string) (fs : fsys)
  (c : string) (t : Z) :
  fs !! p = Some (File c t) ->
  up_move_raises e = false ->
  (forall sz, fs !! uploaded_file_path o p <> Some (Other sz)) ->
  uploaded_file_path o p <> p ->
  let moved := <[uploaded_file_path o p := File c t]> (delete p fs) in
  dispose o e p fs =
  if remove_on_success o
  then if up_remove_raises e then moved else delete (uploaded_file_path o p) moved
  else moved.
Proof.
  intros Hp Hmv Hnodir Hne moved. unfold dispose, Fs.move.
  fold (uploaded_file_path o p). rewrite Hmv, Hp.
  destruct (fs !! uploaded_file_path o p) as [[c' t'|sz]|] eqn:Ed;
    [| now destruct (Hnodir sz) |].
  all: fold moved; destruct (remove_on_success o); [|reflexivity].
  all: unfold Fs.remove; destruct (up_remove_raises e); [reflexivity|].
  all: unfold moved at 1; now rewrite lookup_insert_eq.
Qed.

(** C4 (amended).  [_upload_file] returns a boolean and raises nothing.
    When the credentials are missing, or the file cannot be opened, or
    the request raises, or the status is not 200, or the body is not
    JSON, or is not an object, or its [success] is missing or not truthy,
    it returns [False] and leaves the file system as it was.  It does so
    as well when the upload was accepted and [os.makedirs] of the holding
    directory raises: the file stays in the pending directory.  When the
    upload succeeds (credentials, HTTP 200, truthy [success]) and the
    calls on the files do not raise, it returns [True], the file is no
    longer in the pending directory, and it is in the holding area
    exactly when [remove_on_success] is not set. *)
Theorem upload_outcomes :
  forall (o : options) (e : upload_env) (p : string) (fs : fsys),
    (credentials o = false \/ response_ok e = false ->
     _upload_file o e p fs = (false, fs))
    /\ ((wigle_name o = EmptyString \/ wigle_api_token o = EmptyString ->
         credentials o = false)
        /\ (up_post e = NetworkError -> response_ok e = false)
        /\ (forall status body,
              up_post e = Response status body -> status <> 200 ->
              response_ok e = false)
        /\ (forall status, up_post e = Response status None -> response_ok e = false)
        /\ (forall status v,
              up_post e = Response status (Some v) ->
              (forall kv, v <> JObj kv) -> response_ok e = false)
        /\ (forall status kv,
              up_post e = Response status (Some (JObj kv)) ->
              (forall v, PyVal.dict_get "success" kv = Some v ->
                         PyVal.truthy v = false) ->
              response_ok e = false))
    /\ (forall c t,
          credentials o = true -> response_ok e = true ->
          fs !! p = Some (File c t) ->
          up_open_raises e = false -> up_makedirs_raises e = false ->
          up_move_raises e = false -> up_remove_raises e = false ->
          uploaded_path o <> EmptyString ->
          (forall c' t', fs !! uploaded_path o <> Some (File c' t')) ->
          (forall sz, fs !! uploaded_file_path o p <> Some (Other sz)) ->
          uploaded_file_path o p <> p ->
          uploaded_file_path o p <> uploaded_path o ->
          let r := _upload_file o e p fs in
          r.1 = true
          /\ r.2 !! p = None
          /\ r.2 !! uploaded_file_path o p
             = if remove_on_success o then None else Some (File c t))
    /\ (up_open_raises e = true \/ Fs.isfile p fs = false ->
        _upload_file o e p fs = (false, fs))
    /\ (Fs.makedirs (up_makedirs_raises e) (uploaded_path o) fs = Raised ->
        _upload_file o e p fs = (false, fs))
    /\ (up_makedirs_raises e = true
        \/ uploaded_path o = EmptyString
        \/ (exists c' t', fs !! uploaded_path o = Some (File c' t')) ->
        Fs.makedirs (up_makedirs_raises e) (uploaded_path o) fs = Raised).
Proof.
  intros o e p fs. split; [apply upload_file_failed|]. split; [|split].
  - unfold credentials, response_ok. repeat split.
    + intros [-> | ->]; simpl; [reflexivity | apply andb_false_r].
    + now intros ->.
    + intros status body -> Hs. destruct body as [[]|]; try reflexivity.
      destruct (Z.eqb_spec status 200); [contradiction | reflexivity].
    + now intros status ->.
    + intros status v -> Hv. destruct v; try reflexivity. now destruct (Hv kv).
    + intros status kv -> Hv.
      destruct (PyVal.dict_get "success" kv) as [v|];
        [rewrite (Hv v eq_refl)|]; apply andb_false_r.
  - intros c t Hcr Hok Hp Hopen Hmk Hmv Hrm Hup Hnf Hnodir Hne Hneu r.
    destruct (upload_file_accepted o e p fs c t Hcr Hok Hp Hopen Hmk Hup Hnf)
      as (fs1 & Hr & Hp1 & Hq).
    subst r. rewrite Hr. simpl.
    rewrite (dispose_moved o e p fs1 c t Hp1 Hmv); [| |assumption].
    + rewrite Hrm. split; [reflexivity|].
      destruct (remove_on_success o).
      * split; [|apply lookup_delete_eq].
        rewrite lookup_delete_ne, lookup_insert_ne, lookup_delete_eq; auto.
      * split; [|apply lookup_insert_eq].
        rewrite lookup_insert_ne, lookup_delete_eq; auto.
    + intros sz. rewrite Hq by assumption. apply Hnodir.
  - split; [|split].
    + intros H. unfold _upload_file.
      destruct (_ || _); [reflexivity|].
      destruct H as [-> | ->]; [reflexivity|]. now rewrite orb_true_r.
    + intros H. unfold _upload_file.
      destruct (_ || _); [reflexivity|]. destruct (_ || _); [reflexivity|].
      destruct (up_post e) as [|status [j|]]; try reflexivity;
        destruct (status =? 200); try reflexivity.
      destruct j as [| | | | |kv]; try reflexivity.
      destruct (PyVal.dict_get "success" kv) as [v|]; [|reflexivity].
      destruct (PyVal.truthy v); [|reflexivity].
      now rewrite H.
    + unfold Fs.makedirs. intros [-> | [-> | (c' & t' & ->)]];
        [reflexivity | now rewrite orb_true_r |].
      now destruct (_ || _).
Qed.

Lemma upload_outcomes_witness :
  _upload_file Ex.opts Ex4.http500_env Ex4.pending_a Ex4.pending_fs
  = (false, Ex4.pending_fs)
  /\ (_upload_file Ex.opts Ex4.ok_env Ex4.pending_a Ex4.pending_fs).2
       !! Ex4.pending_a = None.
Proof.
  split.
  - destruct (upload_outcomes Ex.opts Ex4.http500_env Ex4.pending_a Ex4.pending_fs)
      as (H & _).
    apply H. right. reflexivity.
  - destruct (upload_outcomes Ex.opts Ex4.ok_env Ex4.pending_a Ex4.pending_fs)
      as (_ & _ & H & _).
    destruct (H "a" 20) as (_ & H2 & _);
      [ reflexivity | reflexivity | reflexivity | reflexivity | reflexivity
      | reflexivity | reflexivity | discriminate
      | intros c' t'; vm_compute; discriminate
      | intros sz; vm_compute; discriminate
      | discriminate | discriminate | exact H2 ].
Defined.

(** C4, as stated, fails where [os.makedirs] of the holding directory
    raises: the upload is accepted (credentials, HTTP 200, a truthy
    [success]), yet [_upload_file] returns [False] and the file is
    neither moved nor removed. *)
Lemma accepted_upload_reported_failed :
  credentials Ex.opts = true
  /\ response_ok Ex5.makedirs_fails_env = true
  /\ Fs.isfile Ex4.pending_a Ex4.pending_fs = true
  /\ _upload_file Ex.opts Ex5.makedirs_fails_env Ex4.pending_a Ex4.pending_fs
     = (false, Ex4.pending_fs).
Proof. repeat split; reflexivity. Qed.

(** C10 (amended).  When the upload succeeds and the move of the file
    into the holding area raises, [_upload_file] returns [True] and the
    file stays in the pending directory, so that the next drain lists it
    and uploads it again.  When the move succeeds and the removal from
    the holding area raises, [_upload_file] returns [True] as well, but
    the file is then in the holding area and no longer pending: no later
    drain uploads it. *)
Theorem accepted_upload_not_disposed :
  forall (o : options) (e : upload_env) (p : string) (fs : fsys)
         (c : string) (t : Z),
    credentials o = true -> response_ok e = true ->
    fs !! p = Some (File c t) ->
    up_open_raises e = false -> up_makedirs_raises e = false ->
    uploaded_path o <> EmptyString ->
    upload_path o <> EmptyString ->
    (forall c' t', fs !! uploaded_path o <> Some (File c' t')) ->
    let r := _upload_file o e p fs in
    (up_move_raises e = true ->
       r.1 = true
       /\ r.2 !! p = Some (File c t)
       /\ (pending_csv o fs p ->
           forall env', p ∈ (_upload_all false o env' r.2).2.*1))
    /\ (up_move_raises e = false -> remove_on_success o = true ->
        up_remove_raises e = true ->
        (forall sz, fs !! uploaded_file_path o p <> Some (Other sz)) ->
        uploaded_file_path o p <> p ->
        uploaded_file_path o p <> uploaded_path o ->
        r.1 = true
        /\ r.2 !! p = None
        /\ r.2 !! uploaded_file_path o p = Some (File c t)
        /\ forall env', p ∉ (_upload_all false o env' r.2).2.*1).
Proof.
  intros o e p fs c t Hcr Hok Hp Hopen Hmk Hup Hupl Hnf r.
  destruct (upload_file_accepted o e p fs c t Hcr Hok Hp Hopen Hmk Hup Hnf)
    as (fs1 & Hr & Hp1 & Hq).
  subst r. rewrite Hr. simpl. split.
  - intros Hmv. rewrite dispose_move_fails by assumption.
    split; [reflexivity|]. split; [exact Hp1|].
    intros (name & c0 & t0 & _ & He & Hc) env'.
    unfold _upload_all. rewrite upload_all_log. simpl.
    apply list_csv_files_elem; [assumption|].
    exists name, c, t. auto.
  - intros Hmv Hros Hrm Hnodir Hne Hneu.
    rewrite (dispose_moved o e p fs1 c t Hp1 Hmv); [| |assumption].
    + rewrite Hros, Hrm. split; [reflexivity|].
      assert (Hgone : (<[uploaded_file_path o p := File c t]> (delete p fs1)) !! p
                      = None).
      { rewrite lookup_insert_ne, lookup_delete_eq; auto. }
      split; [exact Hgone|]. split; [apply lookup_insert_eq|].
      intros env'. unfold _upload_all. rewrite upload_all_log. simpl.
      rewrite list_csv_files_elem by assumption.
      intros (name & c0 & t0 & Hl & _). congruence.
    + intros sz. rewrite Hq by assumption. apply Hnodir.
Qed.

Lemma accepted_upload_not_disposed_witness :
  let r := _upload_file Ex.opts Ex4.move_fails_env Ex4.pending_a Ex4.pending_fs in
  r.1 = true /\ r.2 !! Ex4.pending_a = Some (File "a" 20).
Proof.
  intros r.
  destruct (accepted_upload_not_disposed Ex.opts Ex4.move_fails_env
              Ex4.pending_a Ex4.pending_fs "a" 20) as (H & _);
    [ reflexivity | reflexivity | reflexivity | reflexivity | reflexivity
    | discriminate | discriminate
    | intros c' t'; vm_compute; discriminate | ].
  destruct H as (H1 & H2 & _); [reflexivity|]. split; assumption.
Defined.

(** C10, as stated, fails where the removal is what raises: the upload
    returns [True], yet the file is not in the pending directory any
    more (it is in the holding area) and the next listing does not have
    it. *)
Lemma removal_failure_leaves_holding_area :
  let r := _upload_file Ex.opts Ex4.remove_fails_env Ex4.pending_a Ex4.pending_fs in
  r.1 = true
  /\ r.2 !! Ex4.pending_a = None
  /\ r.2 !! Ex4.done_a = Some (File "a" 20)
  /\ _list_csv_files false Ex.opts r.2 = [Ex4.pending_b].
Proof. vm_compute. repeat split. Qed.

End UploadClaims.

(** * C5: the drain lock *)

Section DrainLock.
Import Drain.

Lemma batches_insert (l : list pc) :
  forall (i : nat) (x y : pc),
    l !! i = Some y ->
    (length (filter (fun p => in_batch p = true) (<[i := x]> l)) + b2n (in_batch y)
     = length (filter (fun p => in_batch p = true) l) + b2n (in_batch x))%nat.
Proof.
  induction l as [|z l IH]; intros i x y Hl; [discriminate|].
  destruct i as [|i]; simpl in *.
  - injection Hl as ->. rewrite !filter_cons.
    destruct (decide (in_batch x = true)) as [Hx|Hx],
             (decide (in_batch y = true)) as [Hy|Hy]; simpl;
      try rewrite Hx; try rewrite Hy;
      try (apply not_true_is_false in Hx; rewrite Hx);
      try (apply not_true_is_false in Hy; rewrite Hy); simpl; lia.
  - rewrite !filter_cons. specialize (IH i x y Hl).
    destruct (decide (in_batch z = true)); simpl; lia.
Qed.

Lemma start_inv (n : nat) : lock_inv (start n).
Proof.
  unfold lock_inv, batches, start. simpl.
  induction n as [|n IH]; simpl; [reflexivity|].
  rewrite filter_cons. simpl. destruct (decide (false = true)); [discriminate|].
  exact IH.
Qed.

Lemma step_inv (i : nat) (s s' : sys) :
  lock_inv s -> step_thread i s = Some s' -> lock_inv s'.
Proof.
  unfold lock_inv, batches, step_thread. intros Hinv.
  destruct (threads s !! i) as [[]|] eqn:Et; try discriminate.
  - intros [= <-]. simpl.
    pose proof (batches_insert (threads s) i
                  (if locked s then Skipped else AtWith) AtLockedTest Et) as H.
    destruct (locked s); simpl in *; lia.
  - destruct (locked s) eqn:El; [discriminate|]. intros [= <-]. simpl.
    pose proof (batches_insert (threads s) i InBatch AtWith Et) as H.
    simpl in *. lia.
  - intros [= <-]. simpl.
    pose proof (batches_insert (threads s) i Completed InBatch Et) as H.
    destruct (locked s); simpl in *; lia.
Qed.

Lemma run_inv (sched : list nat) : forall s, lock_inv s -> lock_inv (run sched s).
Proof.
  unfold run. induction sched as [|i sched IH]; intros s Hs; simpl; [exact Hs|].
  apply IH. unfold run_step.
  destruct (step_thread i s) as [s'|] eqn:E; [eapply step_inv; eauto | exact Hs].
Qed.

(** under every schedule at most one thread uploads at any time *)
Lemma at_most_one_batch (n : nat) (sched : list nat) :
  (batches (run sched (start n)) <= 1)%nat.
Proof.
  pose proof (run_inv sched (start n) (start_inv n)) as H.
  unfold lock_inv in H. destruct (locked _); simpl in H; lia.
Qed.

(** a trigger that tests the lock while a drain holds it returns at once *)
Lemma test_while_locked (i : nat) (s : sys) :
  threads s !! i = Some AtLockedTest -> locked s = true ->
  step_thread i s
  = Some {| locked := true; threads := <[i := Skipped]> (threads s) |}.
Proof. intros Ht Hl. unfold step_thread. now rewrite Ht, Hl. Qed.

(** C5, at the failing schedule.  Two triggers: both test the lock
    before either takes it.  The first enters its batch; the second is
    not dropped: it waits at [with self._uploader_lock] while the first
    uploads, and runs a batch of its own once the lock is free. *)
Theorem second_trigger_waits :
  run [0; 1; 0]%nat (start 2) = {| locked := true; threads := [InBatch; AtWith] |}
  /\ step_thread 1 {| locked := true; threads := [InBatch; AtWith] |} = None
  /\ run [0; 1; 0; 1; 0; 1]%nat (start 2)
     = {| locked := true; threads := [Completed; InBatch] |}
  /\ run [0; 1; 0; 1; 0; 1; 1]%nat (start 2)
     = {| locked := false; threads := [Completed; Completed] |}.
Proof. repeat split. Qed.

End DrainLock.

Example second_trigger_dropped :
  Drain.run [0; 0; 1; 0; 1]%nat (Drain.start 2)
  = {| Drain.locked := false; Drain.threads := [Drain.Completed; Drain.Skipped] |}.
Proof. reflexivity. Qed.

(** * Examples *)

(** an address discovered twice in one file epoch gives one row *)
Example one_row_per_epoch :
  let s := scan_ticks Ex.lib Ex.opts [Ex2.tick; Ex2.tick_later] Ex2.fresh in
  (fun row => row !! 0%nat) <$> Ex2.records_at (devices_file Ex.opts) s.2
  = [Some "WigleWifi-1.6"; Some "MAC"; Some "AA:BB:CC:11:22:33"].
Proof. vm_compute. reflexivity. Qed.

(** after a rollover the same address gives a new row in the new epoch:
    with a threshold of ten bytes each tick ends with a rollover, and
    each rolled file has its row *)
Example new_row_after_rollover :
  let s := scan_ticks Ex.lib Ex.small_opts [Ex2.tick; Ex2.tick_later] Ex2.fresh in
  (fun row => row !! 0%nat)
    <$> Ex2.records_at "/root/handshakes/toupload/bluetooth_devices_20240101_120000.csv" s.2
  = [Some "WigleWifi-1.6"; Some "MAC"; Some "AA:BB:CC:11:22:33"]
  /\ (fun row => row !! 3%nat)
       <$> Ex2.records_at "/root/handshakes/toupload/bluetooth_devices_20240101_120100.csv" s.2
     = [Some "release=jayofelony"; Some "FirstSeen"; Some "2024-01-01 12:01:00"]
  /\ Ex2.records_at (devices_file Ex.small_opts) s.2 = [pre_fields; header]
  /\ s.1 = ∅.
Proof. vm_compute. repeat split. Qed.

(** a name with a comma and a quote is quoted by the writer and read back *)
Example quoted_name_round_trip :
  let name := "Bob, " +:+ String Csv.DQ "the" +:+ String Csv.DQ " phone" in
  Csv.csv_reader (Csv.writerow ["AA:BB"; name; EmptyString])
  = ([["AA:BB"; name; EmptyString]], false).
Proof. vm_compute. reflexivity. Qed.

(** a TPV message with a field that [float] rejects: the exception leaves
    [get_gps_coords] *)
Example tpv_null_altitude_raises :
  get_gps_coords Ex3.null_alt_lib
    {| connect_raises := false; recvs := [RecvChunk ("x" +:+ Ex3.nl)] |}
  = Raised.
Proof. reflexivity. Qed.

(** the pending files of the example, the oldest first; the directory
    [sub.csv] and the file [notes.txt] are not candidates *)
Example pending_example :
  _list_csv_files false Ex.opts Ex4.pending_fs = [Ex4.pending_b; Ex4.pending_a].
Proof. vm_compute. reflexivity. Qed.

(** a failed upload does not stop the drain: the older file gets HTTP 500
    and stays, the next one is uploaded and removed *)
Example drain_example :
  let r := _upload_all false Ex.opts
             (fun p => if String.eqb p Ex4.pending_b
                       then Ex4.http500_env else Ex4.ok_env)
             Ex4.pending_fs in
  r.2 = [(Ex4.pending_b, false); (Ex4.pending_a, true)]
  /\ _list_csv_files false Ex.opts r.1 = [Ex4.pending_b].
Proof. vm_compute. repeat split. Qed.

(** * The periodic callback *)

Section UiUpdate.

Variable L : pylib.
Variable o : options.
Variable uo : ui_options.

Lemma elapsed_false (interval : Z) (now last : Q) :
  (now - last < inject_Z interval)%Q -> elapsed interval now last = false.
Proof.
  intros Hlt. unfold elapsed.
  destruct (Qle_bool (inject_Z interval) (now - last)) eqn:E; [|reflexivity].
  apply Qle_bool_iff in E. exfalso. revert E. apply Qlt_not_le, Hlt.
Qed.

Lemma elapsed_true (interval : Z) (now last : Q) :
  (inject_Z interval <= now - last)%Q -> elapsed interval now last = true.
Proof. intros Hle. unfold elapsed. apply Qle_bool_iff, Hle. Qed.

(** what a call leaves when the scan timer has not elapsed *)
Lemma on_ui_update_no_scan (e : ui_env) (s : plugin) :
  elapsed (timer uo) (ui_now e) (last_scan_time s) = false ->
  let r := on_ui_update L o uo e s in
  bt_shown r.2 = None
  /\ p_data r.1 = p_data s /\ p_files r.1 = p_files s
  /\ last_scan_time r.1 = last_scan_time s.
Proof.
  intros Hno. unfold on_ui_update. rewrite Hno.
  destruct (elapsed (upload_check_interval uo) _ _); simpl; auto.
Qed.

(** what a call leaves when the scan timer has elapsed *)
Lemma on_ui_update_scan (e : ui_env) (s : plugin) :
  elapsed (timer uo) (ui_now e) (last_scan_time s) = true ->
  let r := on_ui_update L o uo e s in
  bt_shown r.2 = Some (bt_sniff_info (p_data s))
  /\ (p_data r.1, p_files r.1)
     = (scan_tick L o (ui_scan e) (p_data s, p_files s)).2
  /\ last_scan_time r.1 = ui_now e.
Proof.
  intros Hdue. unfold on_ui_update. rewrite Hdue.
  destruct (elapsed (upload_check_interval uo) _ _); simpl;
    (split; [reflexivity|split; [|reflexivity]]);
    destruct (scan_tick L o (ui_scan e) (p_data s, p_files s)) as [b [d fs]];
    reflexivity.
Qed.

Lemma on_ui_update_check_time (e : ui_env) (s : plugin) :
  _last_upload_check (on_ui_update L o uo e s).1
  = if elapsed (upload_check_interval uo) (ui_now e) (_last_upload_check s)
    then ui_now e else _last_upload_check s.
Proof.
  unfold on_ui_update.
  destruct (elapsed (upload_check_interval uo) _ _); simpl; [reflexivity|].
  destruct (elapsed (timer uo) _ _); reflexivity.
Qed.

Lemma ui_run_cons (e : ui_env) (es : list ui_env) (s : plugin) :
  ui_run L o uo (e :: es) s
  = ((ui_run L o uo es (on_ui_update L o uo e s).1).1,
     (on_ui_update L o uo e s).2
       :: (ui_run L o uo es (on_ui_update L o uo e s).1).2).
Proof.
  simpl. destruct (on_ui_update L o uo e s) as [s1 out].
  simpl. destruct (ui_run L o uo es s1); reflexivity.
Qed.

(** calls made before the scan timer elapses do not scan *)
Lemma ui_run_no_scan (t : Q) (es : list ui_env) :
  forall s,
    last_scan_time s = t ->
    Forall (fun e' => (ui_now e' - t < inject_Z (timer uo))%Q) es ->
    let r := ui_run L o uo es s in
    Forall (fun out => bt_shown out = None) r.2
    /\ p_data r.1 = p_data s /\ p_files r.1 = p_files s
    /\ last_scan_time r.1 = t.
Proof.
  induction es as [|e es IH]; intros s Ht Hall.
  - simpl. repeat split; auto.
  - apply Forall_cons in Hall as [He Hes].
    rewrite ui_run_cons. cbv zeta. simpl.
    assert (Hno : elapsed (timer uo) (ui_now e) (last_scan_time s) = false)
      by (rewrite Ht; apply elapsed_false, He).
    destruct (on_ui_update_no_scan e s Hno) as (Hs & Hd & Hf & Hl).
    destruct (IH (on_ui_update L o uo e s).1) as (Ha & Hd' & Hf' & Hl').
    { rewrite Hl. exact Ht. }
    { exact Hes. }
    repeat split.
    + constructor; assumption.
    + rewrite Hd'. exact Hd.
    + rewrite Hf'. exact Hf.
    + exact Hl'.
Qed.

(** X1. After a call that scans at time [t], no call made before
    [t + timer] scans, whatever the number of such calls: they show
    nothing and leave the ledger and the files as they are; and the first
    call made at [t + timer] or later scans again, showing the number of
    addresses in the ledger. *)
Theorem scans_are_spaced (e : ui_env) (es : list ui_env) (s : plugin) :
  is_Some (bt_shown (on_ui_update L o uo e s).2) ->
  Forall (fun e' => (ui_now e' - ui_now e < inject_Z (timer uo))%Q) es ->
  let s1 := (on_ui_update L o uo e s).1 in
  let r := ui_run L o uo es s1 in
  Forall (fun out => bt_shown out = None) r.2
  /\ p_data r.1 = p_data s1
  /\ p_files r.1 = p_files s1
  /\ forall e',
       (inject_Z (timer uo) <= ui_now e' - ui_now e)%Q ->
       bt_shown (on_ui_update L o uo e' r.1).2
       = Some (bt_sniff_info (p_data s1)).
Proof.
  intros Hshown Hall s1 r.
  assert (Hdue : elapsed (timer uo) (ui_now e) (last_scan_time s) = true).
  { destruct (elapsed (timer uo) (ui_now e) (last_scan_time s)) eqn:E; [reflexivity|].
    destruct (on_ui_update_no_scan e s E) as (Hn & _).
    rewrite Hn in Hshown. destruct Hshown as [x Hx]. discriminate. }
  destruct (on_ui_update_scan e s Hdue) as (_ & _ & Hl).
  destruct (ui_run_no_scan (ui_now e) es s1 Hl Hall) as (Ha & Hd & Hf & Hl').
  repeat split; try assumption.
  intros e' Hle.
  assert (Hdue' : elapsed (timer uo) (ui_now e') (last_scan_time r.1) = true).
  { subst r. rewrite Hl'. apply elapsed_true, Hle. }
  destruct (on_ui_update_scan e' r.1 Hdue') as (Hs' & _).
  rewrite Hs'. subst r. rewrite Hd. reflexivity.
Qed.

(** calls made before the upload timer elapses start no thread *)
Lemma ui_run_no_check (t : Q) (es : list ui_env) :
  forall s,
    _last_upload_check s = t ->
    Forall (fun e' => (ui_now e' - t < inject_Z (upload_check_interval uo))%Q) es ->
    let r := ui_run L o uo es s in
    Forall (fun out => upload_started out = false) r.2
    /\ _last_upload_check r.1 = t.
Proof.
  induction es as [|e es IH]; intros s Ht Hall.
  - simpl. split; auto.
  - apply Forall_cons in Hall as [He Hes].
    rewrite ui_run_cons. cbv zeta. simpl.
    assert (Hno : elapsed (upload_check_interval uo) (ui_now e)
                    (_last_upload_check s) = false)
      by (rewrite Ht; apply elapsed_false, He).
    assert (Hc := on_ui_update_check_time e s). rewrite Hno in Hc.
    destruct (IH (on_ui_update L o uo e s).1) as (Ha & Hl).
    { rewrite Hc. exact Ht. }
    { exact Hes. }
    split; [|exact Hl].
    constructor; [|exact Ha].
    unfold on_ui_update. rewrite Hno. reflexivity.
Qed.

(** X2. A call starts an upload thread exactly when the upload timer has
    elapsed, the pending directory, as the scan of the same call leaves
    it, lists a file, and the request to the WiGLE site answers 200.
    Whatever the outcome of a check made at time [t], no call made before
    [t + upload_check_interval] starts a thread: a check that found no
    connection is repeated only after a full interval. *)
Theorem upload_check_is_spaced (e : ui_env) (es : list ui_env) (s : plugin) :
  let r1 := on_ui_update L o uo e s in
  (upload_started r1.2 = true <->
     elapsed (upload_check_interval uo) (ui_now e) (_last_upload_check s) = true
     /\ _list_csv_files (ui_listdir_raises e) o (p_files r1.1) <> []
     /\ ui_get e = GetStatus 200)
  /\ (elapsed (upload_check_interval uo) (ui_now e) (_last_upload_check s) = true ->
      Forall (fun e' =>
                (ui_now e' - ui_now e < inject_Z (upload_check_interval uo))%Q) es ->
      Forall (fun out => upload_started out = false)
        (ui_run L o uo es r1.1).2).
Proof.
  intros r1. split.
  - subst r1. unfold on_ui_update.
    destruct (elapsed (upload_check_interval uo) _ _) eqn:Hc; simpl.
    + destruct (_list_csv_files _ _ _) as [|f fs'] eqn:Hp.
      * split; [discriminate|]. intros (_ & Hne & _). contradiction.
      * unfold _check_internet. destruct (ui_get e) as [|status].
        -- split; [discriminate|]. intros (_ & _ & Hg). discriminate.
        -- split.
           ++ intros Hs. apply Z.eqb_eq in Hs. subst status.
              repeat split; [discriminate].
           ++ intros (_ & _ & Hg). injection Hg as ->. reflexivity.
    + split; [discriminate|]. intros (Hf & _). discriminate.
  - intros Hdue Hall.
    assert (Hc := on_ui_update_check_time e s). rewrite Hdue in Hc.
    destruct (ui_run_no_check (ui_now e) es r1.1 Hc Hall) as (Ha & _).
    exact Ha.
Qed.

(** a report of class TPV whose altitude or error estimate is [null] *)
Lemma get_gps_coords_null (e : gps_env) (kv : list (string * json)) :
  gps_data L e = Some kv ->
  PyVal.dict_get "altMSL" kv = Some JNull
  \/ PyVal.dict_get "epx" kv = Some JNull ->
  get_gps_coords L e = Raised.
Proof.
  intros Hd Hnull. unfold get_gps_coords. rewrite Hd.
  destruct kv as [|b kv']; [destruct Hnull as [H|H]; discriminate|].
  destruct (PyConv.py_float L (PyVal.or_else (get_or "lat" _ _) _)); [|reflexivity].
  destruct (PyConv.py_float L (PyVal.or_else (get_or "lon" _ _) _)); [|reflexivity].
  destruct Hnull as [H|H].
  - unfold get_or at 1. rewrite H. reflexivity.
  - destruct (PyConv.py_float L (get_or "altMSL" _ _)); [|reflexivity].
    unfold get_or at 1. rewrite H. reflexivity.
Qed.

(** X3. When gpsd sends a report of class TPV in which [altMSL] or [epx]
    is [null], the conversion [float(None)] raises outside the [try] of
    [get_gps_coords]: [scan] raises before it reads the devices, and the
    callback logs the exception.  The tick writes no row, records no
    address and does not roll the file over, and the scan timer is
    restarted all the same. *)
Theorem null_altitude_loses_the_tick (e : ui_env) (s : plugin)
  (kv : list (string * json)) :
  gps_data L (gps (ui_scan e)) = Some kv ->
  PyVal.dict_get "altMSL" kv = Some JNull
  \/ PyVal.dict_get "epx" kv = Some JNull ->
  elapsed (timer uo) (ui_now e) (last_scan_time s) = true ->
  scan L o (ui_scan e) (p_data s) (p_files s) = Raised
  /\ let r := on_ui_update L o uo e s in
     p_data r.1 = p_data s
     /\ p_files r.1 = p_files s
     /\ last_scan_time r.1 = ui_now e.
Proof.
  intros Hd Hnull Hdue.
  assert (Hs : scan L o (ui_scan e) (p_data s) (p_files s) = Raised).
  { unfold scan. rewrite (get_gps_coords_null _ kv Hd Hnull). reflexivity. }
  split; [exact Hs|].
  destruct (on_ui_update_scan e s Hdue) as (_ & Hst & Hl).
  unfold scan_tick in Hst. simpl in Hst. rewrite Hs in Hst.
  simpl in Hst. injection Hst as Hd' Hf'.
  repeat split; assumption.
Qed.

(** the ledger holds at least the addresses of the rows of the file *)
Lemma rows_counted (d : ledger) (rows : list (list string)) :
  NoDup (row_addr <$> rows) ->
  (forall row, row ∈ rows -> is_Some (d !! row_addr row)) ->
  (length rows <= size d)%nat.
Proof.
  intros Hnd Hin.
  rewrite <- (length_fmap row_addr rows), <- (size_list_to_set (C := gset string))
    by exact Hnd.
  rewrite <- size_dom. apply subseteq_size.
  intros mac Hm. apply elem_of_list_to_set, list_elem_of_fmap in Hm as (row & -> & Hr).
  apply elem_of_dom. now apply Hin.
Qed.

(** X22. The number that a scanning call shows is the number of
    addresses in the ledger before the scan of that call, not after it.
    When the ledger holds the address of every row of the active file
    (the invariant that the ticks keep; a load that fails or meets a
    file without header leaves an empty ledger beside the rows), that
    number is not below the number of rows that the active file holds at
    that time.  At the first scanning call after a tick that rolled the
    file over it is 0. *)
Theorem shown_count_is_the_ledger_before (e : ui_env) (s : plugin) :
  elapsed (timer uo) (ui_now e) (last_scan_time s) = true ->
  let r := on_ui_update L o uo e s in
  bt_shown r.2 = Some (pretty (size (p_data s)))
  /\ (no_duplicate_rows o (p_data s, p_files s) ->
      exists h rows,
        active_content o (p_files s) = head_text h +:+ rows_text rows
        /\ (length rows <= size (p_data s))%nat)
  /\ ((scan_tick L o (ui_scan e) (p_data s, p_files s)).1 = true ->
      forall e',
        elapsed (timer uo) (ui_now e') (last_scan_time r.1) = true ->
        bt_shown (on_ui_update L o uo e' r.1).2 = Some "0").
Proof.
  intros Hdue r.
  destruct (on_ui_update_scan e s Hdue) as (Hs & Hst & _).
  split; [exact Hs|]. split.
  - intros (h & rows & Hc & _ & Hnd & Hin).
    exists h, rows. split; [exact Hc|]. now apply rows_counted.
  - intros Hroll e' Hdue'.
    destruct (on_ui_update_scan e' r.1 Hdue') as (Hs' & _).
    rewrite Hs'. fold r in Hst.
    assert (Hd : p_data r.1 = ∅).
    { unfold scan_tick, scan in Hroll, Hst. cbn [fst snd] in Hroll, Hst.
      destruct (get_gps_coords L (gps (ui_scan e))); [|discriminate].
      destruct (String.eqb _ _).
      - unfold check_rollover in Hroll, Hst.
        destruct (ensure_upload_dir _ _ _); [|discriminate].
        destruct (_ !! devices_file o); [|discriminate].
        destruct (_ <=? _); [|discriminate].
        destruct (Fs.move _ _ _ _); [|discriminate].
        now injection Hst.
      - unfold check_rollover in Hroll, Hst.
        destruct (ensure_upload_dir _ _ _); [|discriminate].
        destruct (_ !! devices_file o); [|discriminate].
        destruct (_ <=? _); [|discriminate].
        destruct (Fs.move _ _ _ _); [|discriminate].
        now injection Hst. }
    rewrite Hd. reflexivity.
Qed.

End UiUpdate.

(** * Starting again on the files of an earlier run *)

Section Restart.
Import PyStr Csv.

Lemma omap_stored (rows : list (list string)) :
  Forall stored_as_written rows -> omap load_addr rows = row_addr <$> rows.
Proof.
  induction 1 as [|row rows Hrow _ IH]; [reflexivity|].
  change (omap load_addr (row :: rows))
    with (match load_addr row with
          | Some y => y :: omap load_addr rows
          | None => omap load_addr rows
          end).
  rewrite Hrow, IH. reflexivity.
Qed.

Lemma load_addr_stored (rows : list (list string)) :
  Forall stored_as_written rows ->
  load_addr <$> rows = Some <$> (row_addr <$> rows).
Proof.
  induction 1 as [|row rows Hrow _ IH]; [reflexivity|].
  rewrite !fmap_cons, IH, Hrow. reflexivity.
Qed.

(** the three directories are created beside what exists *)
Lemma on_loaded_dirs (e : loaded_env) (o o' : options) (fs fs' : fsys)
  (d : ledger) :
  on_loaded e o fs = Ok (o', d, fs') ->
  o' = set_blacklist (upper <$> blacklist o) o
  /\ exists fs2,
       (forall p n, fs !! p = Some n -> fs2 !! p = Some n)
       /\ (forall p, p <> dirname (devices_file o) -> p <> upload_path o ->
                     p <> uploaded_path o -> fs2 !! p = fs !! p)
       /\ ((fs2 !! devices_file o = None
            /\ d = ∅
            /\ fs' = write_csv_header (loaded_header_raises e)
                       (loaded_header_time e) o' fs2)
           \/ (is_Some (fs2 !! devices_file o)
               /\ d = _load_existing_devices (loaded_load e) o' fs2 ∅
               /\ fs' = fs2)).
Proof.
  unfold on_loaded. simpl. intros H.
  destruct (Fs.makedirs _ (dirname _) fs) as [fsa|] eqn:Ea; [|discriminate].
  destruct (Fs.makedirs _ (upload_path o) fsa) as [fsb|] eqn:Eb; [|discriminate].
  destruct (Fs.makedirs _ (uploaded_path o) fsb) as [fsc|] eqn:Ec; [|discriminate].
  assert (Hkeep : forall r p fs0 fs1,
             Fs.makedirs r p fs0 = Ok fs1 ->
             forall q n, fs0 !! q = Some n -> fs1 !! q = Some n).
  { intros r p fs0 fs1 Hm q n Hq.
    apply makedirs_lookup in Hm as [Ho [->|[Hnone ->]]]; [exact Hq|].
    destruct (decide (q = p)) as [->|Hne]; [congruence|].
    now rewrite lookup_insert_ne by congruence. }
  assert (Hinc : forall p n, fs !! p = Some n -> fsc !! p = Some n).
  { intros p n Hp.
    apply (Hkeep _ _ _ _ Ec), (Hkeep _ _ _ _ Eb), (Hkeep _ _ _ _ Ea), Hp. }
  assert (Hoth : forall p, p <> dirname (devices_file o) -> p <> upload_path o ->
                           p <> uploaded_path o -> fsc !! p = fs !! p).
  { intros p H1 H2 H3.
    apply makedirs_lookup in Ea as [Ha _], Eb as [Hb _], Ec as [Hc _].
    now rewrite Hc, Hb, Ha. }
  unfold Fs.exists_ in H.
  destruct (fsc !! devices_file o) as [n|] eqn:En; simpl in H;
    injection H as <- <- <-; (split; [reflexivity|]); exists fsc;
    (split; [exact Hinc|]); (split; [exact Hoth|]).
  - right. rewrite En. split; [now eexists|]. split; reflexivity.
  - left. rewrite En. split; [reflexivity|]. split; reflexivity.
Qed.

(** X4. [on_loaded] never removes or changes what it finds: every file
    and directory that exists before the call is the same after it.  In
    particular an active file that exists is never written anew: the
    header is written only at a path where nothing is. *)
Theorem on_loaded_keeps_what_exists (e : loaded_env) (o o' : options)
  (fs fs' : fsys) (d : ledger) :
  on_loaded e o fs = Ok (o', d, fs') ->
  (forall p n, fs !! p = Some n -> fs' !! p = Some n)
  /\ devices_file o' = devices_file o
  /\ (is_Some (fs !! devices_file o) ->
      fs' !! devices_file o = fs !! devices_file o).
Proof.
  intros H. apply on_loaded_dirs in H as (-> & fs2 & Hinc & _ & Hcase).
  assert (Hall : forall p n, fs !! p = Some n -> fs' !! p = Some n).
  { intros p n Hp. specialize (Hinc p n Hp).
    destruct Hcase as [(Hnone & _ & ->)|(_ & _ & ->)]; [|exact Hinc].
    unfold write_csv_header, Fs.write_text. simpl.
    destruct (loaded_header_raises e); [exact Hinc|].
    rewrite Hnone.
    destruct (decide (p = devices_file o)) as [->|Hne]; [congruence|].
    now rewrite lookup_insert_ne by congruence. }
  split; [exact Hall|]. split; [reflexivity|].
  intros [n Hn]. rewrite Hn. now apply Hall.
Qed.

(** X5. When the active file is the header followed by rows with
    pairwise distinct addresses, each of them stored under its own
    address, the state in which [on_loaded] leaves the plugin satisfies
    the invariant of the scan: the ledger holds exactly the addresses of
    the rows.  Hence no later sequence of scan ticks writes a second row
    for an address that the file already holds. *)
Theorem restart_keeps_rows_unique (L : pylib) (e : loaded_env) (o o' : options)
  (fs fs' : fsys) (d : ledger) (t : Z) (rows : list (list string)) :
  on_loaded e o fs = Ok (o', d, fs') ->
  fs !! devices_file o = Some (File (header_text +:+ rows_text rows) t) ->
  load_open_raises (loaded_load e) = false ->
  NoDup (row_addr <$> rows) ->
  Forall stored_as_written rows ->
  (forall mac, is_Some (d !! mac) <-> mac ∈ row_addr <$> rows)
  /\ size d = length rows
  /\ no_duplicate_rows o' (d, fs')
  /\ forall es,
       Forall (fun se => rolled_path o' (roll_ts (roll se)) <> devices_file o') es ->
       no_duplicate_rows o' (scan_ticks L o' es (d, fs')).
Proof.
  intros H Hfile Hopen Hnd Hst.
  apply on_loaded_dirs in H as (-> & fs2 & Hinc & _ & Hcase).
  specialize (Hinc _ _ Hfile).
  destruct Hcase as [(Hnone & _)|(_ & -> & ->)]; [congruence|].
  set (o' := set_blacklist (upper <$> blacklist o) o).
  assert (Hd : forall mac,
             _load_existing_devices (loaded_load e) o' fs2 ∅ !! mac
             = load_stamp (loaded_load e) mac <$> first_row mac rows).
  { intros mac. now apply (load_existing_lookup _ o' fs2 t). }
  assert (Hdom : forall mac,
             is_Some (_load_existing_devices (loaded_load e) o' fs2 ∅ !! mac)
             <-> mac ∈ row_addr <$> rows).
  { intros mac. rewrite Hd, <- (omap_stored rows Hst), <- first_row_is_Some.
    destruct (first_row mac rows); simpl; split; intros [x Hx];
      try discriminate; eauto. }
  assert (Hinv : no_duplicate_rows o'
                   (_load_existing_devices (loaded_load e) o' fs2 ∅, fs2)).
  { exists true, rows. unfold active_content. simpl. rewrite Hinc.
    split; [reflexivity|]. split; [apply (csv_reader_file true rows)|].
    split; [exact Hnd|].
    intros row Hrow. apply Hdom. now apply list_elem_of_fmap_2. }
  split; [exact Hdom|]. split; [|split; [exact Hinv|]].
  - rewrite <- size_dom.
    assert (Hset : dom (_load_existing_devices (loaded_load e) o' fs2 ∅)
                   = list_to_set (row_addr <$> rows)).
    { apply set_eq. intros mac.
      rewrite elem_of_dom, elem_of_list_to_set. apply Hdom. }
    rewrite Hset, size_list_to_set by exact Hnd. apply length_fmap.
  - intros es Hes. now apply scan_ticks_inv.
Qed.

(** the first line of a text, up to a pattern that holds no line end *)
Lemma first_line_app (s : string) :
  forall cur,
    hd EmptyString (readlines_go cur s)
    = cur +:+ hd EmptyString (readlines_go EmptyString s).
Proof.
  induction s as [|c s IH]; intros cur.
  - simpl. rewrite string_app_nil_r. now destruct cur.
  - simpl. destruct (Ascii.eqb c LF); [reflexivity|].
    destruct (Ascii.eqb c CR).
    + destruct s as [|c2 s']; [reflexivity|].
      destruct (Ascii.eqb c2 LF); reflexivity.
    + rewrite (IH (cur +:+ String c EmptyString)).
      rewrite (IH (String c EmptyString)).
      now rewrite string_app_assoc.
Qed.

Lemma readline_hd (s : string) :
  readline s = hd EmptyString (readlines_go EmptyString s).
Proof. unfold readline, readlines. now destruct (readlines_go EmptyString s). Qed.

Lemma startswith_readline (p : string) :
  has_special p = false ->
  forall s, startswith p (readline s) = startswith p s.
Proof.
  induction p as [|a p IH]; intros Hp s; [reflexivity|].
  simpl in Hp. apply orb_false_iff in Hp as [Ha Hp].
  apply special_false in Ha as (_ & _ & Hcr & Hlf).
  rewrite readline_hd. destruct s as [|c s]; [reflexivity|].
  simpl readlines_go.
  destruct (Ascii.eqb c LF) eqn:Elf.
  { apply Ascii.eqb_eq in Elf as ->. simpl. now rewrite Hlf. }
  destruct (Ascii.eqb c CR) eqn:Ecr.
  { apply Ascii.eqb_eq in Ecr as ->.
    destruct s as [|c2 s']; simpl; [now rewrite Hcr|].
    destruct (Ascii.eqb c2 LF); simpl; now rewrite Hcr. }
  rewrite first_line_app, <- readline_hd. simpl.
  now rewrite IH.
Qed.

(** a text in upper case does not start with the mark of the preamble *)
Lemma upper_not_preamble (f0 : string) :
  upper f0 = f0 -> startswith "WigleWifi" f0 = false.
Proof.
  intros Hup. destruct f0 as [|c0 [|c1 s]]; [reflexivity| |].
  - cbn [startswith]. apply andb_false_r.
  - cbn [startswith].
    destruct (Ascii.eqb "i" c1) eqn:E; [|apply andb_false_r].
    apply Ascii.eqb_eq in E as <-. simpl in Hup. discriminate.
Qed.

(** a plain text followed by a delimiter starts with a pattern only if
    the text itself does *)
Lemma startswith_plain (p : string) :
  has_special p = false ->
  forall (f0 : string) (c : ascii) (y : string),
    special c = true -> startswith p f0 = false ->
    startswith p (f0 +:+ String c y) = false.
Proof.
  induction p as [|a p IH]; intros Hp f0 c y Hc Hf; [discriminate|].
  simpl in Hp. apply orb_false_iff in Hp as [Ha Hp].
  destruct f0 as [|b f0]; simpl.
  - destruct (Ascii.eqb a c) eqn:E; [|reflexivity].
    apply Ascii.eqb_eq in E as ->. congruence.
  - simpl in Hf. destruct (Ascii.eqb a b); [|reflexivity].
    simpl in *. now apply IH.
Qed.

(** the text of a first row whose address is in upper case does not
    start with the mark of the preamble *)
Lemma row_not_preamble (f0 : string) (r : list string) (x : string) :
  upper f0 = f0 ->
  startswith "WigleWifi" (writerow (f0 :: r) +:+ x) = false.
Proof.
  intros Hup. apply upper_not_preamble in Hup.
  assert (Hq : forall y, startswith "WigleWifi" (quoted f0 +:+ y) = false)
    by reflexivity.
  assert (Hplain : forall c y, special c = true ->
             startswith "WigleWifi" ((f0 +:+ String c y) +:+ x) = false).
  { intros c y Hc. rewrite string_app_assoc. simpl.
    now apply (startswith_plain "WigleWifi"). }
  destruct r as [|f1 r].
  - unfold writerow, write_field, CRLF.
    destruct (has_special f0 || true && String.eqb f0 EmptyString).
    + now rewrite string_app_assoc.
    + now apply Hplain.
  - unfold writerow. cbn [join_fields]. unfold write_field at 1.
    destruct (has_special f0 || false && String.eqb f0 EmptyString).
    + now rewrite !string_app_assoc.
    + rewrite (string_app_assoc f0). simpl. now apply Hplain.
Qed.

(** X6. An active file that holds rows but no header, as the appends
    of [scan] create it when the header could not be written, is not
    loaded at all: whatever the number of its rows,
    [_load_existing_devices] finds that the first record is not the
    header and returns without adding an address to the ledger.  The
    first row is one that [scan] writes: its address is in upper case,
    and is not [MAC]. *)
Theorem headerless_file_is_not_loaded (e : load_env) (o : options) (fs : fsys)
  (t : Z) (rows : list (list string)) (d : ledger) :
  fs !! devices_file o = Some (File (rows_text rows) t) ->
  load_open_raises e = false ->
  (forall f0 r rs, rows = (f0 :: r) :: rs -> upper f0 = f0 /\ f0 <> "MAC") ->
  _load_existing_devices e o fs d = d.
Proof.
  intros Hfile Hopen Hfirst.
  unfold _load_existing_devices. rewrite Hfile, Hopen.
  unfold load_body. rewrite csv_reader_rows.
  destruct rows as [|[|f0 r] rs].
  - simpl. reflexivity.
  - replace (startswith "WigleWifi" (readline (rows_text ([] :: rs)))) with false
      by reflexivity.
    reflexivity.
  - destruct (Hfirst f0 r rs eq_refl) as [Hup Hne].
    rewrite startswith_readline by reflexivity.
    simpl rows_text. rewrite (row_not_preamble f0 r _ Hup).
    simpl. apply String.eqb_neq in Hne. now rewrite Hne.
Qed.

(** X7. The preamble line is optional: a file that starts with the line
    of the column names is loaded like the file that holds the same rows
    after the preamble and the column names. *)
Theorem preamble_is_optional (e : load_env) (o : options) (fs : fsys)
  (t t' : Z) (rows : list (list string)) :
  fs !! devices_file o = Some (File (writerow header +:+ rows_text rows) t) ->
  load_open_raises e = false ->
  _load_existing_devices e o fs ∅
  = _load_existing_devices e o
      (<[devices_file o := File (header_text +:+ rows_text rows) t']> fs) ∅.
Proof.
  intros Hfile Hopen.
  unfold _load_existing_devices.
  rewrite Hfile, lookup_insert_eq, Hopen, load_body_file.
  unfold load_body.
  change (writerow header +:+ rows_text rows) with (rows_text (header :: rows)).
  rewrite csv_reader_rows, startswith_readline by reflexivity.
  reflexivity.
Qed.

Lemma head_of_no_slash (p : string) :
  contains "/" p = false -> head_of p = EmptyString.
Proof.
  induction p as [|c p IH]; [reflexivity|].
  cbn [contains startswith head_of]. intros H.
  apply orb_false_iff in H as [Hc Hp].
  rewrite Hp. destruct p; rewrite andb_true_r in Hc;
    rewrite Ascii.eqb_sym, Hc; reflexivity.
Qed.

(** X8. When the configured path of the active file has no directory
    part, [os.path.dirname] gives the empty path, [os.makedirs] raises
    on it, and [on_loaded] raises before it writes or loads anything. *)
Theorem on_loaded_bare_file_name (e : loaded_env) (o : options) (fs : fsys) :
  contains "/" (devices_file o) = false ->
  dirname (devices_file o) = EmptyString
  /\ on_loaded e o fs = Raised.
Proof.
  intros H.
  assert (Hd : dirname (devices_file o) = EmptyString).
  { unfold dirname. now rewrite head_of_no_slash. }
  split; [exact Hd|].
  unfold on_loaded. simpl. rewrite Hd.
  unfold Fs.makedirs. simpl. now rewrite orb_true_r.
Qed.

End Restart.

(** * The lines of [bluetoothctl] and the rows of one tick *)

Section DeviceLines.
Import PyStr.

Lemma rstrip_app (a b : string) :
  rstrip (a +:+ b)
  = match rstrip b with
    | EmptyString => rstrip a
    | String c r => a +:+ String c r
    end.
Proof.
  induction a as [|c a IH].
  - simpl. now destruct (rstrip b).
  - simpl. rewrite IH. destruct (rstrip b) as [|c' r']; [reflexivity|].
    now destruct a.
Qed.

Lemma rstrip_no_space (s : string) : no_space s = true -> rstrip s = s.
Proof.
  induction s as [|c s IH]; [reflexivity|].
  cbn [no_space]. intros H. apply andb_true_iff in H as [Hc Hs].
  cbn [rstrip]. rewrite (IH Hs).
  apply negb_true_iff in Hc. rewrite Hc. now destruct s.
Qed.

Lemma rstrip_empty_lstrip (s : string) :
  rstrip s = EmptyString -> lstrip s = EmptyString.
Proof.
  induction s as [|c s IH]; [reflexivity|].
  cbn [rstrip lstrip]. destruct (rstrip s) as [|c' r]; [|discriminate].
  destruct (isspace c); [intros _; now apply IH|discriminate].
Qed.

Lemma lstrip_rstrip (s : string) : lstrip (rstrip s) = rstrip (lstrip s).
Proof.
  induction s as [|c s IH]; [reflexivity|].
  cbn [rstrip lstrip]. destruct (isspace c) eqn:Ec.
  - rewrite <- IH. destruct (rstrip s) as [|c' r]; [reflexivity|].
    cbn [lstrip]. now rewrite Ec.
  - cbn [rstrip]. destruct (rstrip s) as [|c' r]; rewrite ?Ec;
      cbn [lstrip]; now rewrite Ec.
Qed.

Lemma rstrip_idem (s : string) : rstrip (rstrip s) = rstrip s.
Proof.
  induction s as [|c s IH]; [reflexivity|].
  cbn [rstrip]. destruct (rstrip s) as [|c' r] eqn:E.
  - destruct (isspace c) eqn:Ec; [reflexivity|].
    cbn [rstrip]. now rewrite Ec.
  - cbn [rstrip] in *. now rewrite IH.
Qed.

Lemma strip_rstrip (s : string) : strip (rstrip s) = strip s.
Proof. unfold strip. now rewrite lstrip_rstrip, rstrip_idem. Qed.

Lemma not_space_char (c : ascii) : isspace c = false -> Ascii.eqb c " " = false.
Proof.
  intros H. destruct (Ascii.eqb_spec c " ") as [->|]; [discriminate|reflexivity].
Qed.

Lemma split_max_zero (sep : ascii) (s : string) : split_max sep 0 s = [s].
Proof. now destruct s. Qed.

Lemma split_max_no_space (s : string) :
  forall n, no_space s = true -> split_max " " n s = [s].
Proof.
  induction s as [|c s IH]; intros n H; [reflexivity|].
  cbn [no_space] in H. apply andb_true_iff in H as [Hc Hs].
  apply negb_true_iff, not_space_char in Hc.
  destruct n as [|n]; [reflexivity|].
  cbn [split_max]. now rewrite Hc, (IH (S n) Hs).
Qed.

Lemma split_max_word (a : string) :
  forall n rest,
    no_space a = true ->
    split_max " " (S n) (a +:+ String " " rest) = a :: split_max " " n rest.
Proof.
  induction a as [|c a IH]; intros n rest H.
  - reflexivity.
  - cbn [no_space] in H. apply andb_true_iff in H as [Hc Hs].
    apply negb_true_iff, not_space_char in Hc.
    cbn [String.append split_max]. now rewrite Hc, (IH n rest Hs).
Qed.

Lemma strip_device_line (mac name : string) :
  mac <> EmptyString -> no_space mac = true ->
  strip (device_line_of mac name)
  = match rstrip name with
    | EmptyString => "Device " +:+ mac
    | String c r => "Device " +:+ mac +:+ String " " (String c r)
    end.
Proof.
  intros Hne Hns. unfold strip, device_line_of.
  replace (lstrip ("Device " +:+ mac +:+ " " +:+ name))
    with (("Device " +:+ mac +:+ " ") +:+ name)
    by (now rewrite !string_app_assoc).
  rewrite rstrip_app. destruct (rstrip name) as [|c r].
  - replace ("Device " +:+ mac +:+ " ") with (("Device " +:+ mac) +:+ " ")
      by (now rewrite !string_app_assoc).
    rewrite rstrip_app.
    replace (rstrip " ") with EmptyString by reflexivity.
    rewrite rstrip_app, (rstrip_no_space mac Hns).
    destruct mac; [contradiction|reflexivity].
  - now rewrite !string_app_assoc.
Qed.

(** X9. A line of [bluetoothctl devices] made of the word [Device], an
    address and a name, separated by single spaces, gives the address in
    upper case and the name without the white space around it, whatever
    ASCII characters the name holds, spaces inside it included; the line
    without a name gives the empty name.  The address is not empty and
    holds no white space.  Address and name are ASCII text, on which
    [upper] and [strip] are the methods of Python. *)
Theorem parse_device_line (mac name : string) :
  mac <> EmptyString -> no_space mac = true ->
  is_ascii mac = true -> is_ascii name = true ->
  parse_device (device_line_of mac name) = Some (upper mac, strip name)
  /\ parse_device ("Device " +:+ mac) = Some (upper mac, EmptyString).
Proof.
  intros Hne Hns _ _. split.
  - unfold parse_device.
    replace (contains "Device " (device_line_of mac name)) with true by reflexivity.
    cbn [negb]. rewrite (strip_device_line mac name Hne Hns).
    destruct (rstrip name) as [|c r] eqn:Er.
    + change ("Device " +:+ mac) with ("Device" +:+ String " " mac).
      rewrite split_max_word by reflexivity.
      rewrite (split_max_no_space mac 1 Hns).
      unfold strip. now rewrite (rstrip_empty_lstrip name Er).
    + change ("Device " +:+ mac +:+ String " " (String c r))
        with ("Device" +:+ String " " (mac +:+ String " " (String c r))).
      rewrite split_max_word by reflexivity.
      rewrite (split_max_word mac 0 _ Hns), split_max_zero.
      now rewrite <- Er, strip_rstrip.
  - unfold parse_device.
    replace (contains "Device " ("Device " +:+ mac)) with true by reflexivity.
    cbn [negb].
    assert (Hs : strip ("Device " +:+ mac) = "Device " +:+ mac).
    { unfold strip.
      replace (lstrip ("Device " +:+ mac)) with ("Device " +:+ mac) by reflexivity.
      rewrite rstrip_app, (rstrip_no_space mac Hns).
      destruct mac; [contradiction|reflexivity]. }
    rewrite Hs.
    change ("Device " +:+ mac) with ("Device" +:+ String " " mac).
    rewrite split_max_word by reflexivity.
    now rewrite (split_max_no_space mac 1 Hns).
Qed.

Lemma type_of_lines_range (lines : list string) :
  type_of_lines lines = Raised
  \/ type_of_lines lines = Ok "BT" \/ type_of_lines lines = Ok "BLE".
Proof.
  induction lines as [|l ls IH]; [right; left; reflexivity|].
  cbn [type_of_lines]. destruct (contains "Type" l); [|exact IH].
  destruct (after_colon l) as [dtype|]; [|left; reflexivity].
  destruct (contains "LE" dtype); [right; right; reflexivity|exact IH].
Qed.

(** X10. [get_device_type] answers [BT] or [BLE] and nothing else,
    whatever [bluetoothctl info] prints and also when the command fails;
    so the third field of every row that [scan] writes is [Misc [BT]] or
    [Misc [BLE]], and its last field is [BT] or [BLE]. *)
Theorem device_type_is_bt_or_ble (L : pylib) (de : dev_env) (gf : gps_fix)
  (mac name t : string) :
  (get_device_type (out_type de) = "BT" \/ get_device_type (out_type de) = "BLE")
  /\ (let row := device_row L de gf mac name t in
      (row !! 2%nat = Some "Misc [BT]" /\ row !! 13%nat = Some "BT")
      \/ (row !! 2%nat = Some "Misc [BLE]" /\ row !! 13%nat = Some "BLE")).
Proof.
  assert (H : get_device_type (out_type de) = "BT"
              \/ get_device_type (out_type de) = "BLE").
  { unfold get_device_type. destruct (out_type de) as [out|]; [|now left].
    destruct (type_of_lines_range (splitlines out)) as [->|[->| ->]]; auto. }
  split; [exact H|].
  unfold device_row. cbn [lookup list_lookup].
  destruct H as [-> | ->]; [left|right]; split; reflexivity.
Qed.

(** X11. In the output of [bluetoothctl info] the first line that holds
    the word decides.  The manufacturer is what follows the first colon of
    the first line holding [Manufacturer], without the white space around
    it, and the empty text when that line has no colon.  The signal
    strength is the integer after the first colon of the first line
    holding [RSSI]; when that line has no colon, or no integer after it,
    the answer is 0, whatever the later lines hold. *)
Theorem info_first_match_decides (L : pylib) (out : string)
  (before after : list string) (line : string) :
  splitlines out = before ++ line :: after ->
  (Forall (fun l => contains "Manufacturer" l = false) before ->
   contains "Manufacturer" line = true ->
   get_device_manufacturer (Ok out)
   = match after_colon line with
     | Ok m => m
     | Raised => EmptyString
     end)
  /\ (Forall (fun l => contains "RSSI" l = false) before ->
      contains "RSSI" line = true ->
      get_device_rssi L (Ok out)
      = match after_colon line with
        | Ok v => match int_of_str L v with Some n => n | None => 0 end
        | Raised => 0
        end).
Proof.
  intros Hout. split; intros Hb Hl.
  - unfold get_device_manufacturer. rewrite Hout. clear Hout.
    assert (H : mfgr_of_lines (before ++ line :: after) = after_colon line).
    { induction Hb as [|l ls Hl0 _ IH]; cbn [app mfgr_of_lines].
      + now rewrite Hl.
      + now rewrite Hl0. }
    now rewrite H.
  - unfold get_device_rssi. rewrite Hout. clear Hout.
    assert (H : rssi_of_lines L (before ++ line :: after)
                = match after_colon line with
                  | Ok v => match int_of_str L v with
                            | Some n => Ok n
                            | None => Raised
                            end
                  | Raised => Raised
                  end).
    { induction Hb as [|l ls Hl0 _ IH]; cbn [app rssi_of_lines].
      + now rewrite Hl.
      + now rewrite Hl0. }
    rewrite H. destruct (after_colon line) as [v|]; [|reflexivity].
    now destruct (int_of_str L v).
Qed.

End DeviceLines.

Section TickRows.

Variable L : pylib.
Variable o : options.

Lemma string_app_inv_head (a b c : string) : a +:+ b = a +:+ c -> b = c.
Proof.
  induction a as [|x a IH]; [auto|]. simpl. intros [= H]. now apply IH.
Qed.

Lemma rows_text_inj (r1 r2 : list (list string)) :
  rows_text r1 = rows_text r2 -> r1 = r2.
Proof.
  intros H. assert (E := csv_reader_rows r1).
  rewrite H, csv_reader_rows in E. congruence.
Qed.

Lemma appended_unique (fs fs' : fsys) (r1 r2 : list (list string)) :
  appended o fs fs' r1 -> appended o fs fs' r2 -> r1 = r2.
Proof.
  unfold appended. intros H1 H2. rewrite H1 in H2.
  now apply string_app_inv_head, rows_text_inj in H2.
Qed.

(** the rows of a run of the loop, one by one *)
Lemma scan_lines_rows (e : scan_env) (gf : gps_fix) (lines : list string) :
  forall st,
    let st' := scan_lines L o e gf st lines in
    exists new,
      appended o (files st) (files st') new
      /\ rows_written st' = (rows_written st + length new)%nat
      /\ (forall m v, data st !! m = Some v -> data st' !! m = Some v)
      /\ Forall (fun row =>
                   exists line mac name,
                     line ∈ lines
                     /\ parse_device line = Some (mac, name)
                     /\ (mac ∉ blacklist o)
                     /\ data st !! mac = None
                     /\ row = device_row L (dev e mac) gf mac name (scan_time e))
           new.
Proof.
  unfold scan_lines. induction lines as [|line lines IH]; intros st; simpl.
  - exists []. split; [apply appended_refl|].
    split; [simpl; now rewrite Nat.add_0_r|]. split; [auto|constructor].
  - set (st1 := scan_line L o (dev e) gf (scan_time e) st line).
    destruct (IH st1) as (r2 & A2 & N2 & M2 & R2).
    assert (Hlater : Forall (fun row =>
                   exists line0 mac name,
                     line0 ∈ line :: lines
                     /\ parse_device line0 = Some (mac, name)
                     /\ (mac ∉ blacklist o)
                     /\ data st1 !! mac = None
                     /\ row = device_row L (dev e mac) gf mac name (scan_time e))
           r2).
    { eapply Forall_impl; [exact R2|].
      intros row (l0 & mac & name & Hin & Hp & Hb & Hd & Hr).
      exists l0, mac, name. repeat split; auto. now apply list_elem_of_further. }
    destruct (scan_line_cases L o (dev e) gf (scan_time e) st line)
      as [[Heq _] | (mac & name & Hp & Hbl & Hd & Hd' & Hw)];
      fold st1 in Heq || (cbv zeta in Hw; fold st1 in Hd', Hw).
    + exists r2. rewrite Heq in *. repeat split; assumption.
    + assert (Hmono : forall m v, data st !! m = Some v -> data st1 !! m = Some v).
      { intros m v Hm. rewrite Hd', lookup_insert_ne; [assumption|congruence]. }
      assert (Hback : Forall (fun row =>
                   exists line0 mac0 name0,
                     line0 ∈ line :: lines
                     /\ parse_device line0 = Some (mac0, name0)
                     /\ (mac0 ∉ blacklist o)
                     /\ data st !! mac0 = None
                     /\ row = device_row L (dev e mac0) gf mac0 name0 (scan_time e))
           r2).
      { eapply Forall_impl; [exact Hlater|].
        intros row (l0 & mac0 & name0 & Hin & Hp0 & Hb0 & Hd0 & Hr).
        exists l0, mac0, name0. repeat split; auto.
        destruct (data st !! mac0) as [v|] eqn:E; [|reflexivity].
        apply Hmono in E. congruence. }
      destruct Hw as [[Hw Hn] | (Hw & Hf & Hn)].
      * exists (device_row L (dev e mac) gf mac name (scan_time e) :: r2).
        split.
        { apply (appended_trans o _ (files st1) _ [_] r2); [|exact A2].
          unfold appended. rewrite rows_text_one.
          eapply append_text_content, Hw. }
        split; [rewrite N2, Hn; simpl; lia|].
        split; [intros m v Hm; apply M2, Hmono, Hm|].
        constructor; [|exact Hback].
        exists line, mac, name. repeat split; auto. apply list_elem_of_here.
      * exists r2. split; [unfold appended in *; now rewrite <- Hf|].
        split; [rewrite N2, Hn; reflexivity|].
        split; [intros m v Hm; apply M2, Hmono, Hm|exact Hback].
Qed.

(** X12. The rows that one run of the loop of [scan] appends to the
    active file are determined by the file before and after, their number
    is the count of rows that [scan] reports, and each of them is the row
    of a device of the listing: its address was neither on the blacklist
    nor in the ledger, and the row carries that address, the name of the
    line, the time of the tick and the position read at the start of the
    tick, in as many fields as the header has columns.  The reader gives
    the rows back as they were written, after the records the file held:
    a name is read back as it is, whatever characters it holds. *)
Theorem tick_rows_are_device_rows (e : scan_env) (gf : gps_fix)
  (lines : list string) (st : scan_state) :
  let st' := scan_lines L o e gf st lines in
  exists new,
    appended o (files st) (files st') new
    /\ (forall new', appended o (files st) (files st') new' -> new' = new)
    /\ rows_written st' = (rows_written st + length new)%nat
    /\ Forall (fun row =>
                 length row = length header
                 /\ row !! 3%nat = Some (scan_time e)
                 /\ exists line mac name,
                      line ∈ lines
                      /\ parse_device line = Some (mac, name)
                      /\ (mac ∉ blacklist o)
                      /\ data st !! mac = None
                      /\ row = device_row L (dev e mac) gf mac name (scan_time e))
         new
    /\ (forall h rows,
          active_content o (files st) = head_text h +:+ rows_text rows ->
          Csv.csv_reader (active_content o (files st'))
          = (head_records h ++ rows ++ new, false)).
Proof.
  intros st'. destruct (scan_lines_rows e gf lines st) as (new & A & N & _ & R).
  exists new. split; [exact A|].
  split; [intros new' A'; now apply (appended_unique _ _ _ _ A' A)|].
  split; [exact N|]. split.
  - eapply Forall_impl; [exact R|].
    intros row (line & mac & name & Hin & Hp & Hb & Hd & ->).
    split; [reflexivity|]. split; [reflexivity|].
    exists line, mac, name. repeat split; auto.
  - intros h rows Hc. unfold appended in A. fold st' in A.
    rewrite A, Hc, string_app_assoc, <- rows_text_app.
    apply csv_reader_file.
Qed.

End TickRows.

(** * Rollover: what becomes of the active file *)

Section RolloverMore.
Import PyStr.

(** X13. Whatever system call raises, a call of [check_rollover] never
    loses the active file, provided the rolled path is not the active
    path itself.  When the call reports no rollover, what was at the
    active path is still there and the ledger is as it was.  When it
    reports a rollover, what was at the active path is at the rolled path
    (inside it, under the name of the active file, when the rolled path is
    a directory), and the ledger is empty, also when the header of the
    new file could not be written. *)
Theorem rollover_keeps_the_log (e : roll_env) (o : options) (d : ledger)
  (fs : fsys) (n : node) :
  fs !! devices_file o = Some n ->
  rolled_path o (roll_ts e) <> devices_file o ->
  let r := check_rollover e o d fs in
  (r.1 = false /\ r.2.1 = d /\ r.2.2 !! devices_file o = Some n)
  \/ (r.1 = true /\ r.2.1 = ∅
      /\ (r.2.2 !! rolled_path o (roll_ts e) = Some n
          \/ r.2.2 !! path_join (rolled_path o (roll_ts e))
                        (basename (devices_file o)) = Some n)).
Proof.
  intros Hn Hne. cbv zeta. unfold check_rollover.
  destruct (ensure_upload_dir e o fs) as [fs1|] eqn:E1; [|left; auto].
  assert (H1 : fs1 !! devices_file o = Some n).
  { unfold ensure_upload_dir in E1.
    destruct (Fs.exists_ (upload_path o) fs) eqn:Ex; [now injection E1 as <-|].
    apply makedirs_lookup in E1 as [Ho _].
    rewrite Ho; [exact Hn|].
    intros Heq. unfold Fs.exists_ in Ex. rewrite <- Heq, Hn in Ex. discriminate. }
  rewrite H1.
  destruct (file_size o <=? Fs.getsize n); [|left; auto].
  destruct (Fs.move _ _ _ fs1) as [fs2|] eqn:E2; [|left; auto].
  right. split; [reflexivity|]. split; [reflexivity|]. simpl.
  assert (Hw : forall q, q <> devices_file o ->
             write_csv_header (roll_header_raises e) (roll_header_time e) o fs2 !! q
             = fs2 !! q).
  { intros q Hq. unfold write_csv_header, Fs.write_text.
    destruct (roll_header_raises e); [reflexivity|].
    destruct (fs2 !! devices_file o) as [[c t|sz]|]; try reflexivity;
      now rewrite lookup_insert_ne by congruence. }
  unfold Fs.move in E2. destruct (roll_move_raises e); [discriminate|].
  rewrite H1 in E2.
  destruct (fs1 !! rolled_path o (roll_ts e)) as [[c t|sz]|] eqn:Ed.
  - injection E2 as <-. left. rewrite Hw by exact Hne. apply lookup_insert_eq.
  - destruct (Fs.exists_ _ fs1) eqn:Ex; [discriminate|].
    injection E2 as <-. right.
    assert (Hreal : path_join (rolled_path o (roll_ts e)) (basename (devices_file o))
                    <> devices_file o).
    { intros Heq. unfold Fs.exists_ in Ex. rewrite Heq, H1 in Ex. discriminate. }
    rewrite Hw by exact Hreal. apply lookup_insert_eq.
  - injection E2 as <-. left. rewrite Hw by exact Hne. apply lookup_insert_eq.
Qed.

Lemma replace_absent (old new : string) (s : string) :
  contains old s = false -> replace old new s = s.
Proof.
  unfold replace. induction s as [|c s IH]; [reflexivity|].
  cbn [contains replace_go]. intros H. apply orb_false_iff in H as [Hp Hc].
  rewrite Hp. now rewrite (IH Hc).
Qed.

(** X14. [str.replace] changes nothing in a name that does not hold
    [.csv] in these very letters: the rolled file then gets the name of
    the active file at every rollover, whatever the time, and a rollover
    puts the active file in the place of the file rolled before it, which
    is lost. *)
Theorem rollover_without_extension_overwrites (e : roll_env) (o : options)
  (d : ledger) (fs : fsys) (n : node) (old : string) (t : Z) :
  contains ".csv" (basename (devices_file o)) = false ->
  (forall ts,
     rolled_path o ts = path_join (upload_path o) (basename (devices_file o)))
  /\ (roll_makedirs_raises e = false ->
      roll_move_raises e = false ->
      roll_header_raises e = false ->
      upload_path o <> EmptyString ->
      upload_path o <> devices_file o ->
      rolled_path o (roll_ts e) <> devices_file o ->
      rolled_path o (roll_ts e) <> upload_path o ->
      fs !! devices_file o = Some n ->
      file_size o <= Fs.getsize n ->
      fs !! rolled_path o (roll_ts e) = Some (File old t) ->
      let r := check_rollover e o d fs in
      r.1 = true
      /\ forall ts, r.2.2 !! rolled_path o ts = Some n).
Proof.
  intros Hno.
  assert (Hpath : forall ts,
             rolled_path o ts = path_join (upload_path o) (basename (devices_file o))).
  { intros ts. unfold rolled_path, rolled_name. now rewrite replace_absent. }
  split; [exact Hpath|].
  intros Hm Hv Hh Hu1 Hu2 Hr1 Hr2 Hn Hsz Hold r.
  destruct (check_rollover_eq e o d fs Hm Hv Hh Hu1 Hu2 Hr1 Hr2) as (fs1 & _ & Heq).
  { intros sz. rewrite Hold. discriminate. }
  subst r. rewrite Heq, Hn.
  apply Z.leb_le in Hsz. rewrite Hsz. simpl.
  split; [reflexivity|]. intros ts.
  rewrite (Hpath ts), <- (Hpath (roll_ts e)).
  rewrite lookup_insert_ne by congruence. apply lookup_insert_eq.
Qed.

Lemma length_app (a b : string) :
  String.length (a +:+ b) = (String.length a + String.length b)%nat.
Proof. induction a as [|c a IH]; simpl; [reflexivity|now rewrite IH]. Qed.

(** the loop of [scan] leaves a regular file at the active path *)
Lemma scan_lines_file (L : pylib) (o : options) (e : scan_env) (gf : gps_fix)
  (lines : list string) :
  forall st,
    (exists c t, files st !! devices_file o = Some (File c t)) ->
    exists c t,
      files (scan_lines L o e gf st lines) !! devices_file o = Some (File c t).
Proof.
  unfold scan_lines. induction lines as [|line lines IH]; intros st Hf; [exact Hf|].
  simpl. apply IH.
  destruct (scan_line_cases L o (dev e) gf (scan_time e) st line)
    as [[-> _] | (mac & name & _ & _ & _ & _ & Hw)]; [exact Hf|].
  cbv zeta in Hw. destruct Hw as [[Hw _] | (_ & -> & _)]; [|exact Hf].
  eapply append_text_file, Hw.
Qed.

(** one tick from a state in which the active file has reached the
    threshold *)
Lemma threshold_reached_step (L : pylib) (o : options) (se : scan_env)
  (d : ledger) (fs : fsys) (c : string) (t : Z) :
  fs !! devices_file o = Some (File c t) ->
  file_size o <= Z.of_nat (String.length c) ->
  upload_path o <> EmptyString ->
  upload_path o <> devices_file o ->
  plain_tick L o se ->
  (forall sz, fs !! rolled_path o (roll_ts (roll se)) <> Some (Other sz)) ->
  let r := scan_tick L o se (d, fs) in
  r.1 = true
  /\ r.2.1 = ∅
  /\ r.2.2 !! devices_file o
     = Some (File header_text (roll_header_time (roll se)))
  /\ forall p, p <> upload_path o ->
       (forall sz, fs !! p <> Some (Other sz)) ->
       forall sz, r.2.2 !! p <> Some (Other sz).
Proof.
  intros Hfile Hsz Hu1 Hu2 (Hgps & Hm & Hv & Hh & Hr1 & Hr2) Hdir.
  assert (Hroll : forall d1 fs1 c1 t1,
             fs1 !! devices_file o = Some (File c1 t1) ->
             file_size o <= Z.of_nat (String.length c1) ->
             (forall p, p <> devices_file o -> fs1 !! p = fs !! p) ->
             let r1 := check_rollover (roll se) o d1 fs1 in
             r1.1 = true /\ r1.2.1 = ∅
             /\ r1.2.2 !! devices_file o
                = Some (File header_text (roll_header_time (roll se)))
             /\ forall p, p <> upload_path o ->
                  (forall sz, fs !! p <> Some (Other sz)) ->
                  forall sz, r1.2.2 !! p <> Some (Other sz)).
  { intros d1 fs1 c1 t1 Hf1 Hs1 Hsame r1.
    destruct (check_rollover_eq (roll se) o d1 fs1 Hm Hv Hh Hu1 Hu2 Hr1 Hr2)
      as (fs2 & Hfs2 & Heq).
    { intros sz. rewrite Hsame by exact Hr1. apply Hdir. }
    subst r1. rewrite Heq, Hf1.
    assert (Hle : (file_size o <=? Fs.getsize (File c1 t1)) = true)
      by (apply Z.leb_le; exact Hs1).
    rewrite Hle. split; [reflexivity|]. split; [reflexivity|].
    split; [apply lookup_insert_eq|].
    intros p Hp Hno sz. cbn [snd].
    destruct (decide (p = devices_file o)) as [->|Hpa];
      [rewrite lookup_insert_eq; discriminate|].
    rewrite lookup_insert_ne by congruence.
    destruct (decide (p = rolled_path o (roll_ts (roll se)))) as [->|Hpr];
      [rewrite lookup_insert_eq; discriminate|].
    rewrite lookup_insert_ne by congruence.
    rewrite lookup_delete_ne by congruence.
    rewrite Hfs2 by exact Hp. rewrite Hsame by exact Hpa. apply Hno. }
  cbv zeta. unfold scan_tick, scan. cbn [fst snd].
  destruct (get_gps_coords L (gps se)) as [gf|]; [|contradiction].
  destruct (String.eqb (devices_output se) EmptyString).
  - now apply (Hroll d fs c t).
  - set (st := scan_lines L o se gf _ _).
    destruct (scan_lines_law L o se gf
                (splitlines (strip (devices_output se)))
                {| data := d; files := fs; rows_written := 0 |})
      as (new & A & _ & _ & _ & _ & P & _).
    fold st in A, P. simpl in A, P.
    unfold appended, active_content in A. rewrite Hfile in A.
    destruct (scan_lines_file L o se gf (splitlines (strip (devices_output se)))
                {| data := d; files := fs; rows_written := 0 |})
      as (c1 & t1 & F); [simpl; eauto|].
    fold st in F. rewrite F in A. subst c1.
    apply (Hroll (data st) (files st) _ t1 F); [|exact P].
    rewrite length_app. lia.
Qed.

(** X15. When the size threshold is not above the size of the header,
    the file that a rollover creates is itself due for a rollover.  From
    a state in which the active file has reached the threshold, every
    tick of a sequence of ticks rolls the file over and ends with an
    empty ledger: the devices in range are logged anew at every scan.
    The ticks are those in which neither the position fix nor a call of
    the rollover raises, and no rolled path is a directory. *)
Theorem small_threshold_rolls_every_tick (L : pylib) (o : options)
  (es : list scan_env) :
  file_size o <= Z.of_nat (String.length header_text) ->
  upload_path o <> EmptyString ->
  upload_path o <> devices_file o ->
  Forall (plain_tick L o) es ->
  forall (d : ledger) (fs : fsys) (c : string) (t : Z),
    fs !! devices_file o = Some (File c t) ->
    file_size o <= Z.of_nat (String.length c) ->
    Forall (fun se => forall sz,
              fs !! rolled_path o (roll_ts (roll se)) <> Some (Other sz)) es ->
    Forall (fun r => r.1 = true /\ r.2.1 = ∅) (tick_results L o es (d, fs)).
Proof.
  intros Hhd Hu1 Hu2 Hall.
  induction Hall as [|se es Hse Hes IH]; intros d fs c t Hfile Hsz Hdirs;
    [constructor|].
  apply Forall_cons in Hdirs as [Hdir Hdirs].
  destruct (threshold_reached_step L o se d fs c t Hfile Hsz Hu1 Hu2 Hse Hdir)
    as (Hr & Hd & Hf & Hno).
  cbn [tick_results]. constructor; [split; assumption|].
  destruct (scan_tick L o se (d, fs)) as [b [d1 fs1]] eqn:Er.
  cbn [fst snd] in *.
  apply (IH d1 fs1 header_text (roll_header_time (roll se)) Hf Hhd).
  rewrite Forall_forall in Hdirs, Hes |- *.
  intros se' Hin sz. apply Hno; [|apply Hdirs, Hin].
  destruct (Hes se' Hin) as (_ & _ & _ & _ & _ & Hne). exact Hne.
Qed.

End RolloverMore.

(** * What a drain does to the files *)

Section DrainFiles.
Import PyStr.

Variable o : options.

Lemma fold_failed (env : string -> upload_env) (l : list string) :
  forall fs log,
    (forall f, _upload_file o (env f) f fs = (false, fs)) ->
    fold_left (upload_step o env) l (fs, log)
    = (fs, log ++ ((fun f => (f, false)) <$> l)).
Proof.
  induction l as [|f l IH]; intros fs log H; simpl.
  - now rewrite app_nil_r.
  - unfold upload_step at 2. simpl. rewrite H. rewrite (IH fs _ H).
    now rewrite <- app_assoc.
Qed.

(** X16. When the credentials are missing, or when no upload of the
    drain is accepted, [_upload_all] changes nothing on the disk: every
    pending file is tried once, in the order of the listing, each try
    fails, and the files stay where they are. *)
Theorem failed_drain_changes_nothing (listdir_raises : bool)
  (env : string -> upload_env) (fs : fsys) :
  credentials o = false \/ (forall f, response_ok (env f) = false) ->
  _upload_all listdir_raises o env fs
  = (fs, (fun f => (f, false)) <$> _list_csv_files listdir_raises o fs).
Proof.
  intros H. unfold _upload_all.
  rewrite fold_failed; [reflexivity|].
  intros f. apply upload_file_failed. destruct H as [H|H]; auto.
Qed.

Lemma dispose_frame (e : upload_env) (p : string) (fs : fsys) (q : string) :
  q <> p -> q <> uploaded_file_path o p ->
  q <> path_join (uploaded_file_path o p) (basename p) ->
  dispose o e p fs !! q = fs !! q.
Proof.
  intros H1 H2 H3. unfold dispose, Fs.move. fold (uploaded_file_path o p).
  destruct (up_move_raises e); [reflexivity|].
  destruct (fs !! p) as [n|]; [|reflexivity].
  assert (Hrm : forall fs2, fs2 !! q = fs !! q ->
            (if remove_on_success o
             then match Fs.remove (up_remove_raises e) (uploaded_file_path o p) fs2 with
                  | Ok fs3 => fs3
                  | Raised => fs2
                  end
             else fs2) !! q = fs !! q).
  { intros fs2 Hfs2. destruct (remove_on_success o); [|exact Hfs2].
    unfold Fs.remove. destruct (up_remove_raises e); [exact Hfs2|].
    destruct (fs2 !! uploaded_file_path o p) as [[c t|sz]|]; try exact Hfs2.
    now rewrite lookup_delete_ne by congruence. }
  destruct (fs !! uploaded_file_path o p) as [[c t|sz]|].
  - apply Hrm. rewrite lookup_insert_ne by congruence.
    now rewrite lookup_delete_ne by congruence.
  - destruct (Fs.exists_ _ fs); [reflexivity|].
    apply Hrm. rewrite lookup_insert_ne by congruence.
    now rewrite lookup_delete_ne by congruence.
  - apply Hrm. rewrite lookup_insert_ne by congruence.
    now rewrite lookup_delete_ne by congruence.
Qed.

(** [os.makedirs] of a path where something is creates nothing *)
Lemma makedirs_existing (r : bool) (p : string) (fs fs1 : fsys) :
  is_Some (fs !! p) -> Fs.makedirs r p fs = Ok fs1 ->
  fs1 = fs /\ exists sz, fs !! p = Some (Other sz).
Proof.
  intros [n Hn]. unfold Fs.makedirs. destruct (r || _); [discriminate|].
  rewrite Hn. destruct n as [c t|sz]; [discriminate|].
  intros [= <-]. eauto.
Qed.

Lemma upload_file_frame (e : upload_env) (p : string) (fs : fsys) (q : string) :
  is_Some (fs !! uploaded_path o) ->
  q ∉ upload_footprint o p -> (_upload_file o e p fs).2 !! q = fs !! q.
Proof.
  unfold upload_footprint. rewrite !not_elem_of_cons.
  intros Hdir (H1 & H2 & H3 & _). unfold _upload_file.
  destruct (_ || _); [reflexivity|]. destruct (_ || _); [reflexivity|].
  destruct (up_post e) as [|status [j|]]; try reflexivity;
    destruct (status =? 200); try reflexivity.
  destruct j as [| | | | |kv]; try reflexivity.
  destruct (PyVal.dict_get "success" kv) as [v|]; [|reflexivity].
  destruct (PyVal.truthy v); [|reflexivity].
  destruct (Fs.makedirs _ _ fs) as [fs1|] eqn:Em; [|reflexivity].
  apply (makedirs_existing _ _ _ _ Hdir) in Em as [-> _].
  cbn [snd]. now apply dispose_frame.
Qed.

(** the holding directory, once it exists, outlives every upload *)
Lemma upload_file_keeps_holding_dir (e : upload_env) (p : string) (fs : fsys) :
  is_Some (fs !! uploaded_path o) ->
  is_Some ((_upload_file o e p fs).2 !! uploaded_path o).
Proof.
  intros Hdir. unfold _upload_file.
  destruct (_ || _); [exact Hdir|].
  destruct (up_open_raises e || negb (Fs.isfile p fs)) eqn:Eo; [exact Hdir|].
  destruct (up_post e) as [|status [j|]]; try exact Hdir;
    destruct (status =? 200); try exact Hdir.
  destruct j as [| | | | |kv]; try exact Hdir.
  destruct (PyVal.dict_get "success" kv) as [v|]; [|exact Hdir].
  destruct (PyVal.truthy v); [|exact Hdir].
  destruct (Fs.makedirs _ _ fs) as [fs1|] eqn:Em; [|exact Hdir].
  apply (makedirs_existing _ _ _ _ Hdir) in Em as [-> [szd Hd]].
  cbn [snd].
  apply orb_false_iff in Eo as [_ Hfile]. apply negb_false_iff in Hfile.
  unfold Fs.isfile in Hfile.
  destruct (fs !! p) as [[c t|sz]|] eqn:Ep; try discriminate.
  assert (Hpu : p <> uploaded_path o) by (intros ->; congruence).
  unfold dispose, Fs.move. fold (uploaded_file_path o p).
  destruct (up_move_raises e); [exact Hdir|]. rewrite Ep.
  set (u := uploaded_file_path o p).
  assert (Hins : forall dst,
             is_Some ((<[dst := File c t]> (delete p fs)) !! uploaded_path o)).
  { intros dst. destruct (decide (dst = uploaded_path o)) as [->|Hne].
    - rewrite lookup_insert_eq. now eexists.
    - rewrite lookup_insert_ne, lookup_delete_ne by congruence. exact Hdir. }
  assert (Hrm : forall dst,
             (dst = u -> u <> uploaded_path o) ->
             is_Some ((if remove_on_success o
                       then match Fs.remove (up_remove_raises e) u
                                    (<[dst := File c t]> (delete p fs)) with
                            | Ok fs3 => fs3
                            | Raised => <[dst := File c t]> (delete p fs)
                            end
                       else <[dst := File c t]> (delete p fs))
                      !! uploaded_path o)).
  { intros dst Hdst. destruct (remove_on_success o); [|apply Hins].
    unfold Fs.remove. destruct (up_remove_raises e); [apply Hins|].
    destruct (decide (dst = u)) as [Heq|Hne].
    - rewrite Heq, lookup_insert_eq.
      rewrite lookup_delete_ne by (apply Hdst, Heq). apply Hins.
    - rewrite lookup_insert_ne by exact Hne.
      destruct (delete p fs !! u) as [[c' t'|sz']|] eqn:Eu; try apply Hins.
      destruct (decide (u = uploaded_path o)) as [Hu|Hu].
      + exfalso. rewrite Hu, lookup_delete_ne, Hd in Eu by congruence.
        discriminate.
      + rewrite lookup_delete_ne by exact Hu. apply Hins. }
  destruct (fs !! u) as [[c' t'|sz]|] eqn:Eu.
  - apply Hrm. intros _ Hu. rewrite Hu, Hd in Eu. discriminate.
  - destruct (Fs.exists_ (path_join u (basename p)) fs) eqn:Ex; [exact Hdir|].
    apply Hrm. intros Heq. exfalso.
    unfold Fs.exists_ in Ex. rewrite Heq, Eu in Ex. discriminate.
  - apply Hrm. intros _ Hu. rewrite Hu in Eu.
    destruct Hdir as [n Hn]. congruence.
Qed.

Lemma fold_frame (env : string -> upload_env) (q : string) (l : list string) :
  forall acc,
    is_Some (acc.1 !! uploaded_path o) ->
    (forall f, f ∈ l -> q ∉ upload_footprint o f) ->
    (fold_left (upload_step o env) l acc).1 !! q = acc.1 !! q.
Proof.
  induction l as [|f l IH]; intros acc Hdir H; [reflexivity|].
  simpl.
  assert (Hstep : (upload_step o env acc f).1
                  = (_upload_file o (env f) f acc.1).2).
  { unfold upload_step. now destruct (_upload_file o (env f) f acc.1). }
  rewrite IH.
  - rewrite Hstep. apply upload_file_frame; [exact Hdir|].
    apply H, list_elem_of_here.
  - rewrite Hstep. now apply upload_file_keeps_holding_dir.
  - intros f' Hf'. apply H. now apply list_elem_of_further.
Qed.

(** X17. Once the holding directory exists ([on_loaded] creates it), a
    drain changes only the paths of the pending files it uploads and the
    places in the holding directory that they are moved to.  Every other
    path, the holding directory included, keeps what it holds, whatever
    the uploads answer and whichever system call raises; so the active
    log is not touched by a drain when it is none of these paths of a
    pending file. *)
Theorem drain_touches_only_its_files (listdir_raises : bool)
  (env : string -> upload_env) (fs : fsys) (q : string) :
  is_Some (fs !! uploaded_path o) ->
  (forall f, f ∈ _list_csv_files listdir_raises o fs ->
             q ∉ upload_footprint o f) ->
  (_upload_all listdir_raises o env fs).1 !! q = fs !! q.
Proof. intros Hdir H. unfold _upload_all. now rewrite fold_frame. Qed.

(** one accepted upload, the file removed from the holding area *)
Lemma accepted_step (e : upload_env) (p : string) (fs : fsys)
  (c : string) (t : Z) :
  credentials o = true -> remove_on_success o = true ->
  response_ok e = true ->
  up_open_raises e = false -> up_makedirs_raises e = false ->
  up_move_raises e = false -> up_remove_raises e = false ->
  uploaded_path o <> EmptyString ->
  fs !! p = Some (File c t) ->
  (forall c' t', fs !! uploaded_path o <> Some (File c' t')) ->
  (forall sz, fs !! uploaded_file_path o p <> Some (Other sz)) ->
  uploaded_file_path o p <> p ->
  uploaded_file_path o p <> uploaded_path o ->
  exists fs',
    _upload_file o e p fs = (true, fs')
    /\ fs' !! p = None
    /\ fs' !! uploaded_file_path o p = None
    /\ (forall q, q <> p -> q <> uploaded_file_path o p ->
                  q <> uploaded_path o -> fs' !! q = fs !! q)
    /\ exists sz, fs' !! uploaded_path o = Some (Other sz).
Proof.
  intros Hcr Hrm Hok Hopen Hmk Hmv Hre Hup Hp Hnf Hnd Hne1 Hne2.
  apply response_ok_true in Hok as (kv & v & Hpost & Hget & Hv).
  unfold credentials in Hcr. apply andb_true_iff in Hcr as [H1 H2].
  apply negb_true_iff in H1, H2.
  assert (Hpu : p <> uploaded_path o).
  { intros ->. now destruct (Hnf c t). }
  unfold _upload_file. rewrite H1, H2, Hopen. simpl.
  unfold Fs.isfile. rewrite Hp. simpl. rewrite Hpost. simpl.
  rewrite Hget, Hv. unfold Fs.makedirs. rewrite Hmk. simpl.
  destruct (String.eqb_spec (uploaded_path o) EmptyString); [contradiction|].
  assert (Hstep : forall fs1,
             fs1 !! p = Some (File c t) ->
             (forall q, q <> uploaded_path o -> fs1 !! q = fs !! q) ->
             (exists sz, fs1 !! uploaded_path o = Some (Other sz)) ->
             exists fs',
               (true, dispose o e p fs1) = (true, fs')
               /\ fs' !! p = None
               /\ fs' !! uploaded_file_path o p = None
               /\ (forall q, q <> p -> q <> uploaded_file_path o p ->
                             q <> uploaded_path o -> fs' !! q = fs !! q)
               /\ exists sz, fs' !! uploaded_path o = Some (Other sz)).
  { intros fs1 Hp1 Hoth Hdir. eexists. split; [reflexivity|].
    rewrite (dispose_moved o e p fs1 c t Hp1 Hmv); [|
      intros sz; rewrite Hoth by exact Hne2; apply Hnd | exact Hne1].
    rewrite Hrm, Hre.
    split. { rewrite lookup_delete_ne, lookup_insert_ne by congruence.
             apply lookup_delete_eq. }
    split. { apply lookup_delete_eq. }
    split. { intros q Hq1 Hq2 Hq3.
             rewrite lookup_delete_ne, lookup_insert_ne, lookup_delete_ne by congruence.
             now apply Hoth. }
    destruct Hdir as [sz Hsz]. exists sz.
    rewrite lookup_delete_ne, lookup_insert_ne, lookup_delete_ne by congruence.
    exact Hsz. }
  destruct (fs !! uploaded_path o) as [[c' t'|sz]|] eqn:Eu.
  - now destruct (Hnf c' t').
  - apply Hstep; [exact Hp|auto|eauto].
  - apply Hstep.
    + now rewrite lookup_insert_ne by congruence.
    + intros q Hq. now rewrite lookup_insert_ne by congruence.
    + exists 0. apply lookup_insert_eq.
Qed.

(** the drain of accepted uploads, file by file *)
Lemma accepted_fold (env : string -> upload_env) (fs : fsys) :
  credentials o = true -> remove_on_success o = true ->
  all_accepted env ->
  uploaded_path o <> EmptyString ->
  (forall c t, fs !! uploaded_path o <> Some (File c t)) ->
  forall l2 l1 fsk log,
    NoDup (l1 ++ l2) ->
    (forall f, f ∈ l1 ++ l2 ->
       (exists c t, fs !! f = Some (File c t))
       /\ uploaded_file_path o f <> uploaded_path o
       /\ (forall sz, fs !! uploaded_file_path o f <> Some (Other sz))
       /\ forall f', f' ∈ l1 ++ l2 -> uploaded_file_path o f <> f') ->
    shrunk o fs fsk ->
    (forall f, f ∈ l1 -> fsk !! f = None) ->
    (forall f, f ∈ l2 -> fsk !! f = fs !! f) ->
    let r := fold_left (upload_step o env) l2 (fsk, log) in
    shrunk o fs r.1
    /\ (forall f, f ∈ l1 ++ l2 -> r.1 !! f = None)
    /\ r.2 = log ++ ((fun f => (f, true)) <$> l2).
Proof.
  intros Hcr Hrm Hacc Hup Hnf.
  induction l2 as [|f l2 IH]; intros l1 fsk log Hnd Hfiles Hsh Hgone Hkept.
  - simpl. rewrite !app_nil_r. auto.
  - assert (Hin : f ∈ l1 ++ f :: l2)
      by (apply elem_of_app; right; apply list_elem_of_here).
    destruct (Hfiles f Hin) as ((c & t & Hf) & Hne2 & Hnodir & Hnp).
    destruct (Hacc f) as (Hok & Hopen & Hmk & Hmv & Hre).
    destruct Hsh as [Hsh1 Hsh2].
    assert (Hfk : fsk !! f = Some (File c t)).
    { rewrite Hkept by apply list_elem_of_here. exact Hf. }
    destruct (accepted_step (env f) f fsk c t Hcr Hrm Hok Hopen Hmk Hmv Hre Hup Hfk)
      as (fs' & Hres & Hp' & Hu' & Hoth & sz' & Hdir).
    { intros c' t' Hx. apply Hsh1 in Hx. now destruct (Hnf c' t'). }
    { intros sz Hx. apply Hsh2 in Hx as [Hx|Hx]; [contradiction|].
      now destruct (Hnodir sz). }
    { apply Hnp, Hin. }
    { exact Hne2. }
    assert (Hstep : upload_step o env (fsk, log) f = (fs', log ++ [(f, true)])).
    { unfold upload_step. cbn [fst snd]. now rewrite Hres. }
    cbv zeta. cbn [fold_left]. rewrite Hstep.
    assert (Hfu : f <> uploaded_path o).
    { intros ->. now destruct (Hnf c t). }
    destruct (IH (l1 ++ [f]) fs' (log ++ [(f, true)])) as (I1 & I2 & I3).
    + now rewrite <- app_assoc.
    + intros f0 Hf0. rewrite <- app_assoc in Hf0. simpl in Hf0.
      destruct (Hfiles f0 Hf0) as (A & B & C & D).
      repeat split; auto. intros f1 Hf1. apply D.
      rewrite <- app_assoc in Hf1. exact Hf1.
    + split.
      * intros q c0 t0 Hq.
        destruct (decide (q = f)) as [->|Hq1]; [congruence|].
        destruct (decide (q = uploaded_file_path o f)) as [->|Hq2]; [congruence|].
        destruct (decide (q = uploaded_path o)) as [->|Hq3]; [congruence|].
        rewrite Hoth in Hq by assumption. now apply Hsh1.
      * intros q sz0 Hq.
        destruct (decide (q = uploaded_path o)) as [->|Hq3]; [now left|].
        destruct (decide (q = f)) as [->|Hq1]; [congruence|].
        destruct (decide (q = uploaded_file_path o f)) as [->|Hq2]; [congruence|].
        rewrite Hoth in Hq by assumption. now apply Hsh2 in Hq.
    + intros f0 Hf0. apply elem_of_app in Hf0 as [Hf0|Hf0].
      * destruct (decide (f0 = uploaded_file_path o f)) as [->|Hq2]; [exact Hu'|].
        assert (Hf0in : f0 ∈ l1 ++ f :: l2) by (apply elem_of_app; now left).
        destruct (Hfiles f0 Hf0in) as ((c0 & t0 & Hc0) & _).
        assert (f0 <> uploaded_path o) by (intros ->; now destruct (Hnf c0 t0)).
        assert (f0 <> f).
        { intros ->. apply NoDup_app in Hnd as (_ & Hd & _).
          apply (Hd f Hf0), list_elem_of_here. }
        rewrite Hoth by assumption. now apply Hgone.
      * apply list_elem_of_singleton in Hf0 as ->. exact Hp'.
    + intros f0 Hf0.
      assert (Hf0in : f0 ∈ l1 ++ f :: l2)
        by (apply elem_of_app; right; now apply list_elem_of_further).
      destruct (Hfiles f0 Hf0in) as ((c0 & t0 & Hc0) & _).
      assert (f0 <> uploaded_path o) by (intros ->; now destruct (Hnf c0 t0)).
      assert (f0 <> f).
      { intros ->. apply NoDup_app in Hnd as (_ & _ & Hd).
        apply NoDup_cons in Hd as [Hd _]. contradiction. }
      assert (f0 <> uploaded_file_path o f).
      { intros Heq. symmetry in Heq. revert Heq. apply Hnp, Hf0in. }
      rewrite Hoth by assumption. apply Hkept. now apply list_elem_of_further.
    + split; [exact I1|]. split.
      * intros f0 Hf0. apply I2. rewrite <- app_assoc. exact Hf0.
      * rewrite I3, <- app_assoc. reflexivity.
Qed.

(** X18. When every upload of a drain is accepted, no system call
    raises and [remove_on_success] is set, the drain reports every pending
    file as uploaded, in the order of the listing, removes each of them,
    and leaves no pending file: the listing that follows is empty.  The
    credentials are set; the holding area is not a regular file, and the
    place of a file in it is neither a directory nor the holding area
    nor a pending path. *)
Theorem accepted_drain_empties_pending (env : string -> upload_env) (fs : fsys) :
  credentials o = true -> remove_on_success o = true ->
  all_accepted env ->
  upload_path o <> EmptyString ->
  uploaded_path o <> EmptyString ->
  (forall c t, fs !! uploaded_path o <> Some (File c t)) ->
  (forall f, pending_csv o fs f ->
     uploaded_file_path o f <> uploaded_path o
     /\ (forall sz, fs !! uploaded_file_path o f <> Some (Other sz))
     /\ forall f', pending_csv o fs f' -> uploaded_file_path o f <> f') ->
  let r := _upload_all false o env fs in
  r.2 = (fun f => (f, true)) <$> _list_csv_files false o fs
  /\ (forall f, pending_csv o fs f -> r.1 !! f = None)
  /\ _list_csv_files false o r.1 = [].
Proof.
  intros Hcr Hrm Hacc Hu0 Hup Hnf Hpl r.
  assert (Hel := list_csv_files_elem o fs).
  destruct (accepted_fold env fs Hcr Hrm Hacc Hup Hnf
              (_list_csv_files false o fs) [] fs [])
    as ((I1 & I1') & I2 & I3).
  - apply list_csv_files_NoDup, Hu0.
  - intros f Hf. simpl in Hf. apply Hel in Hf; [|exact Hu0].
    destruct (Hpl f Hf) as (A & B & C).
    split. { destruct Hf as (name & c & t & Hc & _). eauto. }
    split; [exact A|]. split; [exact B|].
    intros f' Hf'. simpl in Hf'. apply Hel in Hf'; [|exact Hu0]. now apply C.
  - split; auto.
  - intros f Hf. inversion Hf.
  - reflexivity.
  - fold r in I1, I2, I3. simpl in I2, I3.
    split; [exact I3|]. split.
    + intros f Hf. apply I2, Hel; assumption.
    + apply elem_of_nil_inv. intros p Hp.
      apply list_csv_files_elem in Hp; [|exact Hu0].
      destruct Hp as (name & c & t & Hc & Hn & He).
      assert (Hpend : pending_csv o fs p).
      { exists name, c, t. split; [now apply I1|]. auto. }
      rewrite I2 in Hc; [discriminate|]. now apply Hel.
Qed.

End DrainFiles.

(** * The drain lock under every schedule *)

Section DrainLockMore.
Import Drain DrainFacts.

Lemma reachable_inv (n : nat) (s : sys) : reachable n s -> lock_inv s.
Proof. intros [sched ->]. apply run_inv, start_inv. Qed.

Lemma one_batch_thread (l : list pc) :
  (0 < length (filter (fun p => in_batch p = true) l))%nat ->
  exists j, l !! j = Some InBatch.
Proof.
  intros H.
  destruct (filter (fun p => in_batch p = true) l) as [|p ps] eqn:E;
    [simpl in H; lia|].
  assert (Hin : p ∈ filter (fun p => in_batch p = true) l)
    by (rewrite E; apply list_elem_of_here).
  apply list_elem_of_filter in Hin as [Hb Hin].
  destruct p; try discriminate.
  apply list_elem_of_lookup in Hin as [j Hj]. now exists j.
Qed.

(** X19. In every state that a schedule of the threads reaches, at most
    one thread is inside the [with] block, and the lock is held exactly
    when one is; and the threads never block one another for good: as
    long as some thread has not returned, some thread can take a step.
    A thread that waits at the [with] waits for a thread that uploads,
    which releases the lock when it leaves the block. *)
Theorem drain_lock_is_exclusive_and_live (n : nat) (s : sys) :
  reachable n s ->
  (batches s <= 1)%nat
  /\ (locked s = true <-> batches s = 1%nat)
  /\ (forall i p, threads s !! i = Some p -> running p = true ->
        exists j s', step_thread j s = Some s').
Proof.
  intros Hr. pose proof (reachable_inv n s Hr) as Hinv.
  unfold lock_inv in Hinv.
  split; [destruct (locked s); simpl in Hinv; lia|].
  split; [destruct (locked s); simpl in Hinv; split; intros H; try lia;
          try reflexivity; discriminate|].
  intros i p Hi Hp.
  destruct (locked s) eqn:El.
  - destruct (one_batch_thread (threads s)) as [j Hj].
    { unfold batches in Hinv. rewrite Hinv. simpl. lia. }
    exists j. unfold step_thread. rewrite Hj. eauto.
  - exists i. unfold step_thread. rewrite Hi, El.
    destruct p; try discriminate; eauto.
Qed.

Lemma skipped_stays (i : nat) (sched : list nat) :
  forall s, threads s !! i = Some Skipped ->
            threads (run sched s) !! i = Some Skipped.
Proof.
  unfold run. induction sched as [|j sched IH]; intros s Hs; [exact Hs|].
  simpl. apply IH. unfold run_step, step_thread.
  destruct (threads s !! j) as [[]|] eqn:Ej; try exact Hs.
  - simpl. destruct (decide (j = i)) as [->|Hne]; [congruence|].
    now rewrite list_lookup_insert_ne.
  - destruct (locked s); [exact Hs|]. simpl.
    destruct (decide (j = i)) as [->|Hne]; [congruence|].
    now rewrite list_lookup_insert_ne.
  - simpl. destruct (decide (j = i)) as [->|Hne]; [congruence|].
    now rewrite list_lookup_insert_ne.
Qed.

(** X20. A trigger whose thread tests the lock while another thread
    holds it is dropped for good: the thread returns at the test, it
    never uploads under any later schedule, and its step leaves the lock
    and the other threads as they are. *)
Theorem trigger_during_batch_is_dropped (i : nat) (s : sys) (sched : list nat) :
  threads s !! i = Some AtLockedTest -> locked s = true ->
  let s1 := run_step s i in
  locked s1 = true
  /\ (forall j, j <> i -> threads s1 !! j = threads s !! j)
  /\ threads (run sched s1) !! i = Some Skipped.
Proof.
  intros Ht Hl s1.
  assert (Hs1 : s1 = {| locked := true; threads := <[i := Skipped]> (threads s) |}).
  { subst s1. unfold run_step. now rewrite (test_while_locked i s Ht Hl). }
  rewrite Hs1. simpl. split; [reflexivity|]. split.
  - intros j Hj. now rewrite list_lookup_insert_ne.
  - apply skipped_stays. simpl.
    apply list_lookup_insert_eq. now apply lookup_lt_Some in Ht.
Qed.

End DrainLockMore.

(** * The position fix and the pieces gpsd sends *)

Section GpsChunks.

Variable L : pylib.

Lemma cut_lines_shift (cur : string) :
  forall a s,
    no_lf cur = true ->
    cut_lines (a +:+ cur) s = cut_lines a (cur +:+ s).
Proof.
  induction cur as [|c cur IH]; intros a s H.
  - now rewrite string_app_nil_r.
  - cbn [no_lf] in H. apply andb_true_iff in H as [Hc Hcur].
    apply negb_true_iff in Hc.
    cbn [String.append cut_lines]. rewrite Hc.
    rewrite <- (IH (a +:+ String c EmptyString) s Hcur).
    now rewrite string_app_assoc.
Qed.

Lemma cut_lines_rest (s : string) :
  forall cur, no_lf cur = true -> no_lf (cut_lines cur s).2 = true.
Proof.
  induction s as [|c s IH]; intros cur H; [exact H|].
  cbn [cut_lines]. destruct (Ascii.eqb c PyStr.LF) eqn:Ec.
  - specialize (IH EmptyString eq_refl).
    destruct (cut_lines EmptyString s) as [ls rest]. exact IH.
  - apply IH. clear IH. induction cur as [|x cur IHc]; simpl.
    + now rewrite Ec.
    + cbn [no_lf] in H. apply andb_true_iff in H as [Hx Hcur].
      now rewrite Hx, (IHc Hcur).
Qed.

Lemma cut_lines_app (a : string) :
  forall cur b,
    cut_lines cur (a +:+ b)
    = ((cut_lines cur a).1 ++ (cut_lines (cut_lines cur a).2 b).1,
       (cut_lines (cut_lines cur a).2 b).2).
Proof.
  induction a as [|c a IH]; intros cur b.
  - simpl. now destruct (cut_lines cur b).
  - cbn [String.append cut_lines]. destruct (Ascii.eqb c PyStr.LF).
    + rewrite (IH EmptyString b).
      destruct (cut_lines EmptyString a) as [ls rest]. reflexivity.
    + apply IH.
Qed.

Lemma first_tpv_app (l1 l2 : list string) :
  first_tpv L (l1 ++ l2)
  = match first_tpv L l1 with
    | Some kv => Some kv
    | None => first_tpv L l2
    end.
Proof.
  induction l1 as [|l l1 IH]; [reflexivity|].
  simpl. now destruct (tpv_of_line L l).
Qed.

Lemma recv_loop_chunks (chunks : list string) :
  forall buf,
    no_lf buf = true ->
    Forall (fun c => c <> EmptyString) chunks ->
    recv_loop L buf (RecvChunk <$> chunks)
    = Ok (first_tpv L (cut_lines EmptyString (buf +:+ received chunks)).1).
Proof.
  induction chunks as [|chunk chunks IH]; intros buf Hbuf Hall.
  - simpl. rewrite string_app_nil_r.
    assert (H : forall cur, no_lf buf = true -> (cut_lines cur buf).1 = []).
    { clear. induction buf as [|c buf IHb]; intros cur H; [reflexivity|].
      cbn [no_lf] in H. apply andb_true_iff in H as [Hc Hb].
      apply negb_true_iff in Hc. cbn [cut_lines]. rewrite Hc. now apply IHb. }
    now rewrite H.
  - apply Forall_cons in Hall as [Hne Hall].
    cbn [fmap list_fmap recv_loop received fold_right].
    apply String.eqb_neq in Hne. rewrite Hne.
    rewrite <- string_app_assoc.
    rewrite (cut_lines_app (buf +:+ chunk) EmptyString).
    destruct (cut_lines EmptyString (buf +:+ chunk)) as [lines rest] eqn:Ec.
    cbn [fst snd]. rewrite first_tpv_app.
    destruct (first_tpv L lines) as [kv|]; [reflexivity|].
    assert (Hrest : no_lf rest = true).
    { change rest with (lines, rest).2. rewrite <- Ec.
      now apply cut_lines_rest. }
    rewrite (IH rest Hrest Hall).
    change (fold_right String.append EmptyString chunks) with (received chunks).
    rewrite <- (cut_lines_shift rest EmptyString _ Hrest). reflexivity.
Qed.

(** X21. The report of class TPV that [get_gps_coords] uses does not
    depend on how the text of gpsd is cut into the pieces that [recv]
    returns: it is the first such report among the complete lines of the
    whole text received, so a report that comes in several pieces is
    found as well, and two ways of cutting the same text give the same
    position.  The pieces are not empty, and no [recv] raises. *)
Theorem fix_does_not_depend_on_chunks (e e' : gps_env) (chunks chunks' : list string) :
  connect_raises e = false ->
  recvs e = RecvChunk <$> chunks ->
  Forall (fun c => c <> EmptyString) chunks ->
  gps_data L e = first_tpv L (cut_lines EmptyString (received chunks)).1
  /\ (connect_raises e' = false ->
      recvs e' = RecvChunk <$> chunks' ->
      Forall (fun c => c <> EmptyString) chunks' ->
      received chunks' = received chunks ->
      get_gps_coords L e' = get_gps_coords L e).
Proof.
  intros Hc Hr Hall.
  assert (Hd : forall e0 ch,
             connect_raises e0 = false -> recvs e0 = RecvChunk <$> ch ->
             Forall (fun c => c <> EmptyString) ch ->
             gps_data L e0 = first_tpv L (cut_lines EmptyString (received ch)).1).
  { intros e0 ch H1 H2 H3. unfold gps_data. rewrite H1, H2.
    now rewrite (recv_loop_chunks ch EmptyString eq_refl H3). }
  split; [now apply Hd|].
  intros Hc' Hr' Hall' Heq. unfold get_gps_coords.
  now rewrite (Hd e chunks Hc Hr Hall), (Hd e' chunks' Hc' Hr' Hall'), Heq.
Qed.

End GpsChunks.

(** * The properties at the inputs of the examples *)

Lemma scans_are_spaced_witness :
  Forall (fun out => bt_shown out = None)
    (ui_run Ex.lib Ex.opts Ex5.uiopts [Ex5.call_at 1010; Ex5.call_at 1044]
       (on_ui_update Ex.lib Ex.opts Ex5.uiopts (Ex5.call_at 1000) Ex5.started).1).2.
Proof.
  destruct (scans_are_spaced Ex.lib Ex.opts Ex5.uiopts (Ex5.call_at 1000)
              [Ex5.call_at 1010; Ex5.call_at 1044] Ex5.started) as (H & _).
  - eexists. reflexivity.
  - repeat constructor.
  - exact H.
Defined.

Lemma null_altitude_loses_the_tick_witness :
  scan Ex3.null_alt_lib Ex.opts Ex5.null_alt_tick ∅ (Ex.active []) = Raised.
Proof.
  destruct (null_altitude_loses_the_tick Ex3.null_alt_lib Ex.opts Ex5.uiopts
              Ex5.null_alt_call Ex5.started
              [("class", JStr "TPV"); ("altMSL", JNull)]) as (H & _).
  - reflexivity.
  - left. reflexivity.
  - reflexivity.
  - exact H.
Defined.

Lemma on_loaded_keeps_what_exists_witness :
  exists o' d fs',
    on_loaded Ex2.loadedenv Ex.opts (Ex.active [Ex.good_row]) = Ok (o', d, fs')
    /\ fs' !! devices_file Ex.opts
       = Some (File (header_text +:+ rows_text [Ex.good_row]) 0).
Proof.
  assert (H : exists o' d fs',
             on_loaded Ex2.loadedenv Ex.opts (Ex.active [Ex.good_row])
             = Ok (o', d, fs')) by (do 3 eexists; reflexivity).
  destruct H as (o' & d & fs' & E). exists o', d, fs'. split; [exact E|].
  destruct (on_loaded_keeps_what_exists _ _ _ _ _ _ E) as (H & _).
  apply H. apply lookup_singleton_eq.
Defined.

Lemma restart_keeps_rows_unique_witness :
  exists o' d fs',
    on_loaded Ex2.loadedenv Ex.opts (Ex.active [Ex.good_row]) = Ok (o', d, fs')
    /\ size d = 1%nat
    /\ no_duplicate_rows o' (d, fs').
Proof.
  assert (H : exists o' d fs',
             on_loaded Ex2.loadedenv Ex.opts (Ex.active [Ex.good_row])
             = Ok (o', d, fs')) by (do 3 eexists; reflexivity).
  destruct H as (o' & d & fs' & E). exists o', d, fs'. split; [exact E|].
  destruct (restart_keeps_rows_unique Ex.lib _ _ _ _ _ _ 0 [Ex.good_row] E)
    as (_ & H1 & H2 & _).
  - apply lookup_singleton_eq.
  - reflexivity.
  - apply NoDup_singleton.
  - repeat constructor.
  - split; [exact H1|exact H2].
Defined.

Lemma headerless_file_is_not_loaded_witness :
  _load_existing_devices Ex.loadenv Ex.opts (Ex5.headerless [Ex.good_row]) ∅ = ∅.
Proof.
  apply (headerless_file_is_not_loaded Ex.loadenv Ex.opts
           (Ex5.headerless [Ex.good_row]) 0 [Ex.good_row] ∅).
  - apply lookup_singleton_eq.
  - reflexivity.
  - intros f0 r rs [= <- <- <-]. split; [reflexivity|discriminate].
Defined.

Lemma preamble_is_optional_witness :
  _load_existing_devices Ex.loadenv Ex.opts (Ex5.no_preamble [Ex.good_row]) ∅
  = _load_existing_devices Ex.loadenv Ex.opts
      (<[devices_file Ex.opts := File (header_text +:+ rows_text [Ex.good_row]) 0]>
         (Ex5.no_preamble [Ex.good_row])) ∅.
Proof.
  apply (preamble_is_optional Ex.loadenv Ex.opts (Ex5.no_preamble [Ex.good_row])
           0 0 [Ex.good_row]).
  - apply lookup_singleton_eq.
  - reflexivity.
Defined.

Lemma on_loaded_bare_file_name_witness :
  on_loaded Ex2.loadedenv Ex5.bare_opts ∅ = Raised.
Proof.
  destruct (on_loaded_bare_file_name Ex2.loadedenv Ex5.bare_opts ∅) as (_ & H).
  - reflexivity.
  - exact H.
Defined.

Lemma parse_device_line_witness :
  parse_device (device_line_of "aa:bb:cc:11:22:33" "Bob's  phone ")
  = Some ("AA:BB:CC:11:22:33", "Bob's  phone").
Proof.
  destruct (parse_device_line "aa:bb:cc:11:22:33" "Bob's  phone ") as (H & _).
  - discriminate.
  - reflexivity.
  - reflexivity.
  - reflexivity.
  - exact H.
Defined.

Lemma info_first_match_decides_witness :
  get_device_manufacturer (Ok Ex5.info_output) = "Acme".
Proof.
  destruct (info_first_match_decides Ex.lib Ex5.info_output
              ["Device AA:BB:CC:11:22:33 (public)"; "Name: Tag"]
              ["RSSI: -60"] "Manufacturer: Acme") as (H & _).
  - reflexivity.
  - rewrite H; [reflexivity| |reflexivity].
    repeat constructor.
Defined.

Lemma rollover_keeps_the_log_witness :
  let r := check_rollover Ex2.rollenv Ex.small_opts ∅ (Ex.active []) in
  let n := File (header_text +:+ rows_text []) 0 in
  (r.1 = false /\ r.2.1 = ∅ /\ r.2.2 !! devices_file Ex.small_opts = Some n)
  \/ (r.1 = true /\ r.2.1 = ∅
      /\ (r.2.2 !! rolled_path Ex.small_opts (roll_ts Ex2.rollenv) = Some n
          \/ r.2.2 !! PyStr.path_join (rolled_path Ex.small_opts (roll_ts Ex2.rollenv))
                        (PyStr.basename (devices_file Ex.small_opts)) = Some n)).
Proof.
  apply (rollover_keeps_the_log Ex2.rollenv Ex.small_opts ∅ (Ex.active [])).
  - apply lookup_singleton_eq.
  - discriminate.
Defined.

Lemma rollover_without_extension_overwrites_witness :
  rolled_path Ex5.log_opts "20240101_120000"
  = "/root/handshakes/toupload/bluetooth_devices.log"
  /\ (check_rollover Ex2.rollenv Ex5.log_opts ∅ Ex5.log_fs).2.2
       !! "/root/handshakes/toupload/bluetooth_devices.log"
     = Some (File header_text 7).
Proof.
  destruct (rollover_without_extension_overwrites Ex2.rollenv Ex5.log_opts ∅
              Ex5.log_fs (File header_text 7) "earlier" 5) as (H1 & H2).
  - reflexivity.
  - split; [now rewrite H1|].
    destruct H2 as (_ & H2);
      [..|rewrite <- (H2 "20240101_120000"), H1; reflexivity];
      try reflexivity; try discriminate.
Defined.

Lemma small_threshold_rolls_every_tick_witness :
  Forall (fun r => r.1 = true /\ r.2.1 = ∅)
    (tick_results Ex.lib Ex.small_opts [Ex2.tick; Ex2.tick_later] Ex2.fresh).
Proof.
  apply (small_threshold_rolls_every_tick Ex.lib Ex.small_opts
           [Ex2.tick; Ex2.tick_later]) with (c := header_text +:+ rows_text []) (t := 0).
  - apply Z.leb_le. reflexivity.
  - discriminate.
  - discriminate.
  - repeat constructor; discriminate.
  - apply lookup_singleton_eq.
  - apply Z.leb_le. reflexivity.
  - repeat constructor; intros sz; unfold Ex.active;
      rewrite lookup_singleton_ne; discriminate.
Defined.

Lemma failed_drain_changes_nothing_witness :
  _upload_all false Ex5.no_cred_opts (fun _ => Ex4.ok_env) Ex4.pending_fs
  = (Ex4.pending_fs,
     (fun f => (f, false)) <$> _list_csv_files false Ex5.no_cred_opts Ex4.pending_fs).
Proof.
  apply (failed_drain_changes_nothing Ex5.no_cred_opts false
           (fun _ => Ex4.ok_env) Ex4.pending_fs).
  left. reflexivity.
Defined.

Lemma drain_touches_only_its_files_witness :
  let fs' := (_upload_all false Ex.opts (fun _ => Ex4.ok_env) Ex5.holding_fs).1 in
  fs' !! "/root/handshakes/toupload/notes.txt" = Some (File "n" 5)
  /\ fs' !! Ex4.pending_a = None.
Proof.
  intros fs'. split; [|subst fs'; vm_compute; reflexivity].
  subst fs'.
  rewrite (drain_touches_only_its_files Ex.opts false (fun _ => Ex4.ok_env)
             Ex5.holding_fs "/root/handshakes/toupload/notes.txt").
  - reflexivity.
  - eexists. apply lookup_insert_eq.
  - assert (Hl : _list_csv_files false Ex.opts Ex5.holding_fs
                 = [Ex4.pending_b; Ex4.pending_a]) by (vm_compute; reflexivity).
    intros f Hf. rewrite Hl in Hf.
    apply elem_of_cons in Hf as [->|Hf];
      [|apply list_elem_of_singleton in Hf as ->];
      unfold upload_footprint; rewrite !not_elem_of_cons;
      repeat (split; [discriminate|]); apply not_elem_of_nil.
Defined.

Lemma pending_of_examples (f : string) :
  pending_csv Ex.opts Ex4.pending_fs f -> f = Ex4.pending_b \/ f = Ex4.pending_a.
Proof.
  intros H. apply list_csv_files_elem in H; [|discriminate].
  rewrite pending_example in H.
  apply elem_of_cons in H as [->|H]; [now left|].
  apply list_elem_of_singleton in H as ->. now right.
Qed.

Lemma accepted_drain_empties_pending_witness :
  _list_csv_files false Ex.opts
    (_upload_all false Ex.opts (fun _ => Ex4.ok_env) Ex4.pending_fs).1 = [].
Proof.
  destruct (accepted_drain_empties_pending Ex.opts (fun _ => Ex4.ok_env)
              Ex4.pending_fs) as (_ & _ & H).
  - reflexivity.
  - reflexivity.
  - intros f. repeat split; reflexivity.
  - discriminate.
  - discriminate.
  - intros c t. vm_compute. discriminate.
  - intros f Hf. split; [|split].
    + destruct (pending_of_examples f Hf) as [-> | ->]; discriminate.
    + intros sz.
      destruct (pending_of_examples f Hf) as [-> | ->]; vm_compute; discriminate.
    + intros f' Hf'.
      destruct (pending_of_examples f Hf) as [-> | ->];
        destruct (pending_of_examples f' Hf') as [-> | ->]; discriminate.
  - exact H.
Defined.

Lemma drain_lock_is_exclusive_and_live_witness :
  (Drain.batches (Drain.run [0; 1; 0]%nat (Drain.start 2)) <= 1)%nat.
Proof.
  destruct (drain_lock_is_exclusive_and_live 2
              (Drain.run [0; 1; 0]%nat (Drain.start 2))) as (H & _).
  - exists [0; 1; 0]%nat. reflexivity.
  - exact H.
Defined.

Lemma trigger_during_batch_is_dropped_witness :
  Drain.threads
    (Drain.run [0; 1; 1]%nat
       (Drain.run_step (Drain.run [0; 0]%nat (Drain.start 2)) 1)) !! 1%nat
  = Some Drain.Skipped.
Proof.
  destruct (trigger_during_batch_is_dropped 1
              (Drain.run [0; 0]%nat (Drain.start 2)) [0; 1; 1]%nat)
    as (_ & _ & H).
  - reflexivity.
  - reflexivity.
  - exact H.
Defined.

Lemma fix_does_not_depend_on_chunks_witness :
  get_gps_coords Ex3.lib Ex5.whole_env = get_gps_coords Ex3.lib Ex3.fix_env.
Proof.
  destruct (fix_does_not_depend_on_chunks Ex3.lib Ex3.fix_env Ex5.whole_env
              [Ex3.sky_line +:+ Ex3.nl +:+ "TP"; "V" +:+ Ex3.nl]
              [Ex3.sky_line +:+ Ex3.nl +:+ "TPV" +:+ Ex3.nl]) as (_ & H).
  - reflexivity.
  - reflexivity.
  - repeat constructor; discriminate.
  - apply H; try reflexivity. repeat constructor; discriminate.
Defined.

Lemma shown_count_is_the_ledger_before_witness :
  bt_shown (on_ui_update Ex.lib Ex.opts Ex5.uiopts (Ex5.call_at 1000) Ex5.started).2
  = Some "0".
Proof.
  destruct (shown_count_is_the_ledger_before Ex.lib Ex.opts Ex5.uiopts
              (Ex5.call_at 1000) Ex5.started) as (H & _).
  - reflexivity.
  - exact H.
Defined.
